(** * cursor-docker: the mitmproxy traffic store and its MCP query engine

    A shallow embedding of [src/mitmproxy_addon.py] (the capture side:
    [_safe_decode], [response]) and [src/mcp_proxy_server.py] (the query
    side: [read_index], [read_request], the six tools and
    [handle_tool_call]), followed by the properties of the design document
    that were checked against this code.

    Modelling conventions.
    - A Python [str] is a Rocq [string] whose characters are the code
      points U+0000 to U+00FF; [lower] and [upper] are [str.lower] and
      [str.upper] on these characters.
    - A JSON object is a record whose fields are the keys the code reads,
      each one optional: [d[k]] on an absent key raises [KeyError],
      [d.get(k, v)] yields [v].  A key that is present holds a value of the
      type the capture side writes there.
    - The traffic directory is a finite map from the paths of its files,
      relative to the directory, to what loading them gives: an object
      ([Json]), [null] or another JSON value ([JsonNull], [JsonOther]), or
      an exception: [JSONDecodeError] ([NotJson]), [IOError] from [open]
      ([Unreadable]), [UnicodeDecodeError] ([Undecodable]).  What
      [json.dump] writes is what [json.load] reads back.
    - Whether the server may remove an entry of the directory, and
      whether it may write a file of it, is a parameter ([Permissions]);
      the capture side writes its own files without hindrance.
    - [json.dumps(har, indent=2)] is kept symbolic: a tool result is either
      plain text or the serialisation of a HAR document. *)

From Stdlib Require Import String Ascii ZArith List Lia Bool DecimalString.
From Stdlib Require Import Sorting.Sorted Sorting.Permutation Structures.OrderedTypeEx.
From stdpp Require Import base option gmap strings list.

Open Scope string_scope.
Open Scope list_scope.
Open Scope Z_scope.

(** ** Python strings *)

Module PyStr.

Definition nl : string := String (ascii_of_nat 10) "".

(** The code points with a lower-case form: A-Z and U+00C0 to U+00DE
    without the multiplication sign U+00D7. *)
Definition is_upper_letter (n : N) : bool :=
  ((65 <=? n) && (n <=? 90) || (192 <=? n) && (n <=? 222) && negb (n =? 215))%N.

(** The code points whose upper-case form is the code point 32 below: a-z
    and U+00E0 to U+00FE without the division sign U+00F7. *)
Definition is_lower_letter (n : N) : bool :=
  ((97 <=? n) && (n <=? 122) || (224 <=? n) && (n <=? 254) && negb (n =? 247))%N.

Definition lower_char (c : ascii) : ascii :=
  let n := N_of_ascii c in
  if is_upper_letter n then ascii_of_N (n + 32) else c.

(** The upper-case form of a character, as code points: the sharp s
    (U+00DF) becomes "SS", and the upper-case forms of U+00FF and of the
    micro sign U+00B5 are U+0178 and U+039C. *)
Definition upper_char (c : ascii) : list N :=
  let n := N_of_ascii c in
  if (n =? 223)%N then [83; 83]%N
  else if (n =? 255)%N then [376]%N
  else if (n =? 181)%N then [924]%N
  else if is_lower_letter n then [(n - 32)%N]
  else [n].

(** [s.lower()]. *)
Fixpoint lower (s : string) : string :=
  match s with
  | EmptyString => EmptyString
  | String c s' => String (lower_char c) (lower s')
  end.

(** [s.upper()], as the sequence of its code points. *)
Fixpoint upper (s : string) : list N :=
  match s with
  | EmptyString => []
  | String c s' => upper_char c ++ upper s'
  end.

(** Truth value of a sequence: non-empty. *)
Definition nonempty {A} (l : list A) : bool :=
  match l with [] => false | _ :: _ => true end.

(** [s.startswith(p)], used to unfold the substring test. *)
Fixpoint startswith (s p : string) : bool :=
  match p, s with
  | EmptyString, _ => true
  | String _ _, EmptyString => false
  | String a p', String b s' => if Ascii.eqb a b then startswith s' p' else false
  end.

(** [needle in hay] on two strings. *)
Fixpoint str_in (needle hay : string) : bool :=
  if startswith hay needle then true
  else match hay with
       | EmptyString => false
       | String _ hay' => str_in needle hay'
       end.

(** The string read backwards. *)
Fixpoint str_rev (s : string) : string :=
  match s with
  | EmptyString => EmptyString
  | String c s' => str_rev s' +:+ String c EmptyString
  end.

(** [s.endswith(p)]; the shell pattern [*.json] is [endswith ".json"]. *)
Definition endswith (s p : string) : bool :=
  startswith (str_rev s) (str_rev p).

(** Truth value of a string: non-empty. *)
Definition truthy (s : string) : bool :=
  match s with EmptyString => false | String _ _ => true end.

(** [str(n)] for an integer. *)
Definition str_int (n : Z) : string := NilZero.string_of_int (Z.to_int n).

(** [sep.join(l)]. *)
Definition join (sep : string) (l : list string) : string := String.concat sep l.
#[global] Arguments join : simpl never.

(** Digits grouped by three from the right, for the [{:,}] format. *)
Fixpoint group3 (fuel : nat) (digits : list ascii) : list ascii :=
  match fuel with
  | O => digits
  | S fuel' =>
      if (3 <? length digits)%nat
      then group3 fuel' (take (length digits - 3) digits)
             ++ ","%char :: drop (length digits - 3) digits
      else digits
  end.

(** [f"{n:,}"]. *)
Definition str_int_commas (n : Z) : string :=
  let digits := list_ascii_of_string (str_int (Z.abs n)) in
  (if n <? 0 then "-" else "") +:+
  string_of_list_ascii (group3 (length digits) digits).

End PyStr.

(** ** Exceptions and results *)

Inductive exn : Type :=
| JSONDecodeError
| IOError
| KeyError (key : string)
| UnicodeDecodeError (message : string)
| AttributeError (message : string)
| TypeError (message : string).

Inductive result (A : Type) : Type :=
| Ok (a : A)
| Raise (e : exn).
Arguments Ok {A} a.
Arguments Raise {A} e.

#[global] Instance result_ret : MRet result := fun _ a => Ok a.
#[global] Instance result_bind : MBind result := fun _ _ f r =>
  match r with Ok a => f a | Raise e => Raise e end.

(** [str(e)] as the dispatcher reports it; a [KeyError] prints the quoted key. *)
Definition str_exn (e : exn) : string :=
  match e with
  | JSONDecodeError => "JSONDecodeError"
  | IOError => "IOError"
  | KeyError k => "'" +:+ k +:+ "'"
  | UnicodeDecodeError message | AttributeError message | TypeError message => message
  end.

Definition is_ok {A} (r : result A) : bool :=
  match r with Ok _ => true | Raise _ => false end.

(** [d[k]] on an optional key. *)
Definition getitem {A} (k : string) (o : option A) : result A :=
  match o with Some a => Ok a | None => Raise (KeyError k) end.

(** Run an action on every element in order, stopping at the first exception. *)
Fixpoint mapR {A B} (f : A -> result B) (l : list A) : result (list B) :=
  match l with
  | [] => Ok []
  | x :: l' => y ← f x; ys ← mapR f l'; mret (y :: ys)
  end.

(** ** The persisted documents *)

(** A header map: a dictionary in insertion order. *)
Definition headers : Type := list (string * string).

(** [d.get(k, default)] and the key/value view of a dictionary. *)
Fixpoint dict_get {V} (k : string) (d : list (string * V)) (dflt : V) : V :=
  match d with
  | [] => dflt
  | (k', v) :: d' => if String.eqb k k' then v else dict_get k d' dflt
  end.

(** [d[k] = v]: an existing key keeps its position, a new key goes last. *)
Fixpoint dict_set {V} (k : string) (v : V) (d : list (string * V)) : list (string * V) :=
  match d with
  | [] => [(k, v)]
  | (k', v') :: d' =>
      if String.eqb k k' then (k', v) :: d' else (k', v') :: dict_set k v d'
  end.

(** One entry of [index.json], as [response] builds [index_entry]. *)
Module Entry.
Record t : Type := mk {
  id : option string;
  timestamp : option string;
  method : option string;
  url : option string;
  host : option string;
  status_code : option Z;
  content_type : option string;
  request_size : option Z;
  response_size : option Z
}.
End Entry.

(** The ["request"] object of a record file. *)
Module Request.
Record t : Type := mk {
  method : option string;
  url : option string;
  host : option string;
  port : option Z;
  path : option string;
  scheme : option string;
  headers : option headers;
  content : option string;
  content_length : option Z
}.
End Request.

(** The ["response"] object of a record file. *)
Module Response.
Record t : Type := mk {
  status_code : option Z;
  reason : option string;
  headers : option headers;
  content : option string;
  content_length : option Z
}.
End Response.

(** A parsed JSON file of the traffic directory: the index holds
    ["requests"], a record file holds the other four keys. *)
Module Doc.
Record t : Type := mk {
  requests : option (list Entry.t);
  id : option string;
  timestamp : option string;
  request : option Request.t;
  response : option Response.t
}.
End Doc.

(** [{"requests": l}] *)
Definition index_doc (l : list Entry.t) : Doc.t :=
  Doc.mk (Some l) None None None None.

(** The arguments object of a tool call. *)
Module Params.
Record t : Type := mk {
  limit : option Z;
  host_filter : option string;
  method_filter : option string;
  status_filter : option Z;
  url_filter : option string;
  request_id : option string;
  query : option string;
  search_headers : option bool;
  request_ids : option (list string)
}.
Definition empty : t := mk None None None None None None None None None.
End Params.

(** ** The traffic directory *)

(** The type of a JSON value that is neither an object nor [null]. *)
Inductive pytype : Type := TList | TStr | TInt | TFloat | TBool.

Definition type_name (t : pytype) : string :=
  match t with
  | TList => "list" | TStr => "str" | TInt => "int" | TFloat => "float" | TBool => "bool"
  end.

(** What [json.load] returns: [None], an object, or a value of another type. *)
Inductive value : Type :=
| PyNone
| PyDict (d : Doc.t)
| PyOther (t : pytype).

(** The content of a file, as loading it shows: [json.load] raises
    [JSONDecodeError]; [open] raises [IOError]; the file parses to an
    object; its bytes are no UTF-8 text, so that [json.load] raises
    [UnicodeDecodeError] with the message of the codec; it parses to
    [null]; or it parses to a list, a string, a number or a boolean. *)
Inductive file : Type :=
| NotJson
| Unreadable
| Json (d : Doc.t)
| Undecodable (message : string)
| JsonNull
| JsonOther (t : pytype).

(** Which entries of the directory the server may remove, and which files
    it may open for writing. *)
Class Permissions : Type := {
  removable : string -> bool;
  writable : string -> bool
}.

Abbreviation store := (gmap string file).

(** Code that reads and writes the directory and may raise. *)
Definition M (A : Type) : Type := store -> result A * store.

#[global] Instance M_ret : MRet M := fun _ a s => (Ok a, s).
#[global] Instance M_bind : MBind M := fun _ _ f m s =>
  match m s with
  | (Ok a, s') => f a s'
  | (Raise e, s') => (Raise e, s')
  end.

Definition raise {A} (e : exn) : M A := fun s => (Raise e, s).

Definition lift {A} (r : result A) : M A := fun s => (r, s).

(** [try: body / except classes: handler]; [catches e] tells whether the
    [except] clause names the class of [e]. *)
Definition try_except {A} (body : M A) (catches : exn -> bool) (handler : exn -> M A) : M A :=
  fun s =>
    match body s with
    | (Ok a, s') => (Ok a, s')
    | (Raise e, s') => if catches e then handler e s' else (Raise e, s')
    end.

(** [path.exists()] *)
Definition path_exists (name : string) : M bool :=
  fun s => (Ok (bool_decide (is_Some (s !! name))), s).

(** [with open(path, 'r') as f: json.load(f)] *)
Definition json_load (name : string) : M value :=
  fun s =>
    match s !! name with
    | None => (Raise IOError, s)
    | Some Unreadable => (Raise IOError, s)
    | Some NotJson => (Raise JSONDecodeError, s)
    | Some (Undecodable message) => (Raise (UnicodeDecodeError message), s)
    | Some (Json d) => (Ok (PyDict d), s)
    | Some JsonNull => (Ok PyNone, s)
    | Some (JsonOther t) => (Ok (PyOther t), s)
    end.

(** [with open(path, 'w') as f: json.dump(d, f)], as the capture side runs
    it on the files it creates. *)
Definition json_dump (name : string) (d : Doc.t) : M unit :=
  fun s => (Ok tt, <[name := Json d]> s).

(** [path.unlink()]: an entry that is no file of the directory (a
    subdirectory) or that the server may not remove raises an [OSError]. *)
Definition unlink {P : Permissions} (name : string) : M unit :=
  fun s =>
    match s !! name with
    | Some _ => if removable name then (Ok tt, delete name s) else (Raise IOError, s)
    | None => (Raise IOError, s)
    end.

(** The first component of a relative path: the entry of the directory
    under which the file lies. *)
Fixpoint first_component (path : string) : string :=
  match path with
  | EmptyString => EmptyString
  | String c rest =>
      if Ascii.eqb c "/" then EmptyString else String c (first_component rest)
  end.

(** The names of the entries of the directory: its files and its
    subdirectories. *)
Definition entries (s : store) : list string :=
  remove_dups (map (fun kv => first_component kv.1) (map_to_list s)).

(** The entries of the directory that match [*.json]; the pattern does not
    descend into subdirectories. *)
Definition json_entries (s : store) : list string :=
  filter (fun n => Is_true (PyStr.endswith n ".json")) (entries s).

(** An entry of the directory that is no file: a subdirectory. *)
Definition is_directory (name : string) (s : store) : bool :=
  bool_decide (s !! name = None) && bool_decide (name ∈ entries s).

(** [with open(path, 'w') as f: json.dump(d, f)], as the server runs it:
    [open] raises an [OSError] when the server may not write the file or
    when the path is a directory. *)
Definition write_json {P : Permissions} (name : string) (d : Doc.t) : M unit :=
  fun s =>
    if writable name && negb (is_directory name s)
    then (Ok tt, <[name := Json d]> s)
    else (Raise IOError, s).

(** [TRAFFIC_DIR.glob("*.json")], as the list of the matching entries. *)
Definition glob_json : M (list string) :=
  fun s => (Ok (json_entries s), s).

(** [for x in l: body x] *)
Fixpoint for_each {A} (l : list A) (body : A -> M unit) : M unit :=
  match l with
  | [] => mret tt
  | x :: l' => body x ≫= fun _ => for_each l' body
  end.

(** ** mcp_proxy_server.py: the store *)

Definition INDEX_FILE : string := "index.json".

(** [except (json.JSONDecodeError, IOError)] *)
Definition is_load_error (e : exn) : bool :=
  match e with JSONDecodeError | IOError => true | _ => false end.

(** The body of the deletion loop of [clear_traffic]. *)
Definition delete_unless_index {P : Permissions} (name : string) : M unit :=
  if negb (String.eqb name "index.json") then unlink name else mret tt.

(** [clear_traffic]: the directory exists ([main] creates it before it
    serves); an exception of the deletion loop or of the index write ends
    in the [except Exception] branch, which only logs. *)
Definition clear_traffic {P : Permissions} : M unit :=
  try_except
    (names ← glob_json;
     for_each names delete_unless_index ≫= fun _ =>
     write_json INDEX_FILE (index_doc []))
    (fun _ => true)
    (fun _ => mret tt).

(** [read_index]: the parsed index file, or [{"requests": []}]. *)
Definition read_index : M value :=
  present ← path_exists INDEX_FILE;
  if negb present then mret (PyDict (index_doc []))
  else try_except (json_load INDEX_FILE) is_load_error (fun _ => mret (PyDict (index_doc []))).

(** [read_request]: the parsed record file of an id, or [None]. *)
Definition read_request (request_id : string) : M value :=
  let request_file := request_id +:+ ".json" in
  present ← path_exists request_file;
  if negb present then mret PyNone
  else try_except (json_load request_file) is_load_error (fun _ => mret PyNone).

(** [str(e)] of the [AttributeError] of [v.get] on a value without it. *)
Definition no_attribute (type_name attribute : string) : string :=
  "'" +:+ type_name +:+ "' object has no attribute '" +:+ attribute +:+ "'".

(** [str(e)] of the [TypeError] of [v["key"]] on a value that is neither an
    object nor [None] (the wording of CPython 3.11 and later). *)
Definition not_subscriptable (t : pytype) : string :=
  match t with
  | TList => "list indices must be integers or slices, not str"
  | TStr => "string indices must be integers, not 'str'"
  | _ => "'" +:+ type_name t +:+ "' object is not subscriptable"
  end.

(** [index.get("requests", [])] on what [read_index] returned. *)
Definition get_requests (index : value) : result (list Entry.t) :=
  match index with
  | PyDict d => Ok (default [] (Doc.requests d))
  | PyNone => Raise (AttributeError (no_attribute "NoneType" "get"))
  | PyOther t => Raise (AttributeError (no_attribute (type_name t) "get"))
  end.

(** ** mcp_proxy_server.py: the tools *)

Import PyStr.

(** Truth value of an optional integer argument: [None] and [0] are false. *)
Definition truthy_int (n : option Z) : bool :=
  match n with Some z => negb (z =? 0) | None => false end.

(** [for x in l: acc = body acc x] with a body that may raise. *)
Fixpoint foldM {A B} (body : B -> A -> M B) (acc : B) (l : list A) : M B :=
  match l with
  | [] => mret acc
  | x :: l' => acc' ← body acc x; foldM body acc' l'
  end.

(** [l[-n:]], by Python's slice rule: a negative start counts from the end
    and is clamped at the front of the list. *)
Definition slice_from (start : Z) {A} (l : list A) : list A :=
  let len := Z.of_nat (length l) in
  let start := if start <? 0 then start + len else start in
  let start := if start <? 0 then 0 else start in
  drop (Z.to_nat start) l.

(** One turn of the filtering loop of [tool_list_requests]; each [continue]
    leaves [filtered] as it is. *)
Definition list_loop_body (host_filter : string) (method_filter : list N)
    (status_filter : option Z)
    (url_filter : string) (filtered : list Entry.t) (req : Entry.t) : list Entry.t :=
  if truthy host_filter && negb (str_in host_filter (lower (default "" (Entry.host req))))
  then filtered
  else if nonempty method_filter &&
          negb (bool_decide (upper (default "" (Entry.method req)) = method_filter))
  then filtered
  else if truthy_int status_filter && negb (bool_decide (Entry.status_code req = status_filter))
  then filtered
  else if truthy url_filter && negb (str_in url_filter (lower (default "" (Entry.url req))))
  then filtered
  else filtered ++ [req].

(** Lines 203-222: the entries [tool_list_requests] goes on to print. *)
Definition list_filtered (params : Params.t) (requests : list Entry.t) : list Entry.t :=
  let host_filter := lower (default "" (Params.host_filter params)) in
  let method_filter := upper (default "" (Params.method_filter params)) in
  let status_filter := Params.status_filter params in
  let url_filter := lower (default "" (Params.url_filter params)) in
  let limit := default 100 (Params.limit params) in
  let filtered :=
    foldl (list_loop_body host_filter method_filter status_filter url_filter) [] requests in
  if 0 <? limit then slice_from (- limit) filtered else filtered.

(** The entries the filtering loop appends: none of the four [continue]
    tests fires. *)
Definition list_keeps (params : Params.t) (req : Entry.t) : bool :=
  let host_filter := lower (default "" (Params.host_filter params)) in
  let method_filter := upper (default "" (Params.method_filter params)) in
  let status_filter := Params.status_filter params in
  let url_filter := lower (default "" (Params.url_filter params)) in
  negb (truthy host_filter && negb (str_in host_filter (lower (default "" (Entry.host req))))) &&
  negb (nonempty method_filter &&
        negb (bool_decide (upper (default "" (Entry.method req)) = method_filter))) &&
  negb (truthy_int status_filter &&
        negb (bool_decide (Entry.status_code req = status_filter))) &&
  negb (truthy url_filter && negb (str_in url_filter (lower (default "" (Entry.url req))))).

Definition list_line (req : Entry.t) : result string :=
  id ← getitem "id" (Entry.id req);
  timestamp ← getitem "timestamp" (Entry.timestamp req);
  method ← getitem "method" (Entry.method req);
  url ← getitem "url" (Entry.url req);
  status_code ← getitem "status_code" (Entry.status_code req);
  mret ("[" +:+ id +:+ "] " +:+ timestamp +:+ nl +:+
        "  " +:+ method +:+ " " +:+ url +:+ nl +:+
        "  Status: " +:+ str_int status_code +:+ " | " +:+
        "Request: " +:+ str_int (default 0 (Entry.request_size req)) +:+ " bytes | " +:+
        "Response: " +:+ str_int (default 0 (Entry.response_size req)) +:+ " bytes" +:+ nl).

Definition NO_REQUESTS : string :=
  "No requests captured yet. Configure your browser to use the proxy at localhost:8888.".

(** Lines 224-237: the text printed for the selected entries. *)
Definition list_render (filtered : list Entry.t) : result string :=
  match filtered with
  | [] => Ok NO_REQUESTS
  | _ =>
      lines ← mapR list_line filtered;
      mret (join nl (("Found " +:+ str_int (Z.of_nat (length filtered)) +:+
                      " captured requests:" +:+ nl) :: lines))
  end.

Definition tool_list_requests (params : Params.t) : M string :=
  index ← read_index;
  requests ← lift (get_requests index);
  lift (list_render (list_filtered params requests)).

(** [for key, value in d.items(): output.append(f"  {key}: {value}")] *)
Definition header_lines (h : headers) : list string :=
  map (fun kv => "  " +:+ kv.1 +:+ ": " +:+ kv.2) h.

Definition TRUNCATE_AT : Z := 50000.

(** [s[:n]] *)
Fixpoint str_take (n : nat) (s : string) : string :=
  match n, s with
  | S n', String c s' => String c (str_take n' s')
  | _, _ => EmptyString
  end.

Definition str_len (s : string) : Z := Z.of_nat (String.length s).

(** The request-body block of the formatted record. *)
Definition request_body_lines (req : Request.t) : result (list string) :=
  content ← getitem "content" (Request.content req);
  if truthy content then
    content_length ← getitem "content_length" (Request.content_length req);
    mret ["Request Body (" +:+ str_int content_length +:+ " bytes):"; content]
  else mret ["Request Body: (empty)"].

(** The response-body block: a body of more than [TRUNCATE_AT] characters is
    cut and followed by the marker. *)
Definition response_body_lines (resp : Response.t) : result (list string) :=
  content0 ← getitem "content" (Response.content resp);
  if truthy content0 then
    content_length ← getitem "content_length" (Response.content_length resp);
    let content :=
      if str_len content0 >? TRUNCATE_AT
      then str_take (Z.to_nat TRUNCATE_AT) content0 +:+ nl +:+ "... [truncated, " +:+
           str_int (str_len content0) +:+ " total bytes]"
      else content0 in
    mret ["Response Body (" +:+ str_int content_length +:+ " bytes):"; content]
  else mret ["Response Body: (empty)"].

(** Lines 250-289 of [tool_read_request]: the formatted record. *)
Definition format_record (data : Doc.t) : result string :=
  req ← getitem "request" (Doc.request data);
  resp ← getitem "response" (Doc.response data);
  id ← getitem "id" (Doc.id data);
  timestamp ← getitem "timestamp" (Doc.timestamp data);
  method ← getitem "method" (Request.method req);
  url ← getitem "url" (Request.url req);
  host ← getitem "host" (Request.host req);
  port ← getitem "port" (Request.port req);
  scheme ← getitem "scheme" (Request.scheme req);
  req_headers ← getitem "headers" (Request.headers req);
  req_body ← request_body_lines req;
  status_code ← getitem "status_code" (Response.status_code resp);
  reason ← getitem "reason" (Response.reason resp);
  resp_headers ← getitem "headers" (Response.headers resp);
  resp_body ← response_body_lines resp;
  mret (join nl (
    ["=== REQUEST " +:+ id +:+ " ===";
     "Timestamp: " +:+ timestamp;
     "";
     "--- REQUEST ---";
     method +:+ " " +:+ url;
     "Host: " +:+ host +:+ ":" +:+ str_int port;
     "Scheme: " +:+ scheme;
     "";
     "Request Headers:"] ++
    header_lines req_headers ++
    [""] ++
    req_body ++
    [""; "--- RESPONSE ---";
     "Status: " +:+ str_int status_code +:+ " " +:+ reason;
     "";
     "Response Headers:"] ++
    header_lines resp_headers ++
    [""] ++
    resp_body)).

Definition not_found_text (request_id : string) : string :=
  "Error: Request with ID '" +:+ request_id +:+ "' not found".

Definition tool_read_request (params : Params.t) : M string :=
  match Params.request_id params with
  | None => mret "Error: request_id is required"
  | Some request_id =>
      if negb (truthy request_id) then mret "Error: request_id is required"
      else
        data ← read_request request_id;
        match data with
        | PyNone => mret (not_found_text request_id)
        | PyDict data => lift (format_record data)
        | PyOther t => raise (TypeError (not_subscriptable t))
        end
  end.

(** [for key, value in h.items(): if query in key.lower() or query in
    str(value).lower(): found_in.append(..); break]: whether the loop appends. *)
Fixpoint headers_hit (query : string) (h : headers) : bool :=
  match h with
  | [] => false
  | (key, value) :: h' =>
      if str_in query (lower key) || str_in query (lower value) then true
      else headers_hit query h'
  end.

(** One match of [tool_search_requests]. *)
Module Match.
Record t : Type := mk {
  id : string;
  method : string;
  url : string;
  found_in : list string
}.
End Match.

(** Lines 308-327: the categories in which [query] occurs in one record. *)
Definition search_found_in (query : string) (search_headers : bool) (data : Doc.t)
    : result (list string) :=
  let found_in : list string := [] in
  request ← getitem "request" (Doc.request data);
  let found_in :=
    if str_in query (lower (default "" (Request.content request)))
    then found_in ++ ["request body"] else found_in in
  response ← getitem "response" (Doc.response data);
  let found_in :=
    if str_in query (lower (default "" (Response.content response)))
    then found_in ++ ["response body"] else found_in in
  let found_in :=
    if str_in query (lower (default "" (Request.url request)))
    then found_in ++ ["URL"] else found_in in
  if search_headers then
    let found_in :=
      if headers_hit query (default [] (Request.headers request))
      then found_in ++ ["request headers"] else found_in in
    let found_in :=
      if headers_hit query (default [] (Response.headers response))
      then found_in ++ ["response headers"] else found_in in
    mret found_in
  else mret found_in.

(** One turn of the scan of [tool_search_requests]. *)
Definition search_loop_body (query : string) (search_headers : bool)
    (matches : list Match.t) (req_summary : Entry.t) : M (list Match.t) :=
  id ← lift (getitem "id" (Entry.id req_summary));
  data ← read_request id;
  match data with
  | PyNone => mret matches
  | PyOther t => raise (TypeError (not_subscriptable t))
  | PyDict data =>
      found_in ← lift (search_found_in query search_headers data);
      match found_in with
      | [] => mret matches
      | _ =>
          id ← lift (getitem "id" (Entry.id req_summary));
          method ← lift (getitem "method" (Entry.method req_summary));
          url ← lift (getitem "url" (Entry.url req_summary));
          mret (matches ++ [Match.mk id method url found_in])
      end
  end.

Definition search_line (m : Match.t) : string :=
  "[" +:+ Match.id m +:+ "] " +:+ Match.method m +:+ " " +:+ Match.url m +:+ nl +:+
  "  Found in: " +:+ join ", " (Match.found_in m) +:+ nl.

Definition search_render (query : string) (matches : list Match.t) : string :=
  match matches with
  | [] => "No requests found matching '" +:+ query +:+ "'"
  | _ =>
      join nl (("Found " +:+ str_int (Z.of_nat (length matches)) +:+
                " requests matching '" +:+ query +:+ "':" +:+ nl) :: map search_line matches)
  end.

Definition tool_search_requests (params : Params.t) : M string :=
  let query := lower (default "" (Params.query params)) in
  let search_headers := default false (Params.search_headers params) in
  if negb (truthy query) then mret "Error: query is required"
  else
    index ← read_index;
    requests ← lift (get_requests index);
    matches ← foldM (search_loop_body query search_headers) [] requests;
    mret (search_render query matches).

Definition tool_clear_requests {P : Permissions} (params : Params.t) : M string :=
  clear_traffic ≫= fun _ => mret "All captured requests have been cleared.".

(** [sorted(l, key=..)] for an order given by [le]: a stable insertion sort. *)
Fixpoint sorted_insert {A} (le : A -> A -> bool) (x : A) (l : list A) : list A :=
  match l with
  | [] => [x]
  | y :: l' => if le x y then x :: y :: l' else y :: sorted_insert le x l'
  end.

Definition sorted {A} (le : A -> A -> bool) (l : list A) : list A :=
  foldr (sorted_insert le) [] l.

(** [key=lambda x: -x[1]] *)
Definition by_count_desc (x y : string * Z) : bool := (- x.2 <=? - y.2).

(** Order of the tuples [(label, count)]. *)
Definition by_item (x y : string * Z) : bool :=
  String.ltb x.1 y.1 || (String.eqb x.1 y.1 && (x.2 <=? y.2)).

(** The counters of [tool_get_request_stats]. *)
Module Stats.
Record t : Type := mk {
  by_host : list (string * Z);
  by_method : list (string * Z);
  by_status : list (string * Z);
  total_request_size : Z;
  total_response_size : Z
}.
Definition init : t := mk [] [] [] 0 0.
End Stats.

(** One turn of the aggregation loop. *)
Definition stats_loop_body (acc : Stats.t) (req : Entry.t) : Stats.t :=
  let host := default "unknown" (Entry.host req) in
  let by_host := dict_set host (dict_get host (Stats.by_host acc) 0 + 1) (Stats.by_host acc) in
  let method := default "unknown" (Entry.method req) in
  let by_method :=
    dict_set method (dict_get method (Stats.by_method acc) 0 + 1) (Stats.by_method acc) in
  let status := default 0 (Entry.status_code req) in
  let status_group := str_int (status / 100) +:+ "xx" in
  let by_status :=
    dict_set status_group (dict_get status_group (Stats.by_status acc) 0 + 1)
             (Stats.by_status acc) in
  Stats.mk by_host by_method by_status
    (Stats.total_request_size acc + default 0 (Entry.request_size req))
    (Stats.total_response_size acc + default 0 (Entry.response_size req)).

Definition count_lines (items : list (string * Z)) : list string :=
  map (fun kv => "  " +:+ kv.1 +:+ ": " +:+ str_int kv.2) items.

(** Lines 361-407: the statistics text for the index entries. *)
Definition stats_render (requests : list Entry.t) : string :=
  match requests with
  | [] => "No requests captured yet."
  | _ =>
      let total := Z.of_nat (length requests) in
      let acc := foldl stats_loop_body Stats.init requests in
      join nl (
        ["=== Traffic Statistics ===";
         "Total Requests: " +:+ str_int total;
         "Total Request Data: " +:+ str_int_commas (Stats.total_request_size acc) +:+ " bytes";
         "Total Response Data: " +:+ str_int_commas (Stats.total_response_size acc) +:+ " bytes";
         "";
         "By Host (top 10):"] ++
        count_lines (take 10 (sorted by_count_desc (Stats.by_host acc))) ++
        [""; "By Method:"] ++
        count_lines (sorted by_count_desc (Stats.by_method acc)) ++
        [""; "By Status Code:"] ++
        count_lines (sorted by_item (Stats.by_status acc)))
  end.

Definition tool_get_request_stats (params : Params.t) : M string :=
  index ← read_index;
  requests ← lift (get_requests index);
  mret (stats_render requests).

(** The HAR document [tool_export_har] builds. *)
Module Har.
Record post_data : Type := mk_post_data {
  pd_mimeType : string;
  pd_text : string
}.
Record request : Type := mk_request {
  rq_method : string;
  rq_url : string;
  rq_httpVersion : string;
  rq_headers : list (string * string);
  rq_queryString : list (string * string);
  rq_bodySize : Z;
  rq_postData : option post_data
}.
Record content : Type := mk_content {
  ct_size : Z;
  ct_mimeType : string;
  ct_text : string
}.
Record response : Type := mk_response {
  rs_status : Z;
  rs_statusText : string;
  rs_httpVersion : string;
  rs_headers : list (string * string);
  rs_content : content;
  rs_bodySize : Z
}.
Record entry : Type := mk_entry {
  startedDateTime : string;
  en_request : request;
  en_response : response;
  timings_wait : Z;
  timings_receive : Z
}.
Record log : Type := mk_log {
  version : string;
  creator_name : string;
  creator_version : string;
  entries : list entry
}.
End Har.

(** Lines 427-458: the HAR entry of one record. *)
Definition har_entry (data : Doc.t) : result Har.entry :=
  req ← getitem "request" (Doc.request data);
  resp ← getitem "response" (Doc.response data);
  timestamp ← getitem "timestamp" (Doc.timestamp data);
  method ← getitem "method" (Request.method req);
  url ← getitem "url" (Request.url req);
  req_headers ← getitem "headers" (Request.headers req);
  req_length ← getitem "content_length" (Request.content_length req);
  req_content ← getitem "content" (Request.content req);
  let postData :=
    if truthy req_content
    then Some (Har.mk_post_data (dict_get "content-type" req_headers "") req_content)
    else None in
  status_code ← getitem "status_code" (Response.status_code resp);
  reason ← getitem "reason" (Response.reason resp);
  resp_headers ← getitem "headers" (Response.headers resp);
  resp_length ← getitem "content_length" (Response.content_length resp);
  resp_content ← getitem "content" (Response.content resp);
  mret (Har.mk_entry timestamp
          (Har.mk_request method url "HTTP/1.1" req_headers [] req_length postData)
          (Har.mk_response status_code reason "HTTP/1.1" resp_headers
             (Har.mk_content resp_length (dict_get "content-type" resp_headers "") resp_content)
             resp_length)
          0 0).

(** One turn of the export loop: an id without a readable record is skipped. *)
Definition export_loop_body (entries : list Har.entry) (req_id : string) : M (list Har.entry) :=
  data ← read_request req_id;
  match data with
  | PyNone => mret entries
  | PyOther t => raise (TypeError (not_subscriptable t))
  | PyDict data => entry ← lift (har_entry data); mret (entries ++ [entry])
  end.

(** The text a tool returns: a plain string, or [json.dumps(har, indent=2)]. *)
Inductive text : Type :=
| Plain (s : string)
| JsonDumps (har : Har.log).

Definition tool_export_har (params : Params.t) : M text :=
  let request_ids := default [] (Params.request_ids params) in
  index ← read_index;
  request_ids ←
    match request_ids with
    | [] =>
        requests ← lift (get_requests index);
        lift (mapR (fun req => getitem "id" (Entry.id req)) requests)
    | _ => mret request_ids
    end;
  match request_ids with
  | [] => mret (Plain "No requests to export.")
  | _ =>
      entries ← foldM export_loop_body [] request_ids;
      mret (JsonDumps (Har.mk_log "1.2" "mitmproxy-mcp" "1.0.0" entries))
  end.

(** ** mcp_proxy_server.py: the dispatcher *)

(** The body of a JSON-RPC reply: [{"error": {"code", "message"}}] or
    [{"result": {"content": [{"type": "text", "text": ..}]}}]. *)
Inductive payload : Type :=
| Error (code : Z) (message : string)
| Result (t : text).

Definition plain (tool : Params.t -> M string) (params : Params.t) : M text :=
  s ← tool params; mret (Plain s).

(** [handlers.get(tool_name)] *)
Definition handlers {P : Permissions} (tool_name : option string)
    : option (Params.t -> M text) :=
  match tool_name with
  | None => None
  | Some name =>
      if String.eqb name "list_requests" then Some (plain tool_list_requests)
      else if String.eqb name "read_request" then Some (plain tool_read_request)
      else if String.eqb name "search_requests" then Some (plain tool_search_requests)
      else if String.eqb name "clear_requests" then Some (plain tool_clear_requests)
      else if String.eqb name "get_request_stats" then Some (plain tool_get_request_stats)
      else if String.eqb name "export_har" then Some tool_export_har
      else None
  end.

(** [handle_tool_call(request_id, {"name": name, "arguments": arguments})];
    the reply carries [request_id] and the payload. *)
Definition handle_tool_call {P : Permissions} {I : Type} (request_id : I)
    (name : option string)
    (arguments : option Params.t) : store -> (I * payload) * store :=
  fun s =>
    let tool_name := name in
    let tool_params := default Params.empty arguments in
    match handlers tool_name with
    | None => ((request_id, Error (-32601) ("Unknown tool: " +:+ default "None" tool_name)), s)
    | Some handler =>
        match handler tool_params s with
        | (Ok result, s') => ((request_id, Result result), s')
        | (Raise e, s') => ((request_id, Error (-32603) (str_exn e)), s')
        end
    end.

(** The keys of the [handlers] table. *)
Definition tool_names : list string :=
  ["list_requests"; "read_request"; "search_requests"; "clear_requests";
   "get_request_stats"; "export_har"].

(** ** mitmproxy_addon.py: the capture side *)

Definition bytes : Type := list Byte.byte.

Definition binary_types : list string :=
  ["image/"; "audio/"; "video/"; "application/octet-stream";
   "application/pdf"; "application/zip"; "application/gzip"].

(** The loop over [binary_types]: whether one of them occurs in the
    lower-cased content type. *)
Fixpoint is_binary_type (types : list string) (content_type : string) : bool :=
  match types with
  | [] => false
  | bt :: types' =>
      if str_in bt (lower content_type) then true else is_binary_type types' content_type
  end.

(** [content.decode('latin-1')]: one character per byte, never fails. *)
Definition decode_latin1 (content : bytes) : string :=
  string_of_list_ascii (map (fun b => ascii_of_N (Byte.to_N b)) content).

(** The captured exchange handed over by the proxy.  [request_headers] is
    [dict(flow.request.headers)] and [request_content_type] is
    [flow.request.headers.get("content-type", "")], both computed by the
    proxy's header class; likewise for the response. *)
Module Flow.
Record t : Type := mk {
  method : string;
  pretty_url : string;
  host : string;
  port : Z;
  path : string;
  scheme : string;
  request_headers : headers;
  request_content_type : string;
  request_content : option bytes;
  status_code : Z;
  reason : string;
  response_headers : headers;
  response_content_type : string;
  response_content : option bytes
}.
End Flow.

(** [len(content) if content else 0] *)
Definition content_length (content : option bytes) : Z :=
  match content with
  | Some ((_ :: _) as c) => Z.of_nat (length c)
  | _ => 0
  end.

(** The text stored in place of a body of a binary media type. *)
Definition binary_placeholder (size : nat) (content_type : string) : string :=
  "[Binary content: " +:+ str_int (Z.of_nat size) +:+ " bytes, type: " +:+ content_type +:+ "]".

Section Capture.

(** [content.decode('utf-8')]: the text, or [None] for [UnicodeDecodeError]. *)
Variable decode_utf8 : bytes -> option string.

(** [_safe_decode]: the Latin-1 decoding cannot fail, so the innermost
    [except] of the source is never entered. *)
Definition _safe_decode (content : option bytes) (content_type : string) : string :=
  match content with
  | None => ""
  | Some content =>
      if is_binary_type binary_types content_type
      then binary_placeholder (length content) content_type
      else
        match decode_utf8 content with
        | Some s => s
        | None => decode_latin1 content
        end
  end.

(** The record [response] writes for a flow, with the id and the timestamp
    it has drawn from the hash and the clock. *)
Definition request_data (request_id timestamp : string) (flow : Flow.t) : Doc.t :=
  let req_content_type := Flow.request_content_type flow in
  let resp_content_type := Flow.response_content_type flow in
  Doc.mk None (Some request_id) (Some timestamp)
    (Some (Request.mk (Some (Flow.method flow)) (Some (Flow.pretty_url flow))
             (Some (Flow.host flow)) (Some (Flow.port flow)) (Some (Flow.path flow))
             (Some (Flow.scheme flow)) (Some (Flow.request_headers flow))
             (Some (_safe_decode (Flow.request_content flow) req_content_type))
             (Some (content_length (Flow.request_content flow)))))
    (Some (Response.mk (Some (Flow.status_code flow)) (Some (Flow.reason flow))
             (Some (Flow.response_headers flow))
             (Some (_safe_decode (Flow.response_content flow) resp_content_type))
             (Some (content_length (Flow.response_content flow))))).

Definition index_entry (request_id timestamp : string) (flow : Flow.t) : Entry.t :=
  Entry.mk (Some request_id) (Some timestamp) (Some (Flow.method flow))
    (Some (Flow.pretty_url flow)) (Some (Flow.host flow)) (Some (Flow.status_code flow))
    (Some (Flow.response_content_type flow))
    (Some (content_length (Flow.request_content flow)))
    (Some (content_length (Flow.response_content flow))).

(** [TrafficCapture.response] for a flow that has a response: [self_index]
    is the addon's in-memory list [self.index["requests"]]; the result is
    its new value and the directory after the record file and the index
    have been written. *)
Definition response (request_id timestamp : string) (flow : Flow.t)
    (self_index : list Entry.t) (s : store) : list Entry.t * store :=
  let s := <[request_id +:+ ".json" := Json (request_data request_id timestamp flow)]> s in
  let self_index := self_index ++ [index_entry request_id timestamp flow] in
  (self_index, <["index.json" := Json (index_doc self_index)]> s).

End Capture.

(** ** The design document's vocabulary

    These definitions follow the wording of the design document, not the
    code; the theorems below compare the two. *)

Module Spec.

(** An upper-case letter and its lower-case form, 32 code points higher. *)
Definition letter_pair (u l : ascii) : Prop :=
  is_upper_letter (N_of_ascii u) = true /\ N_of_ascii l = (N_of_ascii u + 32)%N.

(** Two characters that differ at most in letter case. *)
Definition ci_char (c d : ascii) : Prop :=
  c = d \/ letter_pair c d \/ letter_pair d c.

(** Case-insensitive exact match. *)
Fixpoint ci_eq (a b : string) : Prop :=
  match a, b with
  | EmptyString, EmptyString => True
  | String c a', String d b' => ci_char c d /\ ci_eq a' b'
  | _, _ => False
  end.

(** Case-insensitive substring: [f] occurs in [s] up to letter case. *)
Definition ci_substring (f s : string) : Prop :=
  exists pre mid suf, s = pre +:+ mid +:+ suf /\ ci_eq mid f.

(** The sharp s written as "ss": its upper-case form is "SS". *)
Fixpoint unsharp (s : string) : string :=
  match s with
  | EmptyString => EmptyString
  | String c s' =>
      if (N_of_ascii c =? 223)%N then String "s" (String "s" (unsharp s'))
      else String c (unsharp s')
  end.

(** Case-insensitive exact match of whole strings. *)
Definition ci_match (a b : string) : Prop := ci_eq (unsharp a) (unsharp b).



(** The marker that follows a truncated body and states its full size. *)
Definition truncation_marker (size : Z) : string :=
  nl +:+ "... [truncated, " +:+ str_int size +:+ " total bytes]".

(** *** list(filters, limit) *)

(** A text filter that is absent or empty. *)
Definition no_text_filter (f : option string) : Prop := f = None \/ f = Some "".

Definition host_ok (p : Params.t) (e : Entry.t) : Prop :=
  no_text_filter (Params.host_filter p) \/
  ci_substring (default "" (Params.host_filter p)) (default "" (Entry.host e)).

Definition method_ok (p : Params.t) (e : Entry.t) : Prop :=
  no_text_filter (Params.method_filter p) \/
  ci_match (default "" (Entry.method e)) (default "" (Params.method_filter p)).

Definition url_ok (p : Params.t) (e : Entry.t) : Prop :=
  no_text_filter (Params.url_filter p) \/
  ci_substring (default "" (Params.url_filter p)) (default "" (Entry.url e)).


(** The status filter with a zero filter counted as absent. *)
Definition status_ok (p : Params.t) (e : Entry.t) : Prop :=
  Params.status_filter p = None \/ Params.status_filter p = Some 0 \/
  Entry.status_code e = Params.status_filter p.


Definition matches (p : Params.t) (e : Entry.t) : Prop :=
  host_ok p e /\ method_ok p e /\ status_ok p e /\ url_ok p e.


(** *** search(query, search_headers) *)

Inductive category : Type :=
| RequestBody | ResponseBody | Url | RequestHeaders | ResponseHeaders.

Definition all_categories : list category :=
  [RequestBody; ResponseBody; Url; RequestHeaders; ResponseHeaders].

Definition category_name (c : category) : string :=
  match c with
  | RequestBody => "request body"
  | ResponseBody => "response body"
  | Url => "URL"
  | RequestHeaders => "request headers"
  | ResponseHeaders => "response headers"
  end.




End Spec.

(** The record file of an id, when it is there and parses. *)
Definition record_of (s : store) (request_id : string) : option Doc.t :=
  match s !! (request_id +:+ ".json") with
  | Some (Json d) => Some d
  | _ => None
  end.

(** What [index.json] lists, empty when the file is missing or does not load. *)
Definition index_of (s : store) : list Entry.t :=
  match s !! "index.json" with
  | Some (Json d) => default [] (Doc.requests d)
  | _ => []
  end.


(** The file [name] is missing or does not load. *)
Definition unavailable (s : store) (name : string) : Prop :=
  s !! name = None \/ s !! name = Some NotJson \/ s !! name = Some Unreadable.

(** The directory after the deletion loop of [clear_traffic] over [names],
    when every deletion succeeds. *)
Definition unlink_all (names : list string) (s : store) : store :=
  foldl (fun s name => if negb (String.eqb name "index.json") then delete name s else s)
        s names.

(** A name without a path separator: an entry of the directory itself. *)
Fixpoint no_slash (name : string) : bool :=
  match name with
  | EmptyString => true
  | String c rest => negb (Ascii.eqb c "/") && no_slash rest
  end.

(** Every entry the deletion loop of [clear_traffic] comes to is a file
    that the server may remove, and the server may write the index file,
    which is no directory. *)
Definition clearable {P : Permissions} (s : store) : bool :=
  forallb (fun name =>
             String.eqb name "index.json" ||
             (bool_decide (is_Some (s !! name)) && removable name))
          (json_entries s) &&
  writable "index.json" && negb (is_directory "index.json" s).

(** ** Complete documents

    The keys the tools read with [d[k]]; the capture side writes them all. *)

Definition is_some {A} (o : option A) : bool :=
  match o with Some _ => true | None => false end.

Definition entry_complete (e : Entry.t) : bool :=
  is_some (Entry.id e) && is_some (Entry.timestamp e) && is_some (Entry.method e) &&
  is_some (Entry.url e) && is_some (Entry.status_code e).

Definition request_complete (r : Request.t) : bool :=
  is_some (Request.method r) && is_some (Request.url r) && is_some (Request.host r) &&
  is_some (Request.port r) && is_some (Request.scheme r) && is_some (Request.headers r) &&
  is_some (Request.content r) && is_some (Request.content_length r).

Definition response_complete (r : Response.t) : bool :=
  is_some (Response.status_code r) && is_some (Response.reason r) &&
  is_some (Response.headers r) && is_some (Response.content r) &&
  is_some (Response.content_length r).

Definition record_complete (d : Doc.t) : bool :=
  is_some (Doc.id d) && is_some (Doc.timestamp d) &&
  match Doc.request d with Some r => request_complete r | None => false end &&
  match Doc.response d with Some r => response_complete r | None => false end.

(** The record file of [request_id], if it loads, holds a complete record
    or [null]. *)
Definition record_ok (s : store) (request_id : string) : bool :=
  match s !! (request_id +:+ ".json") with
  | Some (Json d) => record_complete d
  | Some (Undecodable _) | Some (JsonOther _) => false
  | _ => true
  end.

(** The index file, if it loads, holds an object. *)
Definition index_ok (s : store) : bool :=
  match s !! "index.json" with
  | Some (Undecodable _) | Some JsonNull | Some (JsonOther _) => false
  | _ => true
  end.

(** The index file, if it loads, holds an object; every index entry is
    complete, and so is every record file an index entry points to. *)
Definition store_complete (s : store) : bool :=
  index_ok s &&
  forallb (fun e => entry_complete e &&
                    match Entry.id e with Some id => record_ok s id | None => false end)
          (index_of s).

(** The test the search loop makes for one category, on the lower-cased
    query. *)
Definition category_hit (query : string) (search_headers : bool)
    (req : Request.t) (resp : Response.t) (c : Spec.category) : bool :=
  match c with
  | Spec.RequestBody => str_in query (lower (default "" (Request.content req)))
  | Spec.ResponseBody => str_in query (lower (default "" (Response.content resp)))
  | Spec.Url => str_in query (lower (default "" (Request.url req)))
  | Spec.RequestHeaders =>
      search_headers && headers_hit query (default [] (Request.headers req))
  | Spec.ResponseHeaders =>
      search_headers && headers_hit query (default [] (Response.headers resp))
  end.

(** ** The scans as functions of the records *)

(** What a reader gets from a file, [fallback] being the value of its
    [except] branch. *)
Definition loaded (fallback : value) (f : option file) : result value :=
  match f with
  | None | Some NotJson | Some Unreadable => Ok fallback
  | Some (Json d) => Ok (PyDict d)
  | Some JsonNull => Ok PyNone
  | Some (JsonOther t) => Ok (PyOther t)
  | Some (Undecodable message) => Raise (UnicodeDecodeError message)
  end.

(** The entries a tool gets from [read_index] and [index.get("requests", [])]. *)
Definition index_view (s : store) : result (list Entry.t) :=
  index ← loaded (PyDict (index_doc [])) (s !! "index.json");
  get_requests index.

(** The record a tool gets from [read_request] for an id, [None] when it
    takes the id as not found. *)
Definition record_view (s : store) (request_id : string) : result (option Doc.t) :=
  data ← loaded PyNone (s !! (request_id +:+ ".json"));
  match data with
  | PyNone => Ok None
  | PyDict d => Ok (Some d)
  | PyOther t => Raise (TypeError (not_subscriptable t))
  end.

(** [records] stands for what the scan gets from [read_request] for each id. *)
Definition search_step (records : string -> result (option Doc.t)) (query : string)
    (search_headers : bool) (matches : list Match.t) (req_summary : Entry.t)
    : result (list Match.t) :=
  id ← getitem "id" (Entry.id req_summary);
  data ← records id;
  match data with
  | None => Ok matches
  | Some data =>
      found_in ← search_found_in query search_headers data;
      match found_in with
      | [] => Ok matches
      | _ =>
          method ← getitem "method" (Entry.method req_summary);
          url ← getitem "url" (Entry.url req_summary);
          Ok (matches ++ [Match.mk id method url found_in])
      end
  end.

Fixpoint search_scan (records : string -> result (option Doc.t)) (query : string)
    (search_headers : bool) (matches : list Match.t) (es : list Entry.t)
    : result (list Match.t) :=
  match es with
  | [] => Ok matches
  | e :: es' =>
      matches' ← search_step records query search_headers matches e;
      search_scan records query search_headers matches' es'
  end.

Fixpoint export_scan (records : string -> result (option Doc.t)) (entries : list Har.entry)
    (ids : list string) : result (list Har.entry) :=
  match ids with
  | [] => Ok entries
  | req_id :: ids' =>
      data ← records req_id;
      match data with
      | None => export_scan records entries ids'
      | Some data => entry ← har_entry data; export_scan records (entries ++ [entry]) ids'
      end
  end.

(** The values [f] finds along a list, in the order of the list. *)
Fixpoint pick {A B} (f : A -> option B) (l : list A) : list B :=
  match l with
  | [] => []
  | x :: l' => match f x with Some y => y :: pick f l' | None => pick f l' end
  end.


(** The records that load for a list of ids, in the order of the ids. *)
Definition resolved (s : store) (ids : list string) : list Doc.t :=
  pick (record_of s) ids.

(** Two directories with the same index file and the same record files:
    they agree on every [*.json] name. *)
Definition same_json_files (s1 s2 : store) : Prop :=
  forall name, endswith name ".json" = true -> s1 !! name = s2 !! name.

(** ** Characters *)

(** The 256 characters. *)
Definition all_chars : list ascii := map ascii_of_nat (seq 0 256).

(** The decisions of [Spec.letter_pair] and [Spec.ci_char]. *)
Definition letter_pair_b (u l : ascii) : bool :=
  is_upper_letter (N_of_ascii u) && (N_of_ascii l =? N_of_ascii u + 32)%N.

Definition ci_char_b (c d : ascii) : bool :=
  Ascii.eqb c d || letter_pair_b c d || letter_pair_b d c.


(** ** Sample data *)

(** [params] with its [status_filter] key set to [f] ([None]: removed). *)
Definition with_status_filter (f : option Z) (p : Params.t) : Params.t :=
  Params.mk (Params.limit p) (Params.host_filter p) (Params.method_filter p) f
    (Params.url_filter p) (Params.request_id p) (Params.query p)
    (Params.search_headers p) (Params.request_ids p).

Module Sample.

Definition entry (id method url host : string) (status : Z) : Entry.t :=
  Entry.mk (Some id) (Some "2024-05-01T10:00:00") (Some method) (Some url) (Some host)
    (Some status) (Some "text/plain") (Some 0) (Some 5).

Definition e1 : Entry.t := entry "a1" "GET" "http://example.com/" "example.com" 200.

(** An index with the single entry [e1]. *)
Definition one_entry : store := {["index.json" := Json (index_doc [e1])]}.


Definition e2 : Entry.t := entry "a2" "POST" "http://example.org/login" "example.org" 404.

Definition record (id method url host body : string) (status : Z) (answer : string) : Doc.t :=
  Doc.mk None (Some id) (Some "2024-05-01T10:00:00")
    (Some (Request.mk (Some method) (Some url) (Some host) (Some 80) (Some "/")
             (Some "http") (Some [("Accept", "*/*")]) (Some body)
             (Some (str_len body))))
    (Some (Response.mk (Some status) (Some "OK") (Some [("content-type", "text/plain")])
             (Some answer) (Some (str_len answer)))).

Definition r1 : Doc.t := record "a1" "GET" "http://example.com/" "example.com" "" 200 "say FOO".

Definition r2 : Doc.t :=
  record "a2" "POST" "http://example.org/login" "example.org" "user=bar" 404 "denied".

(** Two captured exchanges, with their record files. *)
Definition traffic : store :=
  <["a1.json" := Json r1]> (<["a2.json" := Json r2]>
    {["index.json" := Json (index_doc [e1; e2])]}).

(** [{"query": "foo"}] *)
Definition search_foo : Params.t :=
  Params.mk None None None None None None (Some "foo") None None.

(** [{"request_id": "a1"}] *)
Definition read_a1 : Params.t :=
  Params.mk None None None None None (Some "a1") None None None.

(** An empty traffic directory. *)
Definition empty : store := ∅.

(** A server that may remove and write every entry. *)
Definition permissive : Permissions :=
  {| removable := fun _ => true; writable := fun _ => true |}.


(** A directory whose index file holds the single byte 0xff. *)
Definition corrupt_index : store :=
  {["index.json" :=
      Undecodable "'utf-8' codec can't decode byte 0xff in position 0: invalid start byte"]}.

(** The index with the entry [e1], and the record file of [e1]. *)
Definition one_record : store := <["a1.json" := Json r1]> one_entry.


(** The same traffic, in a directory that also holds an unrelated file. *)
Definition traffic_with_notes : store := <["notes.txt" := Unreadable]> traffic.

(** A decoder for the ASCII part of UTF-8. *)
Definition ascii_decode (content : bytes) : option string :=
  if forallb (fun b => (Byte.to_N b <? 128)%N) content
  then Some (decode_latin1 content) else None.

(** A text body of 50,001 characters: an "x" and 50,000 times "a". *)
Definition long_body : bytes := Byte.x78 :: repeat Byte.x61 (Z.to_nat 50000).


(** An exchange whose response carries [long_body] as [text/plain]. *)
Definition long_flow : Flow.t :=
  Flow.mk "GET" "http://example.com/" "example.com" 80 "/" "http"
    [("Accept", "*/*")] "" None
    200 "OK" [("content-type", "text/plain")] "text/plain" (Some long_body).



(** An exchange with a short text body on each side. *)
Definition short_flow : Flow.t :=
  Flow.mk "POST" "http://example.com/a" "example.com" 80 "/a" "http"
    [("content-type", "text/plain")] "text/plain" (Some [Byte.x68; Byte.x69])
    200 "OK" [("content-type", "text/plain")] "text/plain" (Some [Byte.x6f; Byte.x6b]).

End Sample.

(** ** mcp_proxy_server.py: the protocol loop *)

Definition JSONRPC_VERSION : string := "2.0".
Definition MCP_VERSION : string := "2024-11-05".

(** One property of a tool's input schema; [items] is the element type of
    an array property. *)
Module Property.
Record t : Type := mk {
  name : string;
  type : string;
  items : option string;
  description : string
}.
End Property.

(** One tool of [handle_tools_list]. *)
Module Tool.
Record t : Type := mk {
  name : string;
  description : string;
  properties : list Property.t;
  required : list string
}.
End Tool.

(** The [tools] list of [handle_tools_list]. *)
Definition tools : list Tool.t :=
  [Tool.mk "list_requests"
     "List all captured HTTP requests with summary information. Returns request ID, timestamp, method, URL, host, status code, and content sizes. Use the request ID with read_request to get full details."
     [Property.mk "limit" "integer" None
        "Maximum number of requests to return (default: 100, use 0 for all)";
      Property.mk "host_filter" "string" None "Filter requests by host (partial match)";
      Property.mk "method_filter" "string" None
        "Filter requests by HTTP method (GET, POST, etc.)";
      Property.mk "status_filter" "integer" None "Filter requests by status code";
      Property.mk "url_filter" "string" None "Filter requests by URL (partial match)"]
     [];
   Tool.mk "read_request"
     "Read the full details of a specific captured request/response, including all headers and body content. Use list_requests first to get the request ID."
     [Property.mk "request_id" "string" None
        "The unique ID of the request to read (from list_requests)"]
     ["request_id"];
   Tool.mk "search_requests"
     "Search through captured requests by content. Searches both request and response bodies."
     [Property.mk "query" "string" None "Search query to find in request/response bodies";
      Property.mk "search_headers" "boolean" None "Also search in headers (default: false)"]
     ["query"];
   Tool.mk "clear_requests"
     "Clear all captured requests. Use with caution - this deletes all stored traffic data."
     [] [];
   Tool.mk "get_request_stats"
     "Get statistics about captured traffic including total requests, requests by host, by method, and by status code."
     [] [];
   Tool.mk "export_har"
     "Export captured traffic in HAR (HTTP Archive) format for use with other tools."
     [Property.mk "request_ids" "array" (Some "string")
        "List of request IDs to export. If empty, exports all."]
     []].

(** The ["result"] or ["error"] member of a response. *)
Inductive reply : Type :=
| InitializeResult (protocolVersion serverInfo_name serverInfo_version : string)
| ToolsResult (tools : list Tool.t)
| ResourcesResult (resources : list string)
| CallResult (t : text)
| ErrorReply (code : Z) (message : string).

(** A response as [send_response] writes it: [jsonrpc], [id] and the reply. *)
Module Message.
Record t (I : Type) : Type := mk {
  jsonrpc : string;
  id : option I;
  body : reply
}.
Arguments mk {I} _ _ _.
Arguments jsonrpc {I} _.
Arguments id {I} _.
Arguments body {I} _.
End Message.

(** The ["params"] object of a [tools/call] request. *)
Module Call.
Record t : Type := mk {
  name : option string;
  arguments : option Params.t
}.
Definition empty : t := mk None None.
End Call.

(** A parsed request line; ["params"], when the key is there, is an object. *)
Module Rpc.
Record t (I : Type) : Type := mk {
  id : option I;
  method : option string;
  params : option Call.t
}.
Arguments mk {I} _ _ _.
Arguments id {I} _.
Arguments method {I} _.
Arguments params {I} _.
End Rpc.

(** A line of the input: blank after [strip]; or one that [json.loads]
    rejects, that is no JSON object, or that is a [tools/call] whose
    ["params"] is no object (its [params.get] raises before the [try] of
    [handle_tool_call]), so that the turn ends in one of the two [except]
    branches without a response; or a parsed request. *)
Inductive line (I : Type) : Type :=
| Blank
| Malformed
| Request (r : Rpc.t I).
Arguments Blank {I}.
Arguments Malformed {I}.
Arguments Request {I} r.

Definition handle_initialize {I} (request_id : option I) (params : Call.t) : option I * reply :=
  (request_id, InitializeResult MCP_VERSION "mitmproxy-mcp" "1.0.0").

Definition handle_tools_list {I} (request_id : option I) : option I * reply :=
  (request_id, ToolsResult tools).

Definition handle_resources_list {I} (request_id : option I) : option I * reply :=
  (request_id, ResourcesResult []).

(** [send_response]: the response gets its [jsonrpc] member and goes to the
    output. *)
Definition send_response {I} (response : option I * reply) (out : list (Message.t I))
    : list (Message.t I) :=
  out ++ [Message.mk JSONRPC_VERSION response.1 response.2].

Definition reply_of_payload (p : payload) : reply :=
  match p with
  | Error code message => ErrorReply code message
  | Result t => CallResult t
  end.

(** One turn of the loop of [main], for a line that was read: the response
    of the turn, if it sends one, and the directory after it. *)
Definition main_turn {P : Permissions} {I} (l : line I) (s : store)
    : option (option I * reply) * store :=
  match l with
  | Blank => (None, s)
  | Malformed => (None, s)
  | Request request =>
      let request_id := Rpc.id request in
      let method := Rpc.method request in
      let params := default Call.empty (Rpc.params request) in
      if bool_decide (method = Some "initialize")
      then (Some (handle_initialize request_id params), s)
      else if bool_decide (method = Some "notifications/initialized")
      then (None, s)
      else if bool_decide (method = Some "tools/list")
      then (Some (handle_tools_list request_id), s)
      else if bool_decide (method = Some "tools/call")
      then
        match handle_tool_call request_id (Call.name params) (Call.arguments params) s with
        | (response, s') => (Some (response.1, reply_of_payload response.2), s')
        end
      else if bool_decide (method = Some "resources/list")
      then (Some (handle_resources_list request_id), s)
      else
        match request_id with
        | None => (None, s)
        | Some _ =>
            (Some (request_id,
                   ErrorReply (-32601) ("Method not found: " +:+ default "None" method)), s)
        end
  end.

(** [main] over the lines read until end of input: what it has written and
    the directory it leaves. *)
Fixpoint main {P : Permissions} {I} (lines : list (line I)) (out : list (Message.t I))
    (s : store) : list (Message.t I) * store :=
  match lines with
  | [] => (out, s)
  | l :: lines' =>
      match main_turn l s with
      | (None, s') => main lines' out s'
      | (Some response, s') => main lines' (send_response response out) s'
      end
  end.

(** The turns that send a response: every request but the notification
    [notifications/initialized] and an unknown method without an id. *)
Definition answered {I} (l : line I) : bool :=
  match l with
  | Blank | Malformed => false
  | Request r =>
      match Rpc.method r with
      | Some m =>
          if String.eqb m "notifications/initialized" then false
          else if existsb (String.eqb m) ["initialize"; "tools/list"; "tools/call"; "resources/list"]
          then true else is_some (Rpc.id r)
      | None => is_some (Rpc.id r)
      end
  end.

(** The id a line carries. *)
Definition line_id {I} (l : line I) : option I :=
  match l with
  | Request r => Rpc.id r
  | _ => None
  end.

(** A [tools/call] of [clear_requests]. *)
Definition is_clear_call {I} (l : line I) : bool :=
  match l with
  | Request r =>
      bool_decide (Rpc.method r = Some "tools/call") &&
      bool_decide (Call.name (default Call.empty (Rpc.params r)) = Some "clear_requests")
  | _ => false
  end.

(** ** mitmproxy_addon.py: the index of the addon *)

(** [_load_index]: the value of [self.index]. *)
Definition _load_index : M value :=
  present ← path_exists "index.json";
  if (present : bool)
  then try_except (json_load "index.json") is_load_error
         (fun _ => mret (PyDict (index_doc [])))
  else mret (PyDict (index_doc [])).

(** [_save_index] *)
Definition _save_index (index : Doc.t) : M unit :=
  json_dump "index.json" index.

(** One captured exchange with the id and the timestamp drawn for it. *)
Module Capture.
Record t : Type := mk {
  request_id : string;
  timestamp : string;
  flow : Flow.t
}.
End Capture.

(** [d["requests"] = l] on a document. *)
Definition with_requests (l : list Entry.t) (d : Doc.t) : Doc.t :=
  Doc.mk (Some l) (Doc.id d) (Doc.timestamp d) (Doc.request d) (Doc.response d).

Section Addon.

Variable decode_utf8 : bytes -> option string.

(** [TrafficCapture.response] on the addon's [self.index] as [_load_index]
    left it: the record file is written first, then the entry is appended
    to [self.index["requests"]] and the index is saved.  The result is the
    new [self.index], or the exception of the append. *)
Definition addon_response (c : Capture.t) (self_index : Doc.t) (s : store)
    : result Doc.t * store :=
  let request_id := Capture.request_id c in
  let s :=
    <[request_id +:+ ".json" :=
        Json (request_data decode_utf8 request_id (Capture.timestamp c) (Capture.flow c))]> s in
  match getitem "requests" (Doc.requests self_index) with
  | Raise e => (Raise e, s)
  | Ok requests =>
      let self_index :=
        with_requests
          (requests ++ [index_entry request_id (Capture.timestamp c) (Capture.flow c)])
          self_index in
      match _save_index self_index s with
      | (_, s') => (Ok self_index, s')
      end
  end.

(** The captures [cs] in turn, on the in-memory entry list [self_index]. *)
Fixpoint ingest (cs : list Capture.t) (self_index : list Entry.t) (s : store)
    : list Entry.t * store :=
  match cs with
  | [] => (self_index, s)
  | c :: cs' =>
      match response decode_utf8 (Capture.request_id c) (Capture.timestamp c)
              (Capture.flow c) self_index s with
      | (self_index', s') => ingest cs' self_index' s'
      end
  end.

(** The index entry and the record of a capture. *)
Definition entry_of (c : Capture.t) : Entry.t :=
  index_entry (Capture.request_id c) (Capture.timestamp c) (Capture.flow c).

Definition record_for (c : Capture.t) : Doc.t :=
  request_data decode_utf8 (Capture.request_id c) (Capture.timestamp c) (Capture.flow c).

(** The last capture of [cs] made under the id [request_id]. *)
Fixpoint last_with (request_id : string) (cs : list Capture.t) : option Capture.t :=
  match cs with
  | [] => None
  | c :: cs' =>
      match last_with request_id cs' with
      | Some c' => Some c'
      | None => if String.eqb (Capture.request_id c) request_id then Some c else None
      end
  end.

(** The entries of [idx] are complete, none has the reserved id, and the
    record file of each is there and complete. *)
Definition indexed (idx : list Entry.t) (s : store) : Prop :=
  Forall (fun e =>
            entry_complete e = true /\
            exists id d, Entry.id e = Some id /\ id <> "index" /\
                         record_of s id = Some d /\ record_complete d = true) idx.

End Addon.

(** [content.encode('latin-1')] on a string of the model. *)
Definition encode_latin1 (s : string) : bytes :=
  map byte_of_ascii (list_ascii_of_string s).

(** The sum of the counts of a counter dictionary. *)
Definition total_count (d : list (string * Z)) : Z :=
  foldr (fun kv acc => kv.2 + acc) 0 d.

(** The state of the aggregation loop after the entries [requests]. *)
Definition stats_of (requests : list Entry.t) : Stats.t :=
  foldl stats_loop_body Stats.init requests.

(** The counter [d] after counting the keys of the entries [l]: what the
    aggregation loop does to each of its three dictionaries. *)
Definition tally (key : Entry.t -> string) (l : list Entry.t) (d : list (string * Z))
    : list (string * Z) :=
  foldl (fun d e => dict_set (key e) (dict_get (key e) d 0 + 1) d) d l.

(** The keys under which the loop counts an entry. *)
Definition host_key (req : Entry.t) : string := default "unknown" (Entry.host req).
Definition method_key (req : Entry.t) : string := default "unknown" (Entry.method req).
Definition status_key (req : Entry.t) : string :=
  str_int (default 0 (Entry.status_code req) / 100) +:+ "xx".

(** How many entries of [l] are counted under [k]. *)
Definition occurrences (key : Entry.t -> string) (k : string) (l : list Entry.t) : Z :=
  Z.of_nat (length (List.filter (fun e => String.eqb (key e) k) l)).

(** The keys of a list in the order of their first occurrence. *)
Fixpoint distinct (l : list string) : list string :=
  match l with
  | [] => []
  | k :: l' => k :: List.filter (fun k' => negb (String.eqb k' k)) (distinct l')
  end.

(** A counter as a dictionary filled in one pass holds it: each key once,
    in the order of first occurrence, with the number of entries counted
    under it. *)
Definition counter (key : Entry.t -> string) (l : list Entry.t) : list (string * Z) :=
  map (fun k => (k, occurrences key k l)) (distinct (map key l)).

(** The contract of [sorted]: the result [l] is in order and, among the
    elements that the order does not tell apart, keeps the order of the
    input [d]. *)
Definition stably_sorted {A} (le : A -> A -> bool) (d l : list A) : Prop :=
  StronglySorted (fun x y => le x y = true) l /\
  forall z, List.filter (fun y => le z y && le y z) l =
            List.filter (fun y => le z y && le y z) d.

(** The statistics text for given totals and the entries of the three
    groupings, written out. *)
Abbreviation stats_layout total request_data response_data hosts methods statuses :=
  (join nl
     (["=== Traffic Statistics ===";
       "Total Requests: " +:+ str_int total;
       "Total Request Data: " +:+ str_int_commas request_data +:+ " bytes";
       "Total Response Data: " +:+ str_int_commas response_data +:+ " bytes";
       "";
       "By Host (top 10):"] ++
      map (fun kv : string * Z => "  " +:+ kv.1 +:+ ": " +:+ str_int kv.2) hosts ++
      [""; "By Method:"] ++
      map (fun kv : string * Z => "  " +:+ kv.1 +:+ ": " +:+ str_int kv.2) methods ++
      [""; "By Status Code:"] ++
      map (fun kv : string * Z => "  " +:+ kv.1 +:+ ": " +:+ str_int kv.2) statuses)).

(** The five category names, in the order the search loop appends them. *)
Definition category_names : list string :=
  ["request body"; "response body"; "URL"; "request headers"; "response headers"].

(** Sample sessions. *)
Module Session.

(** A handshake, a listing, a call of an unknown tool and a notification. *)
Definition browse : list (line Z) :=
  [Request (Rpc.mk (Some 1) (Some "initialize") None);
   Request (Rpc.mk None (Some "notifications/initialized") None);
   Blank;
   Request (Rpc.mk (Some 2) (Some "tools/call")
              (Some (Call.mk (Some "list_requests") None)));
   Malformed;
   Request (Rpc.mk (Some 3) (Some "tools/call") (Some (Call.mk (Some "reboot") None)))].

(** Two captures of the short exchange, under the ids "a1" and "a2". *)
Definition captures : list Capture.t :=
  [Capture.mk "a1" "2024-05-01T10:00:00" Sample.short_flow;
   Capture.mk "a2" "2024-05-01T10:00:01" Sample.short_flow].

(** [{"request_id": "index"}] *)
Definition read_index_id : Params.t :=
  Params.mk None None None None None (Some "index") None None None.

End Session.

(** * Properties *)

(** ** Strings *)

Section Strings.

Lemma startswith_spec (s p : string) :
  startswith s p = true <-> exists suf, s = p +:+ suf.
Proof.
  revert s. induction p as [|a p IH]; intros s; simpl.
  - split; [intros _; exists s; reflexivity | destruct s; reflexivity].
  - destruct s as [|b s].
    + split; [discriminate | intros [suf H]; discriminate].
    + simpl. destruct (Ascii.eqb_spec a b) as [-> | Hab].
      * rewrite IH. split.
        -- intros [suf ->]. exists suf. reflexivity.
        -- intros [suf H]. injection H as ->. exists suf. reflexivity.
      * split; [discriminate | intros [suf H]; injection H as <- _; contradiction].
Qed.

Lemma str_in_spec (needle hay : string) :
  str_in needle hay = true <-> exists pre suf, hay = pre +:+ needle +:+ suf.
Proof.
  induction hay as [|c hay IH].
  - change (str_in needle "") with (if startswith "" needle then true else false).
    replace (if startswith "" needle then true else false) with (startswith "" needle)
      by (destruct (startswith "" needle); reflexivity).
    rewrite startswith_spec. split.
    + intros [suf H]. exists "", suf. exact H.
    + intros [pre [suf H]]. destruct pre; [exists suf; exact H | discriminate].
  - change (str_in needle (String c hay))
      with (if startswith (String c hay) needle then true else str_in needle hay).
    replace (if startswith (String c hay) needle then true else str_in needle hay)
      with (startswith (String c hay) needle || str_in needle hay)
      by (destruct (startswith (String c hay) needle); reflexivity).
    rewrite orb_true_iff, startswith_spec, IH. split.
    + intros [[suf H] | [pre [suf H]]].
      * exists "", suf. exact H.
      * exists (String c pre), suf. simpl. rewrite H. reflexivity.
    + intros [pre [suf H]]. destruct pre as [|d pre].
      * left. exists suf. exact H.
      * right. simpl in H. injection H as _ H. exists pre, suf. exact H.
Qed.

Lemma lower_app (a b : string) : lower (a +:+ b) = lower a +:+ lower b.
Proof. induction a as [|c a IH]; simpl; [reflexivity | rewrite IH; reflexivity]. Qed.

Lemma lower_split (s a b : string) :
  lower s = a +:+ b -> exists s1 s2, s = s1 +:+ s2 /\ lower s1 = a /\ lower s2 = b.
Proof.
  revert s. induction a as [|c a IH]; intros s H.
  - exists "", s. auto.
  - destruct s as [|d s]; [discriminate|]. simpl in H. injection H as Hc H.
    destruct (IH s H) as [s1 [s2 [-> [H1 H2]]]].
    exists (String d s1), s2. simpl. rewrite Hc, H1. auto.
Qed.




Lemma all_chars_full (c : ascii) : In c all_chars.
Proof.
  unfold all_chars. rewrite <- (ascii_nat_embedding c). apply in_map, in_seq.
  pose proof (nat_ascii_bounded c). lia.
Qed.

(** A relation on characters that holds on the 256 x 256 pairs holds. *)
Lemma all_pairs (R : ascii -> ascii -> bool) :
  forallb (fun c => forallb (R c) all_chars) all_chars = true ->
  forall c d, R c d = true.
Proof.
  intros H c d. rewrite forallb_forall in H.
  pose proof (H c (all_chars_full c)) as Hc. rewrite forallb_forall in Hc.
  exact (Hc d (all_chars_full d)).
Qed.

Lemma letter_pair_reflect (u l : ascii) : Spec.letter_pair u l <-> letter_pair_b u l = true.
Proof.
  unfold Spec.letter_pair, letter_pair_b. rewrite andb_true_iff, N.eqb_eq. reflexivity.
Qed.

Lemma ci_char_reflect (c d : ascii) : Spec.ci_char c d <-> ci_char_b c d = true.
Proof.
  unfold Spec.ci_char, ci_char_b.
  rewrite !orb_true_iff, <- !letter_pair_reflect, Ascii.eqb_eq. tauto.
Qed.

Lemma bool_eqb_iff (a b : bool) : Bool.eqb a b = true -> (a = true <-> b = true).
Proof. destruct a, b; simpl; intros H; split; congruence. Qed.

Lemma ci_char_lower (c d : ascii) : Spec.ci_char c d <-> lower_char c = lower_char d.
Proof.
  rewrite ci_char_reflect, <- Ascii.eqb_eq. apply bool_eqb_iff.
  apply (all_pairs (fun c d =>
           Bool.eqb (ci_char_b c d) (Ascii.eqb (lower_char c) (lower_char d)))).
  vm_compute. reflexivity.
Qed.


Lemma ci_eq_lower (a b : string) : Spec.ci_eq a b <-> lower a = lower b.
Proof.
  revert b. induction a as [|c a IH]; intros [|d b]; simpl; try (split; [tauto | discriminate]).
  - tauto.
  - rewrite ci_char_lower, IH. split; [intros [-> ->]; reflexivity | intros H; injection H; auto].
Qed.




(** The code's substring test is the document's case-insensitive substring. *)
Lemma str_in_lower (f s : string) :
  str_in (lower f) (lower s) = true <-> Spec.ci_substring f s.
Proof.
  rewrite str_in_spec. unfold Spec.ci_substring. split.
  - intros [pre [suf H]].
    destruct (lower_split _ _ _ H) as [s1 [s2 [-> [H1 H2]]]].
    destruct (lower_split _ _ _ H2) as [s3 [s4 [-> [H3 H4]]]].
    exists s1, s3, s4. split; [reflexivity | apply ci_eq_lower; exact H3].
  - intros [pre [mid [suf [-> H]]]]. apply ci_eq_lower in H.
    exists (lower pre), (lower suf). rewrite !lower_app, H. reflexivity.
Qed.

End Strings.

Section MoreStrings.

Lemma append_cons (c : ascii) (a b : string) : String c a +:+ b = String c (a +:+ b).
Proof. reflexivity. Qed.

Lemma append_nil_r (s : string) : s +:+ "" = s.
Proof.
  induction s as [|c s IH]; [reflexivity | rewrite append_cons, IH; reflexivity].
Qed.

Lemma append_assoc (a b c : string) : (a +:+ b) +:+ c = a +:+ (b +:+ c).
Proof.
  induction a as [|x a IH]; [reflexivity | rewrite !append_cons, IH; reflexivity].
Qed.

Lemma rev_append (a b : string) : str_rev (a +:+ b) = str_rev b +:+ str_rev a.
Proof.
  induction a as [|x a IH].
  - change (str_rev b = str_rev b +:+ ""). rewrite append_nil_r. reflexivity.
  - change (str_rev (a +:+ b) +:+ String x "" =
            str_rev b +:+ (str_rev a +:+ String x "")).
    rewrite IH, append_assoc. reflexivity.
Qed.

Lemma rev_rev (s : string) : str_rev (str_rev s) = s.
Proof.
  induction s as [|c s IH]; [reflexivity|].
  change (str_rev (str_rev s +:+ String c "") = String c s).
  rewrite rev_append, IH. reflexivity.
Qed.

Lemma append_inv_head (a b c : string) : a +:+ b = a +:+ c -> b = c.
Proof.
  induction a as [|x a IH]; intros H; [exact H|].
  rewrite !append_cons in H. injection H. exact IH.
Qed.

Lemma append_inv_tail (a b c : string) : a +:+ c = b +:+ c -> a = b.
Proof.
  intros H. apply (f_equal str_rev) in H. rewrite !rev_append in H.
  apply append_inv_head in H. rewrite <- (rev_rev a), H. apply rev_rev.
Qed.

Lemma endswith_append (a b : string) : endswith (a +:+ b) b = true.
Proof.
  unfold endswith. rewrite rev_append. apply startswith_spec. eexists. reflexivity.
Qed.

Lemma request_file_not_index (request_id : string) :
  request_id <> "index" -> request_id +:+ ".json" <> "index.json".
Proof.
  intros Hne H. apply Hne.
  apply (append_inv_tail request_id "index" ".json"). exact H.
Qed.

End MoreStrings.

(** ** Reading the store *)

Section Reading.

Lemma read_index_run (s : store) :
  read_index s = (loaded (PyDict (index_doc [])) (s !! "index.json"), s).
Proof.
  unfold read_index, mbind, M_bind, path_exists, try_except, json_load, INDEX_FILE.
  destruct (s !! "index.json") as [[| |d|m| |t]|] eqn:E; simpl;
    rewrite ?E; try reflexivity;
    (rewrite bool_decide_true by eauto); simpl; rewrite E; reflexivity.
Qed.

Lemma read_request_run (request_id : string) (s : store) :
  read_request request_id s = (loaded PyNone (s !! (request_id +:+ ".json")), s).
Proof.
  unfold read_request, mbind, M_bind, path_exists, try_except, json_load.
  destruct (s !! (request_id +:+ ".json")) as [[| |d|m| |t]|] eqn:E; simpl;
    rewrite ?E; try reflexivity;
    (rewrite bool_decide_true by eauto); simpl; rewrite E; reflexivity.
Qed.


Lemma index_view_ok (s : store) : index_ok s = true -> index_view s = Ok (index_of s).
Proof.
  unfold index_view, index_of, index_ok.
  destruct (s !! "index.json") as [[| |d|m| |t]|]; simpl; congruence.
Qed.



Lemma record_view_ok (s : store) (request_id : string) :
  record_ok s request_id = true -> record_view s request_id = Ok (record_of s request_id).
Proof.
  unfold record_view, record_of, record_ok.
  destruct (s !! (request_id +:+ ".json")) as [[| |d|m| |t]|]; simpl; congruence.
Qed.

Lemma record_ok_complete (s : store) (request_id : string) (d : Doc.t) :
  record_ok s request_id = true -> record_of s request_id = Some d ->
  record_complete d = true.
Proof.
  unfold record_of, record_ok.
  destruct (s !! (request_id +:+ ".json")) as [[| |d'|m| |t]|]; simpl; congruence.
Qed.

Lemma record_view_json (s : store) (request_id : string) (d : Doc.t) :
  s !! (request_id +:+ ".json") = Some (Json d) -> record_view s request_id = Ok (Some d).
Proof. unfold record_view. intros ->. reflexivity. Qed.

(** A tool that starts with [read_index] and [index.get("requests", [])]. *)
Lemma index_bind {A} (k : list Entry.t -> M A) (s : store) :
  (read_index ≫= fun index => lift (get_requests index) ≫= k) s =
  match index_view s with
  | Ok requests => k requests s
  | Raise e => (Raise e, s)
  end.
Proof.
  unfold mbind at 1, M_bind. rewrite read_index_run. unfold index_view.
  destruct (loaded (PyDict (index_doc [])) (s !! "index.json")) as [index|e]; [|reflexivity].
  unfold mbind, M_bind, lift, result_bind.
  destruct (get_requests index); reflexivity.
Qed.

End Reading.

(** ** Listing *)

Section Listing.

Lemma list_loop_filter (p : Params.t) (requests acc : list Entry.t) :
  foldl (list_loop_body (lower (default "" (Params.host_filter p)))
           (upper (default "" (Params.method_filter p))) (Params.status_filter p)
           (lower (default "" (Params.url_filter p)))) acc requests
  = acc ++ List.filter (list_keeps p) requests.
Proof.
  revert acc. induction requests as [|req requests IH]; intros acc; simpl.
  - rewrite app_nil_r. reflexivity.
  - rewrite IH. unfold list_loop_body, list_keeps.
    repeat match goal with
    | |- context [if ?c && negb ?d then _ else _] => destruct (c && negb d); simpl
    end; try reflexivity.
    rewrite <- app_assoc. reflexivity.
Qed.










Lemma tool_list_requests_run (p : Params.t) (s : store) :
  tool_list_requests p s =
  (requests ← index_view s; list_render (list_filtered p requests), s).
Proof.
  unfold tool_list_requests. rewrite index_bind.
  destruct (index_view s); reflexivity.
Qed.



End Listing.

(** ** The claims on listing *)




(** C9: a status filter of 0 is the same as no status filter: the loop
    never applies it, so it selects every entry that passes the other
    filters, whatever its status code, and the tool returns the same text. *)
Theorem list_requests_status_zero (p : Params.t) (s : store) :
  (forall requests,
     list_filtered (with_status_filter (Some 0) p) requests =
     list_filtered (with_status_filter None p) requests) /\
  tool_list_requests (with_status_filter (Some 0) p) s =
  tool_list_requests (with_status_filter None p) s.
Proof.
  assert (forall requests,
     list_filtered (with_status_filter (Some 0) p) requests =
     list_filtered (with_status_filter None p) requests) as H.
  { intros requests. unfold list_filtered. simpl.
    assert (forall acc : list Entry.t,
      foldl (list_loop_body (lower (default "" (Params.host_filter p)))
               (upper (default "" (Params.method_filter p))) (Some 0)
               (lower (default "" (Params.url_filter p)))) acc requests =
      foldl (list_loop_body (lower (default "" (Params.host_filter p)))
               (upper (default "" (Params.method_filter p))) None
               (lower (default "" (Params.url_filter p)))) acc requests) as Hloop.
    { induction requests as [|req requests IH]; intros acc; [reflexivity|].
      simpl. rewrite IH. reflexivity. }
    rewrite Hloop. reflexivity. }
  split; [exact H|].
  rewrite !tool_list_requests_run.
  destruct (index_view s) as [requests|e]; [|reflexivity].
  cbn [mbind result_bind]. rewrite H. reflexivity.
Qed.

(** ** Searching *)

Section Searching.



Lemma search_found_in_run (query : string) (sh : bool) (data : Doc.t)
    (req : Request.t) (resp : Response.t) :
  Doc.request data = Some req -> Doc.response data = Some resp ->
  search_found_in query sh data =
  Ok (map Spec.category_name
        (List.filter (category_hit query sh req resp) Spec.all_categories)).
Proof.
  intros Hreq Hresp. unfold search_found_in. rewrite Hreq, Hresp. simpl.
  destruct (str_in query (lower (default "" (Request.content req))));
  destruct (str_in query (lower (default "" (Response.content resp))));
  destruct (str_in query (lower (default "" (Request.url req))));
  destruct sh; simpl; try reflexivity;
  destruct (headers_hit query (default [] (Request.headers req)));
  destruct (headers_hit query (default [] (Response.headers resp))); reflexivity.
Qed.




Lemma search_body_run (query : string) (sh : bool) (acc : list Match.t) (e : Entry.t)
    (s : store) :
  search_loop_body query sh acc e s = (search_step (record_view s) query sh acc e, s).
Proof.
  unfold search_loop_body, search_step, record_view, mbind, M_bind, result_bind, lift.
  destruct (getitem "id" (Entry.id e)) as [id|err] eqn:Eid; [|reflexivity].
  rewrite read_request_run.
  destruct (loaded PyNone (s !! (id +:+ ".json"))) as [[|data|t]|err']; try reflexivity.
  destruct (search_found_in query sh data) as [[|c found]|err']; try reflexivity.
  destruct (getitem "method" (Entry.method e)); [|reflexivity].
  destruct (getitem "url" (Entry.url e)); reflexivity.
Qed.

Lemma search_loop_run (query : string) (sh : bool) (es : list Entry.t)
    (acc : list Match.t) (s : store) :
  foldM (search_loop_body query sh) acc es s = (search_scan (record_view s) query sh acc es, s).
Proof.
  revert acc. induction es as [|e es IH]; intros acc; [reflexivity|].
  simpl. unfold mbind at 1, M_bind. rewrite search_body_run.
  unfold mbind, result_bind.
  destruct (search_step (record_view s) query sh acc e); [apply IH | reflexivity].
Qed.

Lemma tool_search_requests_run (p : Params.t) (s : store) :
  tool_search_requests p s =
  (let query := lower (default "" (Params.query p)) in
   if negb (truthy query) then Ok "Error: query is required"
   else
     requests ← index_view s;
     matches ← search_scan (record_view s) query (default false (Params.search_headers p))
                 [] requests;
     Ok (search_render query matches), s).
Proof.
  unfold tool_search_requests. cbv zeta.
  destruct (negb (truthy (lower (default "" (Params.query p))))); [reflexivity|].
  rewrite index_bind. destruct (index_view s) as [requests|e]; [|reflexivity].
  unfold mbind at 1, M_bind. rewrite search_loop_run.
  unfold mbind, result_bind.
  destruct (search_scan _ _ _ _ _); reflexivity.
Qed.


(** Over complete entries and records the scan raises no exception. *)
Lemma search_scan_complete (s : store) (q : string) (sh : bool) (es : list Entry.t) :
  forallb (fun e => entry_complete e &&
                    match Entry.id e with Some id => record_ok s id | None => false end) es = true ->
  forall acc, is_ok (search_scan (record_view s) q sh acc es) = true.
Proof.
  induction es as [|e es IH]; intros Hwf acc; [reflexivity|].
  simpl in Hwf. apply andb_true_iff in Hwf. destruct Hwf as [He Hes].
  apply andb_true_iff in He. destruct He as [Hc Hrec].
  unfold entry_complete in Hc.
  destruct (Entry.id e) as [id|] eqn:Eid; [|discriminate].
  destruct (Entry.method e) as [method|] eqn:Em;
    [|rewrite !andb_false_r in Hc; simpl in Hc; discriminate].
  destruct (Entry.url e) as [url|] eqn:Eu;
    [|rewrite !andb_false_r in Hc; simpl in Hc; discriminate].
  simpl. unfold search_step, mbind, result_bind. rewrite Eid. cbn [getitem].
  rewrite (record_view_ok s id Hrec).
  pose proof Hrec as Hrec'. unfold record_ok in Hrec'. unfold record_of.
  destruct (s !! (id +:+ ".json")) as [[| |data|m| |t]|]; try (apply IH; exact Hes);
    try discriminate.
  unfold record_complete in Hrec'.
  destruct (Doc.request data) as [req|] eqn:Ereq;
    [|rewrite !andb_false_r in Hrec'; simpl in Hrec'; discriminate].
  destruct (Doc.response data) as [resp|] eqn:Eresp;
    [|rewrite !andb_false_r in Hrec'; discriminate].
  rewrite (search_found_in_run q sh data req resp Ereq Eresp).
  destruct (map Spec.category_name _) as [|c cats]; [apply IH; exact Hes|].
  rewrite Em, Eu. cbn [getitem]. apply IH. exact Hes.
Qed.

End Searching.

(** ** The claim on searching *)



(** The document's test: the query "foo" finds the record whose response
    body holds "FOO" and names the response body; the other record is not
    reported. *)
Example search_foo_finds_response_body :
  fst (tool_search_requests Sample.search_foo Sample.traffic) =
  Ok (search_render "foo" [Match.mk "a1" "GET" "http://example.com/" ["response body"]]).
Proof. vm_compute. reflexivity. Qed.

(** ** Clearing *)

Section Clearing.

Context {P : Permissions}.

(** The deletion loop touches only the names it goes through. *)
Lemma for_each_unlink_frame (names : list string) (s s' : store) (r : result unit)
    (k : string) :
  for_each names delete_unless_index s = (r, s') -> k ∉ names -> s' !! k = s !! k.
Proof.
  revert s. induction names as [|name names IH]; intros s Hrun Hk.
  - injection Hrun as _ <-. reflexivity.
  - apply not_elem_of_cons in Hk. destruct Hk as [Hne Hk].
    simpl in Hrun. unfold mbind, M_bind, delete_unless_index in Hrun.
    destruct (negb (String.eqb name "index.json")).
    + unfold unlink in Hrun. destruct (s !! name) eqn:E.
      * destruct (removable name).
        -- rewrite (IH _ Hrun Hk). apply lookup_delete_ne. congruence.
        -- injection Hrun as _ <-. reflexivity.
      * injection Hrun as _ <-. reflexivity.
    + exact (IH _ Hrun Hk).
Qed.

(** When every name is a file that may be removed, the loop deletes them all. *)
Lemma for_each_unlink_run (names : list string) (s : store) :
  NoDup names ->
  Forall (fun name => name = "index.json" \/ (is_Some (s !! name) /\ removable name = true))
         names ->
  for_each names delete_unless_index s = (Ok tt, unlink_all names s).
Proof.
  revert s. induction names as [|name names IH]; intros s Hnd Hall; [reflexivity|].
  apply NoDup_cons in Hnd. destruct Hnd as [Hnotin Hnd].
  apply Forall_cons in Hall. destruct Hall as [Hname Hall].
  simpl. unfold mbind, M_bind, unlink_all, delete_unless_index. simpl.
  destruct (String.eqb name "index.json") eqn:E; simpl.
  - apply IH; assumption.
  - apply String.eqb_neq in E. destruct Hname as [Hname | [[f Hf] Hrem]]; [contradiction|].
    unfold unlink. rewrite Hf, Hrem. apply IH; [exact Hnd|].
    rewrite Forall_forall in Hall |- *. intros n Hn.
    destruct (Hall n Hn) as [Hi | [Hs Hr]]; [left; exact Hi | right].
    split; [|exact Hr]. rewrite lookup_delete_ne; [exact Hs|].
    intros <-. contradiction.
Qed.

Lemma unlink_all_lookup (names : list string) (s : store) (k : string) :
  unlink_all names s !! k =
  if decide (k ∈ names /\ k <> "index.json") then None else s !! k.
Proof.
  revert s. induction names as [|name names IH]; intros s.
  - change (unlink_all [] s) with s.
    case_decide as H; [destruct H as [H _]; inversion H | reflexivity].
  - change (unlink_all (name :: names) s) with
      (unlink_all names (if negb (String.eqb name "index.json") then delete name s else s)).
    rewrite IH.
    destruct (decide (k ∈ names /\ k <> "index.json")) as [[Hin Hk] | Hn1];
      destruct (decide (k ∈ name :: names /\ k <> "index.json")) as [[Hin2 Hk2] | Hn2].
    + reflexivity.
    + exfalso. apply Hn2. split; [right; exact Hin | exact Hk].
    + apply elem_of_cons in Hin2. destruct Hin2 as [-> | Hin2]; [|tauto].
      apply String.eqb_neq in Hk2. rewrite Hk2. simpl. apply lookup_delete_eq.
    + destruct (String.eqb name "index.json") eqn:Hn; simpl; [reflexivity|].
      apply String.eqb_neq in Hn. rewrite lookup_delete_ne; [reflexivity|].
      intros <-. apply Hn2. split; [left | exact Hn].
Qed.

Lemma first_component_whole (name : string) :
  no_slash name = true -> first_component name = name.
Proof.
  induction name as [|c name IH]; [reflexivity|]. simpl.
  destruct (Ascii.eqb c "/"); [discriminate|]. simpl. intros H. rewrite (IH H). reflexivity.
Qed.

Lemma first_component_no_slash (path : string) : no_slash (first_component path) = true.
Proof.
  induction path as [|c path IH]; [reflexivity|]. simpl.
  destruct (Ascii.eqb c "/") eqn:E; [reflexivity|]. simpl. rewrite E. exact IH.
Qed.

Lemma no_slash_append (a b : string) : no_slash (a +:+ b) = no_slash a && no_slash b.
Proof.
  induction a as [|c a IH]; [reflexivity|].
  rewrite append_cons. simpl. rewrite IH, andb_assoc. reflexivity.
Qed.

Lemma entries_elem (s : store) (k : string) :
  k ∈ entries s <-> exists path, is_Some (s !! path) /\ first_component path = k.
Proof.
  unfold entries. rewrite elem_of_remove_dups, list_elem_of_In, in_map_iff. split.
  - intros [[path f] [Hk Hin]]. apply list_elem_of_In, elem_of_map_to_list in Hin.
    exists path. split; [eauto | exact Hk].
  - intros [path [[f Hf] Hk]]. exists (path, f). split; [exact Hk|].
    apply list_elem_of_In, elem_of_map_to_list. exact Hf.
Qed.

Lemma json_entries_elem (s : store) (k : string) :
  k ∈ json_entries s <-> endswith k ".json" = true /\ k ∈ entries s.
Proof. unfold json_entries. rewrite list_elem_of_filter, Is_true_true. reflexivity. Qed.

Lemma json_entries_NoDup (s : store) : NoDup (json_entries s).
Proof. apply NoDup_filter, NoDup_remove_dups. Qed.

(** In every case [clear_traffic] returns normally and leaves every name
    alone that is no [*.json] entry of the directory. *)
Lemma clear_traffic_frame (s : store) :
  exists s',
    clear_traffic s = (Ok tt, s') /\
    forall k, k <> "index.json" -> k ∉ json_entries s -> s' !! k = s !! k.
Proof.
  unfold clear_traffic, try_except, mbind, M_bind, glob_json, write_json.
  destruct (for_each (json_entries s) delete_unless_index s) as [[[]|e] s1] eqn:Hloop.
  - destruct (writable INDEX_FILE && negb (is_directory INDEX_FILE s1)).
    + eexists. split; [reflexivity|]. intros k Hk Hout. simpl.
      rewrite lookup_insert_ne by (unfold INDEX_FILE; congruence).
      exact (for_each_unlink_frame _ _ _ _ _ Hloop Hout).
    + eexists. split; [reflexivity|]. intros k Hk Hout. simpl.
      exact (for_each_unlink_frame _ _ _ _ _ Hloop Hout).
  - eexists. split; [reflexivity|]. intros k Hk Hout. simpl.
    exact (for_each_unlink_frame _ _ _ _ _ Hloop Hout).
Qed.

(** The deletion loop leaves the index file a file. *)
Lemma unlink_all_index_file (names : list string) (s : store) :
  is_directory "index.json" s = false ->
  is_directory "index.json" (unlink_all names s) = false.
Proof.
  unfold is_directory. rewrite !andb_false_iff, !bool_decide_eq_false.
  intros [Hfile | Hnone]; [left | right].
  - rewrite unlink_all_lookup. rewrite decide_False by tauto. exact Hfile.
  - rewrite entries_elem. intros [path [Hsome Hpath]]. apply Hnone.
    apply entries_elem. exists path. split; [|exact Hpath].
    rewrite unlink_all_lookup in Hsome. case_decide; [|exact Hsome].
    destruct Hsome as [f Hf]. discriminate Hf.
Qed.

(** The directory [clear_traffic] leaves behind when every deletion succeeds. *)
Lemma clear_traffic_run (s : store) :
  clearable s = true ->
  clear_traffic s =
    (Ok tt, <["index.json" := Json (index_doc [])]> (unlink_all (json_entries s) s)).
Proof.
  intros Hc. unfold clearable in Hc.
  apply andb_true_iff in Hc. destruct Hc as [Hc Hfile].
  apply andb_true_iff in Hc. destruct Hc as [Hc Hwrite].
  apply negb_true_iff in Hfile.
  unfold clear_traffic, try_except, mbind, M_bind, glob_json, write_json.
  rewrite for_each_unlink_run; [| apply json_entries_NoDup |].
  { unfold INDEX_FILE. rewrite Hwrite, (unlink_all_index_file _ s Hfile). reflexivity. }
  rewrite forallb_forall in Hc. rewrite Forall_forall.
  intros name Hname. apply list_elem_of_In, Hc in Hname.
  apply orb_true_iff in Hname. destruct Hname as [Hname | Hname].
  - left. apply String.eqb_eq. exact Hname.
  - right. apply andb_true_iff in Hname. destruct Hname as [Hs Hr].
    apply bool_decide_eq_true in Hs. split; assumption.
Qed.

Lemma cleared_lookup (s : store) (k : string) :
  k <> "index.json" ->
  (<["index.json" := Json (index_doc [])]> (unlink_all (json_entries s) s)) !! k =
  if decide (k ∈ json_entries s) then None else s !! k.
Proof.
  intros Hk. rewrite lookup_insert_ne by congruence. rewrite unlink_all_lookup.
  destruct (decide (k ∈ json_entries s)) as [Hin | Hout].
  - rewrite decide_True by (split; assumption). reflexivity.
  - rewrite decide_False by tauto. reflexivity.
Qed.

(** After a clear whose deletions succeed no [*.json] file of the
    directory itself is left but the index file. *)
Lemma cleared_gone (s : store) (k : string) :
  k <> "index.json" -> endswith k ".json" = true -> no_slash k = true ->
  (<["index.json" := Json (index_doc [])]> (unlink_all (json_entries s) s)) !! k = None.
Proof.
  intros Hk He Hs. rewrite cleared_lookup by exact Hk.
  case_decide as Hin; [reflexivity|].
  destruct (s !! k) eqn:E; [|reflexivity]. exfalso. apply Hin.
  apply json_entries_elem. split; [exact He|]. apply entries_elem.
  exists k. split; [eauto | apply first_component_whole; exact Hs].
Qed.

(** Where no entry is left to delete, the loop changes nothing, however
    it ends. *)
Lemma for_each_unlink_nothing (names : list string) (s s' : store) (r : result unit) :
  for_each names delete_unless_index s = (r, s') ->
  Forall (fun name => name = "index.json" \/ s !! name = None) names ->
  s' = s.
Proof.
  induction names as [|name names IH]; intros Hrun Hall.
  - injection Hrun as _ <-. reflexivity.
  - apply Forall_cons in Hall. destruct Hall as [Hname Hall].
    simpl in Hrun. unfold mbind, M_bind, delete_unless_index in Hrun.
    destruct (String.eqb name "index.json") eqn:E; simpl in Hrun.
    + exact (IH Hrun Hall).
    + apply String.eqb_neq in E. destruct Hname as [Hname | Hname]; [contradiction|].
      unfold unlink in Hrun. rewrite Hname in Hrun. injection Hrun as _ <-. reflexivity.
Qed.

(** A second clear leaves the cleared directory as it is. *)
Lemma clear_traffic_cleared (s : store) :
  snd (clear_traffic
         (<["index.json" := Json (index_doc [])]> (unlink_all (json_entries s) s)))
  = <["index.json" := Json (index_doc [])]> (unlink_all (json_entries s) s).
Proof.
  set (s1 := <["index.json" := Json (index_doc [])]> (unlink_all (json_entries s) s)).
  assert (Forall (fun name => name = "index.json" \/ s1 !! name = None) (json_entries s1))
    as Hall.
  { rewrite Forall_forall. intros n Hn. apply json_entries_elem in Hn.
    destruct Hn as [He Hn]. apply entries_elem in Hn. destruct Hn as [path [_ Hpath]].
    destruct (decide (n = "index.json")) as [Hidx | Hidx]; [left; exact Hidx | right].
    apply cleared_gone; [exact Hidx | exact He |].
    rewrite <- Hpath. apply first_component_no_slash. }
  unfold clear_traffic, try_except, mbind, M_bind, glob_json, write_json.
  destruct (for_each (json_entries s1) delete_unless_index s1) as [[[]|e] s2] eqn:Hloop;
    rewrite (for_each_unlink_nothing _ _ _ _ Hloop Hall); simpl; [|reflexivity].
  destruct (writable INDEX_FILE && negb (is_directory INDEX_FILE s1)); [|reflexivity].
  apply insert_id. apply lookup_insert_eq.
Qed.

End Clearing.

(** ** The tools as functions of the index and the records *)

Section Runs.

Lemma export_loop_run (ids : list string) (acc : list Har.entry) (s : store) :
  foldM export_loop_body acc ids s = (export_scan (record_view s) acc ids, s).
Proof.
  revert acc. induction ids as [|id ids IH]; intros acc; [reflexivity|].
  simpl. unfold mbind at 1, M_bind, export_loop_body.
  unfold mbind at 1, M_bind. rewrite read_request_run. unfold record_view.
  destruct (loaded PyNone (s !! (id +:+ ".json"))) as [[|data|t]|err];
    try reflexivity; [apply IH|].
  unfold mbind, M_bind, result_bind, lift.
  destruct (har_entry data); [apply IH | reflexivity].
Qed.

Lemma tool_get_request_stats_run (p : Params.t) (s : store) :
  tool_get_request_stats p s = (requests ← index_view s; Ok (stats_render requests), s).
Proof.
  unfold tool_get_request_stats. rewrite index_bind.
  destruct (index_view s); reflexivity.
Qed.

Lemma tool_read_request_run (p : Params.t) (s : store) (id : string) :
  Params.request_id p = Some id -> id <> "" ->
  tool_read_request p s =
  (data ← record_view s id;
   match data with
   | None => Ok (not_found_text id)
   | Some data => format_record data
   end, s).
Proof.
  intros Hid Hne. unfold tool_read_request. rewrite Hid.
  destruct id as [|c id]; [contradiction|].
  change (negb (truthy (String c id))) with false. cbv iota.
  unfold mbind at 1, M_bind. rewrite read_request_run. unfold record_view.
  destruct (loaded PyNone (s !! (String c id +:+ ".json"))) as [[|data|t]|err]; reflexivity.
Qed.

(** The ids [tool_export_har] goes through: the supplied ones, or those of
    the index when none is supplied. *)
Lemma tool_export_har_run (p : Params.t) (s : store) :
  tool_export_har p s =
  (index ← loaded (PyDict (index_doc [])) (s !! "index.json");
   request_ids ←
     match default [] (Params.request_ids p) with
     | [] =>
         requests ← get_requests index;
         mapR (fun req => getitem "id" (Entry.id req)) requests
     | ids => Ok ids
     end;
   match request_ids with
   | [] => Ok (Plain "No requests to export.")
   | _ =>
       entries ← export_scan (record_view s) [] request_ids;
       Ok (JsonDumps (Har.mk_log "1.2" "mitmproxy-mcp" "1.0.0" entries))
   end, s).
Proof.
  unfold tool_export_har. cbv zeta.
  unfold mbind at 1, M_bind. rewrite read_index_run.
  destruct (loaded (PyDict (index_doc [])) (s !! "index.json")) as [index|err];
    [|reflexivity].
  cbn [mbind result_bind].
  assert (forall (ids : list string),
    (match ids with
     | [] => mret (Plain "No requests to export.")
     | _ :: _ =>
         foldM export_loop_body [] ids ≫= fun entries =>
         mret (JsonDumps (Har.mk_log "1.2" "mitmproxy-mcp" "1.0.0" entries))
     end) s =
    (match ids with
     | [] => Ok (Plain "No requests to export.")
     | _ :: _ =>
         entries ← export_scan (record_view s) [] ids;
         Ok (JsonDumps (Har.mk_log "1.2" "mitmproxy-mcp" "1.0.0" entries))
     end, s)) as Hloop.
  { intros [|id ids]; [reflexivity|].
    unfold mbind at 1, M_bind. rewrite export_loop_run.
    unfold mbind, result_bind. destruct (export_scan _ _ _); reflexivity. }
  destruct (default [] (Params.request_ids p)) as [|id ids].
  - unfold mbind at 1, M_bind. unfold mbind at 1, M_bind, lift.
    destruct (get_requests index) as [requests|err]; [|reflexivity].
    cbn [mbind result_bind].
    destruct (mapR _ requests) as [ids|err]; [|reflexivity].
    exact (Hloop ids).
  - exact (Hloop (id :: ids)).
Qed.

End Runs.

(** ** The claims on the store *)

Section StoreClaims.





End StoreClaims.

(** C3 fails on the code: an index file that is no UTF-8 text makes
    [json.load] raise [UnicodeDecodeError], which the [except] clause of
    [read_index] does not name; the exception leaves [read_index], and a
    [list_requests] call is answered with the internal error -32603
    instead of the empty listing. *)
Theorem store_reads_escalate {P : Permissions} {I : Type} (request_id : I) (s : store)
    (message : string) :
  s !! "index.json" = Some (Undecodable message) ->
  read_index s = (Raise (UnicodeDecodeError message), s) /\
  (forall p, tool_list_requests p s = (Raise (UnicodeDecodeError message), s)) /\
  (forall arguments,
     handle_tool_call request_id (Some "list_requests") arguments s =
       ((request_id, Error (-32603) message), s)).
Proof.
  intros H.
  assert (forall p, tool_list_requests p s = (Raise (UnicodeDecodeError message), s)) as Hlist.
  { intros p. rewrite tool_list_requests_run. unfold index_view. rewrite H. reflexivity. }
  split; [rewrite read_index_run, H; reflexivity|]. split; [exact Hlist|].
  intros arguments. unfold handle_tool_call. simpl. unfold plain, mbind, M_bind.
  rewrite Hlist. reflexivity.
Qed.

Lemma store_reads_escalate_witness :
  fst (handle_tool_call (P := Sample.permissive) 1 (Some "list_requests") None
         Sample.corrupt_index)
  = (1, Error (-32603)
          "'utf-8' codec can't decode byte 0xff in position 0: invalid start byte").
Proof.
  destruct (store_reads_escalate (P := Sample.permissive) 1 Sample.corrupt_index
              "'utf-8' codec can't decode byte 0xff in position 0: invalid start byte")
    as [_ [_ H]]; [reflexivity|].
  rewrite H. reflexivity.
Defined.




(** ** Reading one record *)

Section ReadingOne.

Lemma join_app (sep : string) (xs ys : list string) :
  xs <> [] -> ys <> [] -> join sep (xs ++ ys) = join sep xs +:+ sep +:+ join sep ys.
Proof.
  intros Hx Hy. induction xs as [|x xs IH]; [contradiction|].
  destruct xs as [|x' xs].
  - destruct ys as [|y ys]; [contradiction|]. reflexivity.
  - change (join sep ((x :: x' :: xs) ++ ys))
      with (x +:+ sep +:+ join sep ((x' :: xs) ++ ys)).
    rewrite IH by discriminate.
    change (join sep (x :: x' :: xs)) with (x +:+ sep +:+ join sep (x' :: xs)).
    rewrite !append_assoc. reflexivity.
Qed.

Tactic Notation "need_some" hyp(H) ident(o) :=
  destruct o as [o|]; [| simpl in H; discriminate H].

(** The text of a complete record: the lines up to the response body,
    then the response-body block. *)
Lemma format_record_text (data : Doc.t) (req : Request.t) (resp : Response.t) :
  record_complete data = true ->
  Doc.request data = Some req -> Doc.response data = Some resp ->
  forall block, response_body_lines resp = Ok block -> block <> [] ->
    format_record data =
      Ok (join nl
            (["=== REQUEST " +:+ default "" (Doc.id data) +:+ " ===";
              "Timestamp: " +:+ default "" (Doc.timestamp data);
              "";
              "--- REQUEST ---";
              default "" (Request.method req) +:+ " " +:+ default "" (Request.url req);
              "Host: " +:+ default "" (Request.host req) +:+ ":" +:+
                str_int (default 0 (Request.port req));
              "Scheme: " +:+ default "" (Request.scheme req);
              "";
              "Request Headers:"] ++
             map (fun kv => "  " +:+ kv.1 +:+ ": " +:+ kv.2)
                 (default [] (Request.headers req)) ++
             [""] ++
             (if truthy (default "" (Request.content req))
              then ["Request Body (" +:+
                      str_int (default 0 (Request.content_length req)) +:+ " bytes):";
                    default "" (Request.content req)]
              else ["Request Body: (empty)"]) ++
             [""; "--- RESPONSE ---";
              "Status: " +:+ str_int (default 0 (Response.status_code resp)) +:+ " " +:+
                default "" (Response.reason resp);
              "";
              "Response Headers:"] ++
             map (fun kv => "  " +:+ kv.1 +:+ ": " +:+ kv.2)
                 (default [] (Response.headers resp)) ++
             [""])
          +:+ nl +:+ join nl block).
Proof.
  intros H Hreq Hresp block Hb Hne.
  destruct data as [rqs id ts req0 resp0]. simpl in Hreq, Hresp. subst req0 resp0.
  unfold record_complete in H. simpl in H.
  need_some H id. need_some H ts.
  destruct req as [m u h po pa sc hd co cl]. unfold request_complete in H. simpl in H.
  need_some H m. need_some H u. need_some H h. need_some H po. need_some H sc.
  need_some H hd. need_some H co. need_some H cl.
  destruct resp as [st re rh rc rl]. unfold response_complete in H. simpl in H.
  need_some H st. need_some H re. need_some H rh. need_some H rc. need_some H rl.
  unfold format_record.
  cbn [Doc.request Doc.response Doc.id Doc.timestamp Request.method Request.url Request.host
       Request.port Request.scheme Request.headers Response.status_code Response.reason
       Response.headers getitem mbind result_bind].
  rewrite Hb. unfold request_body_lines.
  unfold header_lines, mbind, result_bind, mret, result_ret. simpl.
  set (A := ["=== REQUEST " +:+ id +:+ " ==="; "Timestamp: " +:+ ts; ""; "--- REQUEST ---";
             m +:+ " " +:+ u; "Host: " +:+ h +:+ ":" +:+ str_int po; "Scheme: " +:+ sc;
             ""; "Request Headers:"]).
  set (B := map (fun kv : string * string => "  " +:+ kv.1 +:+ ": " +:+ kv.2) hd).
  set (C := [""; "--- RESPONSE ---"; "Status: " +:+ str_int st +:+ " " +:+ re; "";
             "Response Headers:"]).
  set (D := map (fun kv : string * string => "  " +:+ kv.1 +:+ ": " +:+ kv.2) rh).
  assert (forall rb : list string,
    join nl (A ++ B ++ [""] ++ rb ++ C ++ D ++ [""] ++ block) =
    join nl (A ++ B ++ [""] ++ rb ++ C ++ D ++ [""]) +:+ nl +:+ join nl block) as Hsplit.
  { intros rb.
    replace (A ++ B ++ [""] ++ rb ++ C ++ D ++ [""] ++ block)
      with ((A ++ B ++ [""] ++ rb ++ C ++ D ++ [""]) ++ block)
      by (rewrite <- !app_assoc; reflexivity).
    apply join_app; [discriminate | exact Hne]. }
  destruct (truthy co); f_equal; apply Hsplit.
Qed.

End ReadingOne.

(** C6 fails on the code at the id "index": it is the id of no record, yet
    [read_request] opens the index file under it, and the call ends with
    the internal error -32603 and the message 'request' instead of the
    not-found result. *)
Theorem read_request_view :
  Forall (fun e => Entry.id e <> Some "index") (index_of Sample.traffic) /\
  fst (handle_tool_call (P := Sample.permissive) 9 (Some "read_request")
         (Some Session.read_index_id) Sample.traffic)
    = (9, Error (-32603) "'request'") /\
  fst (tool_read_request Session.read_index_id Sample.traffic) <>
    Ok "Error: Request with ID 'index' not found".
Proof.
  split; [repeat constructor; discriminate|].
  split; [reflexivity | discriminate].
Qed.

(** ** The claim on input errors *)

Section Dispatch.

Context {P : Permissions}.

Lemma handlers_unknown (name : string) :
  ~ In name tool_names -> handlers (Some name) = None.
Proof.
  intros H. unfold handlers.
  repeat match goal with
  | |- context [String.eqb name ?t] =>
      destruct (String.eqb name t) eqn:E;
      [apply String.eqb_eq in E; subst name; exfalso; apply H; simpl; tauto | clear E]
  end.
  reflexivity.
Qed.

End Dispatch.

(** C7, as stated, fails: a [read_request] call without [request_id] is
    answered with a result text, not with an error object. *)
Lemma tool_call_missing_parameter_counterexample :
  fst (handle_tool_call (P := Sample.permissive) 7 (Some "read_request") (Some Params.empty)
         Sample.empty)
    = (7, Result (Plain "Error: request_id is required")) /\
  ~ exists code message,
      fst (handle_tool_call (P := Sample.permissive) 7 (Some "read_request")
             (Some Params.empty) Sample.empty)
        = (7, Error code message).
Proof.
  split; [reflexivity|]. intros [code [message H]]. discriminate H.
Qed.

(** C7 (amended): a call that names an unknown tool is answered with the
    error code -32601 and a message that ends with the tool name; a
    [read_request] call without [request_id] and a [search_requests] call
    without [query] are answered with a result whose text names the
    missing parameter, and the store is left as it is. *)
Theorem tool_call_input_errors {P : Permissions} {I : Type} (request_id : I) (s : store) :
  (forall name arguments, ~ In name tool_names ->
     handle_tool_call request_id (Some name) arguments s =
       ((request_id, Error (-32601) ("Unknown tool: " +:+ name)), s)) /\
  (forall arguments, Params.request_id arguments = None ->
     handle_tool_call request_id (Some "read_request") (Some arguments) s =
       ((request_id, Result (Plain "Error: request_id is required")), s)) /\
  (forall arguments, Params.query arguments = None ->
     handle_tool_call request_id (Some "search_requests") (Some arguments) s =
       ((request_id, Result (Plain "Error: query is required")), s)).
Proof.
  split; [|split].
  - intros name arguments H. unfold handle_tool_call.
    rewrite (handlers_unknown name H). reflexivity.
  - intros arguments H. unfold handle_tool_call. simpl.
    unfold plain, mbind, M_bind, tool_read_request. rewrite H. reflexivity.
  - intros arguments H. unfold handle_tool_call. simpl.
    unfold plain, mbind, M_bind, tool_search_requests. rewrite H. reflexivity.
Qed.

(** ** Exporting *)

Section Exporting.

Lemma result_bind_ok {A B} (a : A) (f : A -> result B) : (Ok a ≫= f) = f a.
Proof. reflexivity. Qed.


Lemma export_scan_mapR (s : store) (ids : list string) (acc : list Har.entry) :
  forallb (record_ok s) ids = true ->
  export_scan (record_view s) acc ids =
  (entries ← mapR har_entry (pick (record_of s) ids); Ok (acc ++ entries)).
Proof.
  revert acc. induction ids as [|id ids IH]; intros acc Hok.
  - simpl. rewrite app_nil_r. reflexivity.
  - simpl in Hok. apply andb_true_iff in Hok. destruct Hok as [Hid Hids].
    simpl. rewrite (record_view_ok s id Hid). cbn [mbind result_bind].
    destruct (record_of s id) as [data|]; [|apply IH; exact Hids].
    simpl. unfold mbind, result_bind.
    destruct (har_entry data) as [e|]; [|reflexivity].
    rewrite (IH _ Hids). unfold mbind, result_bind.
    destruct (mapR har_entry (pick (record_of s) ids)); [|reflexivity].
    rewrite <- app_assoc. reflexivity.
Qed.

Lemma index_ok_loaded (s : store) :
  index_ok s = true ->
  exists index,
    loaded (PyDict (index_doc [])) (s !! "index.json") = Ok index /\
    get_requests index = Ok (index_of s).
Proof.
  unfold index_ok, index_of.
  destruct (s !! "index.json") as [[| |d|m| |t]|]; try discriminate; intros _;
    eexists; split; reflexivity.
Qed.

Tactic Notation "have_some" hyp(H) ident(o) :=
  destruct o as [o|]; [| simpl in H; discriminate H].

Lemma har_entry_complete (data : Doc.t) :
  record_complete data = true -> exists entry, har_entry data = Ok entry.
Proof.
  intros H. destruct data as [rqs id ts req resp]. unfold record_complete in H. simpl in H.
  have_some H id. have_some H ts. have_some H req.
  destruct req as [m u h po pa sc hd co cl]. unfold request_complete in H. simpl in H.
  have_some H m. have_some H u. have_some H h. have_some H po. have_some H sc.
  have_some H hd. have_some H co. have_some H cl.
  have_some H resp.
  destruct resp as [st re rh rc rl]. unfold response_complete in H. simpl in H.
  have_some H st. have_some H re. have_some H rh. have_some H rc. have_some H rl.
  eexists. reflexivity.
Qed.

Lemma resolved_complete (s : store) (ids : list string) :
  forallb (record_ok s) ids = true ->
  exists entries, mapR har_entry (resolved s ids) = Ok entries.
Proof.
  unfold resolved. induction ids as [|id ids IH]; intros H; [exists []; reflexivity|].
  simpl in H. apply andb_true_iff in H. destruct H as [Hid Hids].
  destruct (IH Hids) as [entries Hentries]. simpl.
  destruct (record_of s id) as [data|] eqn:Edata; [|exists entries; exact Hentries].
  destruct (har_entry_complete data (record_ok_complete s id data Hid Edata))
    as [entry Hentry].
  exists (entry :: entries). simpl. unfold mbind, result_bind.
  rewrite Hentry, Hentries. reflexivity.
Qed.

(** In a complete store every index entry has an id, and the records of
    these ids are complete. *)
Lemma index_ids_complete (s : store) (es : list Entry.t) :
  forallb (fun e => entry_complete e &&
                    match Entry.id e with Some id => record_ok s id | None => false end) es = true ->
  mapR (fun req => getitem "id" (Entry.id req)) es = Ok (pick Entry.id es) /\
  forallb (record_ok s) (pick Entry.id es) = true /\
  length (pick Entry.id es) = length es.
Proof.
  induction es as [|e es IH]; intros H; [repeat split|].
  simpl in H. apply andb_true_iff in H. destruct H as [He Hes].
  destruct (IH Hes) as [Hm [Hr Hl]]. apply andb_true_iff in He. destruct He as [_ He].
  simpl. unfold mbind, result_bind. destruct (Entry.id e) as [id|]; [|discriminate].
  simpl. rewrite Hm, He, Hr, Hl. repeat split.
Qed.


End Exporting.




(** ** The read side as a function of the JSON files *)

Section Determinism.

Variables s1 s2 : store.
Hypothesis Hsame : same_json_files s1 s2.

Lemma same_index : index_view s1 = index_view s2.
Proof. unfold index_view. rewrite (Hsame "index.json" eq_refl). reflexivity. Qed.

Lemma same_record (id : string) : record_view s1 id = record_view s2 id.
Proof. unfold record_view. rewrite (Hsame _ (endswith_append id ".json")). reflexivity. Qed.

Lemma same_search_scan (q : string) (sh : bool) (es : list Entry.t) (acc : list Match.t) :
  search_scan (record_view s1) q sh acc es = search_scan (record_view s2) q sh acc es.
Proof.
  revert acc. induction es as [|e es IH]; intros acc; [reflexivity|].
  simpl. unfold search_step, mbind, result_bind.
  destruct (getitem "id" (Entry.id e)) as [id|]; [|reflexivity].
  rewrite same_record. destruct (record_view s2 id) as [[data|]|]; [|apply IH|reflexivity].
  destruct (search_found_in q sh data) as [[|c found]|]; [apply IH | | reflexivity].
  destruct (getitem "method" (Entry.method e)); [|reflexivity].
  destruct (getitem "url" (Entry.url e)); [apply IH | reflexivity].
Qed.

Lemma same_export_scan (ids : list string) (acc : list Har.entry) :
  export_scan (record_view s1) acc ids = export_scan (record_view s2) acc ids.
Proof.
  revert acc. induction ids as [|id ids IH]; intros acc; [reflexivity|].
  simpl. rewrite same_record. unfold mbind, result_bind.
  destruct (record_view s2 id) as [[data|]|]; [|apply IH|reflexivity].
  destruct (har_entry data); [apply IH | reflexivity].
Qed.

Lemma same_read_request (p : Params.t) :
  snd (tool_read_request p s1) = s1 /\
  fst (tool_read_request p s1) = fst (tool_read_request p s2).
Proof.
  destruct (Params.request_id p) as [[|c id]|] eqn:Eid;
    try (unfold tool_read_request; rewrite Eid; split; reflexivity).
  rewrite !(tool_read_request_run p _ (String c id) Eid) by discriminate.
  rewrite same_record. split; reflexivity.
Qed.

Lemma same_export (p : Params.t) :
  fst (tool_export_har p s1) = fst (tool_export_har p s2).
Proof.
  rewrite !tool_export_har_run. cbn [fst].
  rewrite (Hsame "index.json" eq_refl).
  destruct (loaded (PyDict (index_doc [])) (s2 !! "index.json")) as [index|]; [|reflexivity].
  cbn [mbind result_bind].
  destruct (match default [] (Params.request_ids p) with
            | [] =>
                requests ← get_requests index;
                mapR (fun req => getitem "id" (Entry.id req)) requests
            | ids => Ok ids
            end) as [[|id ids]|]; try reflexivity.
  cbn [mbind result_bind]. rewrite same_export_scan. reflexivity.
Qed.

End Determinism.

(** ** The record codec *)

Section Codec.

Variable decode_utf8 : bytes -> option string.



Lemma response_file (request_id timestamp : string) (flow : Flow.t)
    (self_index : list Entry.t) (s : store) :
  request_id <> "index" ->
  snd (response decode_utf8 request_id timestamp flow self_index s)
    !! (request_id +:+ ".json")
  = Some (Json (request_data decode_utf8 request_id timestamp flow)).
Proof.
  intros Hne. unfold response. simpl.
  rewrite lookup_insert_ne by (intros H; symmetry in H; revert H; apply request_file_not_index; exact Hne).
  apply lookup_insert_eq.
Qed.

Lemma response_record (request_id timestamp : string) (flow : Flow.t)
    (self_index : list Entry.t) (s : store) :
  request_id <> "index" ->
  record_of (snd (response decode_utf8 request_id timestamp flow self_index s)) request_id
  = Some (request_data decode_utf8 request_id timestamp flow).
Proof.
  intros Hne. unfold record_of. rewrite response_file by exact Hne. reflexivity.
Qed.

End Codec.





(** ** The document's tests on sample data *)

(** [list_requests(limit=2)] on five matching entries returns the two that
    were appended last, in their original order. *)
Example list_limit_two_of_five :
  let e := fun id => Sample.entry id "GET" "http://example.com/" "example.com" 200 in
  list_filtered (Params.mk (Some 2) None None None None None None None None)
    [e "a1"; e "a2"; e "a3"; e "a4"; e "a5"] = [e "a4"; e "a5"].
Proof. reflexivity. Qed.

(** [export_har([])] on an empty store returns the "nothing to export" text. *)
Example export_empty_store :
  fst (tool_export_har Params.empty Sample.empty) = Ok (Plain "No requests to export.").
Proof. reflexivity. Qed.

(** The statistics list hosts by descending count, equal counts in the
    order of first appearance, and the status classes by label. *)
Example stats_groupings :
  fst (tool_get_request_stats Params.empty Sample.traffic) =
  Ok (join nl
        ["=== Traffic Statistics ==="; "Total Requests: 2";
         "Total Request Data: 0 bytes"; "Total Response Data: 10 bytes"; "";
         "By Host (top 10):"; "  example.com: 1"; "  example.org: 1"; "";
         "By Method:"; "  GET: 1"; "  POST: 1"; "";
         "By Status Code:"; "  2xx: 1"; "  4xx: 1"]).
Proof. vm_compute. reflexivity. Qed.

(** * Further properties of the code *)

(** ** Listing: bounds *)

Section ListingBounds.

Lemma filter_sublist {A} (f : A -> bool) (l : list A) : List.filter f l `sublist_of` l.
Proof.
  induction l as [|x l IH]; simpl; [constructor|].
  destruct (f x); [apply sublist_skip | apply sublist_cons]; exact IH.
Qed.

Lemma slice_from_length {A} (limit : Z) (l : list A) :
  0 < limit -> (length (slice_from (- limit) l) <= Z.to_nat limit)%nat.
Proof.
  intros H. unfold slice_from. rewrite length_drop.
  destruct (Z.ltb_spec (- limit) 0) as [_|]; [|lia].
  destruct (Z.ltb_spec (- limit + Z.of_nat (length l)) 0); lia.
Qed.

End ListingBounds.

(** X1: what [tool_list_requests] selects is a subsequence of the index (no
    entry is invented, repeated or reordered), every selected entry passes
    the filter tests, and under a positive limit at most [limit] entries
    are selected. *)
Theorem list_filtered_bounds (p : Params.t) (requests : list Entry.t) :
  list_filtered p requests `sublist_of` requests /\
  (forall e, In e (list_filtered p requests) -> list_keeps p e = true) /\
  (0 < default 100 (Params.limit p) ->
   (length (list_filtered p requests) <= Z.to_nat (default 100%Z (Params.limit p)))%nat).
Proof.
  assert (list_filtered p requests `sublist_of` List.filter (list_keeps p) requests) as Hsub.
  { unfold list_filtered. rewrite list_loop_filter. simpl.
    destruct (0 <? default 100 (Params.limit p)); [apply sublist_drop | reflexivity]. }
  split; [|split].
  - etransitivity; [exact Hsub | apply filter_sublist].
  - intros e He. apply list_elem_of_In in He.
    pose proof (elem_of_sublist _ _ _ He Hsub) as Hin.
    apply list_elem_of_In, filter_In in Hin. apply Hin.
  - intros Hl. unfold list_filtered.
    destruct (Z.ltb_spec 0 (default 100 (Params.limit p))) as [_|]; [|lia].
    apply slice_from_length. exact Hl.
Qed.

(** ** The dispatcher *)

Section DispatchEffects.

Context {P : Permissions}.

Lemma tool_read_request_store (p : Params.t) (s : store) :
  snd (tool_read_request p s) = s.
Proof.
  apply (same_read_request s s). intros name _. reflexivity.
Qed.

Lemma plain_store (tool : Params.t -> M string) (p : Params.t) (s : store) :
  snd (tool p s) = s -> snd (plain tool p s) = s.
Proof.
  unfold plain, mbind, M_bind. destruct (tool p s) as [[a|e] s']; simpl; auto.
Qed.

Lemma handlers_known (name : string) (h : Params.t -> M text) :
  handlers (Some name) = Some h -> In name tool_names.
Proof.
  intros H. destruct (in_dec string_dec name tool_names) as [Hin | Hout]; [exact Hin|].
  rewrite (handlers_unknown name Hout) in H. discriminate.
Qed.

Lemma handler_store (name : string) (h : Params.t -> M text) (p : Params.t) (s : store) :
  handlers (Some name) = Some h -> name <> "clear_requests" -> snd (h p s) = s.
Proof.
  intros H Hne. pose proof (handlers_known name h H) as Hin.
  simpl in Hin.
  destruct Hin as [<- | [<- | [<- | [<- | [<- | [<- | []]]]]]];
    try contradiction; simpl in H; injection H as <-.
  - apply plain_store. rewrite tool_list_requests_run. reflexivity.
  - apply plain_store. apply tool_read_request_store.
  - apply plain_store. rewrite tool_search_requests_run. reflexivity.
  - apply plain_store. rewrite tool_get_request_stats_run. reflexivity.
  - rewrite tool_export_har_run. reflexivity.
Qed.

Lemma handle_tool_call_store_free {I : Type} (request_id : I) (name : option string)
    (arguments : option Params.t) (s : store) :
  fst (fst (handle_tool_call request_id name arguments s)) = request_id.
Proof.
  unfold handle_tool_call. destruct (handlers name) as [h|]; [|reflexivity].
  destruct (h (default Params.empty arguments) s) as [[t|e] s']; reflexivity.
Qed.

Lemma handle_tool_call_store {I : Type} (request_id : I) (name : option string)
    (arguments : option Params.t) (s : store) :
  name <> Some "clear_requests" -> snd (handle_tool_call request_id name arguments s) = s.
Proof.
  intros Hne. unfold handle_tool_call. destruct (handlers name) as [h|] eqn:Hh; [|reflexivity].
  destruct name as [n|]; [|discriminate Hh].
  pose proof (handler_store n h (default Params.empty arguments) s Hh) as Hs.
  destruct (h (default Params.empty arguments) s) as [[t|e] s']; simpl in *;
    apply Hs; congruence.
Qed.

End DispatchEffects.

(** X2: [handle_tool_call] always answers with the id it was given; only a
    call of [clear_requests] can change the traffic directory; and an
    error reply has the code -32601 exactly when the tool name is not in
    the handler table, and the code -32603 otherwise. *)
Theorem handle_tool_call_effects {P : Permissions} {I : Type} (request_id : I)
    (name : option string)
    (arguments : option Params.t) (s : store) :
  fst (fst (handle_tool_call request_id name arguments s)) = request_id /\
  (name <> Some "clear_requests" -> snd (handle_tool_call request_id name arguments s) = s) /\
  (forall code message,
     snd (fst (handle_tool_call request_id name arguments s)) = Error code message ->
     (handlers name = None /\ code = -32601) \/ (handlers name <> None /\ code = -32603)).
Proof.
  unfold handle_tool_call.
  destruct (handlers name) as [h|] eqn:Hh.
  - destruct (h (default Params.empty arguments) s) as [[t|e] s'] eqn:Hrun; simpl.
    + split; [reflexivity|]. split; [|discriminate].
      intros Hne. destruct name as [n|]; [|discriminate Hh].
      rewrite <- (handler_store n h (default Params.empty arguments) s Hh) by congruence.
      rewrite Hrun. reflexivity.
    + split; [reflexivity|]. split.
      * intros Hne. destruct name as [n|]; [|discriminate Hh].
        rewrite <- (handler_store n h (default Params.empty arguments) s Hh) by congruence.
        rewrite Hrun. reflexivity.
      * intros code message H. injection H as <- _. right. split; [discriminate | reflexivity].
  - simpl. split; [reflexivity|]. split; [reflexivity|].
    intros code message H. injection H as <- _. left. split; reflexivity.
Qed.

(** ** The protocol loop *)

Section Loop.

Context {P : Permissions} {I : Type}.

Lemma main_turn_answer (l : line I) (s : store) :
  match fst (main_turn l s) with
  | None => answered l = false
  | Some response => answered l = true /\ response.1 = line_id l
  end.
Proof.
  destruct l as [| |[id method params]]; try reflexivity.
  unfold main_turn, answered, line_id. simpl.
  destruct method as [m|].
  - destruct (decide (m = "initialize")) as [-> | H1]; [simpl; auto|].
    rewrite (bool_decide_eq_false_2 (Some m = Some "initialize")) by congruence.
    destruct (decide (m = "notifications/initialized")) as [-> | H2]; [reflexivity|].
    rewrite (bool_decide_eq_false_2 (Some m = Some "notifications/initialized")) by congruence.
    apply String.eqb_neq in H2. rewrite H2.
    destruct (decide (m = "tools/list")) as [-> | H3]; [simpl; auto|].
    rewrite (bool_decide_eq_false_2 (Some m = Some "tools/list")) by congruence.
    destruct (decide (m = "tools/call")) as [-> | H4].
    { simpl.
      pose proof (handle_tool_call_store_free id
                    (Call.name (default Call.empty params))
                    (Call.arguments (default Call.empty params)) s) as Hid.
      destruct (handle_tool_call id _ _ s) as [[id' p] s']. simpl in *. auto. }
    rewrite (bool_decide_eq_false_2 (Some m = Some "tools/call")) by congruence.
    destruct (decide (m = "resources/list")) as [-> | H5]; [simpl; auto|].
    rewrite (bool_decide_eq_false_2 (Some m = Some "resources/list")) by congruence.
    apply String.eqb_neq in H1, H3, H4, H5. simpl. rewrite H1, H3, H4, H5. simpl.
    destruct id; simpl; auto.
  - simpl. destruct id; simpl; auto.
Qed.

Lemma main_turn_store (l : line I) (s : store) :
  is_clear_call l = false -> snd (main_turn l s) = s.
Proof.
  destruct l as [| |[id method params]]; try reflexivity.
  unfold main_turn, is_clear_call. simpl. intros Hc.
  destruct (bool_decide (method = Some "initialize")); [reflexivity|].
  destruct (bool_decide (method = Some "notifications/initialized")); [reflexivity|].
  destruct (bool_decide (method = Some "tools/list")); [reflexivity|].
  destruct (bool_decide (method = Some "tools/call")).
  - simpl in Hc. apply bool_decide_eq_false in Hc.
    pose proof (handle_tool_call_store id (Call.name (default Call.empty params))
                  (Call.arguments (default Call.empty params)) s Hc) as Hs.
    destruct (handle_tool_call id _ _ s) as [r s']. exact Hs.
  - destruct (bool_decide (method = Some "resources/list")); [reflexivity|].
    destruct id; reflexivity.
Qed.

Lemma main_out (lines : list (line I)) (out : list (Message.t I)) (s : store) :
  main lines out s = (out ++ fst (main lines [] s), snd (main lines [] s)).
Proof.
  revert out s. induction lines as [|l lines IH]; intros out s; simpl.
  - rewrite app_nil_r. reflexivity.
  - destruct (main_turn l s) as [[response|] s']; [|apply IH].
    rewrite IH, (IH (send_response response [])). unfold send_response. simpl.
    rewrite <- app_assoc. reflexivity.
Qed.

End Loop.

Section LoopClaims.

Context {P : Permissions} {I : Type}.

Lemma main_ids (lines : list (line I)) (s : store) :
  map Message.id (fst (main lines [] s)) = map line_id (List.filter answered lines) /\
  Forall (fun m => Message.jsonrpc m = "2.0") (fst (main lines [] s)).
Proof.
  revert s. induction lines as [|l lines IH]; intros s; [split; [reflexivity | constructor]|].
  simpl. pose proof (main_turn_answer l s) as Hturn.
  destruct (main_turn l s) as [[response|] s']; simpl in Hturn.
  - destruct Hturn as [Ha Hid]. rewrite Ha, main_out. simpl.
    destruct (IH s') as [Hids Hver]. rewrite Hids, Hid. split; [reflexivity|].
    constructor; [reflexivity | exact Hver].
  - rewrite Hturn. apply IH.
Qed.

End LoopClaims.

(** X3: over a whole session [main] writes one response for each request
    that is neither the notification [notifications/initialized] nor an
    unknown method without an id, in the order of the input, each with the
    id of its request (also when that id is absent) and with
    [jsonrpc = "2.0"]; blank and unparseable lines are passed over. *)
Theorem main_responses {P : Permissions} {I : Type} (lines : list (line I)) (s : store) :
  map Message.id (fst (main lines [] s)) = map line_id (List.filter answered lines) /\
  Forall (fun m => Message.jsonrpc m = "2.0") (fst (main lines [] s)) /\
  length (fst (main lines [] s)) = length (List.filter answered lines).
Proof.
  destruct (main_ids lines s) as [Hids Hver]. split; [exact Hids|]. split; [exact Hver|].
  rewrite <- (length_map Message.id), Hids, length_map. reflexivity.
Qed.

(** X4: a session without a [tools/call] of [clear_requests] leaves the
    traffic directory exactly as it found it, whatever else it calls and
    however those calls end. *)
Theorem main_store_unchanged {P : Permissions} {I : Type} (lines : list (line I))
    (s : store) :
  forallb (fun l => negb (is_clear_call l)) lines = true ->
  snd (main lines [] s) = s.
Proof.
  revert s. induction lines as [|l lines IH]; intros s H; [reflexivity|].
  simpl in H. apply andb_true_iff in H. destruct H as [Hl Hrest].
  apply negb_true_iff in Hl. simpl.
  pose proof (main_turn_store l s Hl) as Hs.
  destruct (main_turn l s) as [[response|] s']; simpl in Hs; subst s'.
  - rewrite main_out. simpl. apply IH. exact Hrest.
  - apply IH. exact Hrest.
Qed.

Lemma main_store_unchanged_witness :
  snd (main (P := Sample.permissive) Session.browse [] Sample.traffic) = Sample.traffic.
Proof.
  apply (main_store_unchanged (P := Sample.permissive) Session.browse Sample.traffic).
  reflexivity.
Defined.

(** X5: the tools that [handle_tools_list] advertises are exactly the names
    that [handle_tool_call] dispatches: an advertised tool is never
    answered with "Unknown tool", and no handler is left unadvertised. *)
Theorem advertised_tools_are_handled {P : Permissions} (name : string) :
  In name (map Tool.name tools) <-> exists handler, handlers (Some name) = Some handler.
Proof.
  split.
  - simpl. intros [<- | [<- | [<- | [<- | [<- | [<- | []]]]]]]; eexists; reflexivity.
  - intros [handler H]. exact (handlers_known name handler H).
Qed.

(** X6: every parameter that the advertised schema of a tool marks as
    required is enforced by the tool: a call whose arguments give neither
    [request_id] nor [query] is answered, for each required parameter of
    the called tool, with the text "Error: <parameter> is required", and
    the directory is not touched. *)
Theorem required_parameters_enforced {P : Permissions} {I : Type} (request_id : I)
    (s : store)
    (tool : Tool.t) (parameter : string) (arguments : Params.t) :
  In tool tools -> In parameter (Tool.required tool) ->
  Params.request_id arguments = None -> Params.query arguments = None ->
  handle_tool_call request_id (Some (Tool.name tool)) (Some arguments) s =
    ((request_id, Result (Plain ("Error: " +:+ parameter +:+ " is required"))), s).
Proof.
  intros Htool Hparam Hid Hq. simpl in Htool.
  destruct Htool as [<- | [<- | [<- | [<- | [<- | [<- | []]]]]]]; simpl in Hparam;
    try contradiction; destruct Hparam as [<- | []];
    unfold handle_tool_call; simpl; unfold plain, mbind, M_bind.
  - unfold tool_read_request. rewrite Hid. reflexivity.
  - unfold tool_search_requests. rewrite Hq. reflexivity.
Qed.

Lemma required_parameters_enforced_witness :
  handle_tool_call (P := Sample.permissive) 5 (Some "search_requests") (Some Params.empty)
    Sample.traffic =
    ((5, Result (Plain "Error: query is required")), Sample.traffic).
Proof.
  apply (required_parameters_enforced (P := Sample.permissive) 5 Sample.traffic
           (Tool.mk "search_requests"
              "Search through captured requests by content. Searches both request and response bodies."
              [Property.mk "query" "string" None "Search query to find in request/response bodies";
               Property.mk "search_headers" "boolean" None "Also search in headers (default: false)"]
              ["query"]) "query" Params.empty);
    [simpl; tauto | simpl; tauto | reflexivity | reflexivity].
Defined.

(** ** Statistics *)

Section Counters.

Lemma dict_get_set_eq {V} (k : string) (v dflt : V) (d : list (string * V)) :
  dict_get k (dict_set k v d) dflt = v.
Proof.
  induction d as [|[k' v'] d IH]; simpl.
  - rewrite String.eqb_refl. reflexivity.
  - destruct (String.eqb k k') eqn:E; simpl; rewrite E; [reflexivity | exact IH].
Qed.

Lemma dict_get_set_ne {V} (k k' : string) (v dflt : V) (d : list (string * V)) :
  k <> k' -> dict_get k' (dict_set k v d) dflt = dict_get k' d dflt.
Proof.
  intros Hne. induction d as [|[k0 v0] d IH]; simpl.
  - apply not_eq_sym, String.eqb_neq in Hne. rewrite Hne. reflexivity.
  - destruct (String.eqb k k0) eqn:E; simpl.
    + apply String.eqb_eq in E. subst k0.
      apply not_eq_sym, String.eqb_neq in Hne. rewrite Hne. reflexivity.
    + destruct (String.eqb k' k0); [reflexivity | exact IH].
Qed.

Lemma dict_set_keys {V} (k : string) (v : V) (d : list (string * V)) :
  map fst (dict_set k v d) =
  if existsb (String.eqb k) (map fst d) then map fst d else map fst d ++ [k].
Proof.
  induction d as [|[k' v'] d IH]; simpl; [reflexivity|].
  destruct (String.eqb k k') eqn:E; simpl; [reflexivity|].
  rewrite IH. destruct (existsb (String.eqb k) (map fst d)); reflexivity.
Qed.

Lemma existsb_eqb_In (k : string) (l : list string) :
  existsb (String.eqb k) l = true <-> In k l.
Proof.
  rewrite existsb_exists. split.
  - intros [x [Hin Hx]]. apply String.eqb_eq in Hx. subst. exact Hin.
  - intros Hin. exists k. split; [exact Hin | apply String.eqb_refl].
Qed.

Lemma dict_set_NoDup {V} (k : string) (v : V) (d : list (string * V)) :
  List.NoDup (map fst d) -> List.NoDup (map fst (dict_set k v d)).
Proof.
  intros Hd. rewrite dict_set_keys.
  destruct (existsb (String.eqb k) (map fst d)) eqn:E; [exact Hd|].
  apply NoDup_ListNoDup, NoDup_app. split; [apply NoDup_ListNoDup; exact Hd|].
  split; [|apply NoDup_singleton].
  intros x Hx Hk. apply list_elem_of_In in Hx. apply list_elem_of_singleton in Hk. subst x.
  apply existsb_eqb_In in Hx. congruence.
Qed.

Lemma dict_incr_total (k : string) (d : list (string * Z)) :
  total_count (dict_set k (dict_get k d 0 + 1) d) = total_count d + 1.
Proof.
  induction d as [|[k' v'] d IH]; simpl; [lia|].
  destruct (String.eqb k k'); simpl; [lia | rewrite IH; lia].
Qed.

Variable key : Entry.t -> string.

Lemma tally_get (k : string) (l : list Entry.t) (d : list (string * Z)) :
  dict_get k (tally key l d) 0 = dict_get k d 0 + occurrences key k l.
Proof.
  unfold occurrences. revert d. induction l as [|e l IH]; intros d; simpl; [lia|].
  change (tally key (e :: l) d)
    with (tally key l (dict_set (key e) (dict_get (key e) d 0 + 1) d)).
  rewrite IH. destruct (String.eqb (key e) k) eqn:E.
  - apply String.eqb_eq in E. subst k. rewrite dict_get_set_eq. simpl length. lia.
  - apply String.eqb_neq in E. rewrite dict_get_set_ne by exact E. lia.
Qed.

Lemma tally_NoDup (l : list Entry.t) (d : list (string * Z)) :
  List.NoDup (map fst d) -> List.NoDup (map fst (tally key l d)).
Proof.
  revert d. induction l as [|e l IH]; intros d Hd; [exact Hd|].
  apply IH, dict_set_NoDup, Hd.
Qed.

Lemma tally_total (l : list Entry.t) (d : list (string * Z)) :
  total_count (tally key l d) = total_count d + Z.of_nat (length l).
Proof.
  revert d. induction l as [|e l IH]; intros d; [simpl; lia|].
  change (tally key (e :: l) d)
    with (tally key l (dict_set (key e) (dict_get (key e) d 0 + 1) d)).
  rewrite IH, dict_incr_total. simpl length. lia.
Qed.

Lemma tally_keys (k : string) (l : list Entry.t) (d : list (string * Z)) :
  In k (map fst (tally key l d)) <-> In k (map fst d) \/ exists e, In e l /\ key e = k.
Proof.
  revert d. induction l as [|e l IH]; intros d.
  - simpl. split; [auto | intros [H | [e [[] _]]]; exact H].
  - change (tally key (e :: l) d)
      with (tally key l (dict_set (key e) (dict_get (key e) d 0 + 1) d)).
    rewrite IH, dict_set_keys.
    destruct (existsb (String.eqb (key e)) (map fst d)) eqn:E.
    + apply existsb_eqb_In in E. split.
      * intros [H | [e' [Hin He']]]; [auto | right; exists e'; simpl; auto].
      * intros [H | [e' [[<- | Hin] He']]]; [auto | left; subst k; exact E
                                            | right; exists e'; auto].
    + rewrite in_app_iff. simpl. split.
      * intros [[H | [H | []]] | [e' [Hin He']]];
          [auto | right; exists e; auto | right; exists e'; auto].
      * intros [H | [e' [[<- | Hin] He']]]; [auto | auto | right; exists e'; auto].
Qed.

End Counters.

Section StatsLoop.

Lemma stats_of_fold (l : list Entry.t) (acc : Stats.t) :
  foldl stats_loop_body acc l =
  Stats.mk (tally host_key l (Stats.by_host acc))
           (tally method_key l (Stats.by_method acc))
           (tally status_key l (Stats.by_status acc))
           (Stats.total_request_size acc
            + foldr Z.add 0 (map (fun e => default 0 (Entry.request_size e)) l))
           (Stats.total_response_size acc
            + foldr Z.add 0 (map (fun e => default 0 (Entry.response_size e)) l)).
Proof.
  revert acc. induction l as [|e l IH]; intros acc.
  - destruct acc. simpl. f_equal; lia.
  - simpl. rewrite IH. unfold stats_loop_body, tally. simpl. f_equal; lia.
Qed.

End StatsLoop.

(** X7: in the counters of [get_request_stats] every key stands once, the
    count under a host (method, status class) is the number of index
    entries with that host (method, status class), an absent host or
    method being counted under "unknown" and an absent status under "0xx",
    and a key is listed only if some entry has it. *)
Theorem stats_counts_exact (requests : list Entry.t) (k : string) :
  let acc := stats_of requests in
  (List.NoDup (map fst (Stats.by_host acc)) /\
   dict_get k (Stats.by_host acc) 0 = occurrences host_key k requests /\
   (In k (map fst (Stats.by_host acc)) <-> exists e, In e requests /\ host_key e = k)) /\
  (List.NoDup (map fst (Stats.by_method acc)) /\
   dict_get k (Stats.by_method acc) 0 = occurrences method_key k requests /\
   (In k (map fst (Stats.by_method acc)) <-> exists e, In e requests /\ method_key e = k)) /\
  (List.NoDup (map fst (Stats.by_status acc)) /\
   dict_get k (Stats.by_status acc) 0 = occurrences status_key k requests /\
   (In k (map fst (Stats.by_status acc)) <-> exists e, In e requests /\ status_key e = k)).
Proof.
  cbv zeta. unfold stats_of. rewrite stats_of_fold. simpl.
  repeat split; try (apply tally_NoDup; constructor); try (rewrite tally_get; reflexivity);
    try (intros H; apply tally_keys in H; destruct H as [[] | H]; exact H);
    try (intros H; apply tally_keys; right; exact H).
Qed.

(** X8: the totals of [get_request_stats] add up: the counts of each of the
    three groupings sum to the number of index entries, and the two data
    totals are the sums of the entries' sizes, an absent size counting 0. *)
Theorem stats_totals (requests : list Entry.t) :
  let acc := stats_of requests in
  total_count (Stats.by_host acc) = Z.of_nat (length requests) /\
  total_count (Stats.by_method acc) = Z.of_nat (length requests) /\
  total_count (Stats.by_status acc) = Z.of_nat (length requests) /\
  Stats.total_request_size acc =
    foldr Z.add 0 (map (fun e => default 0 (Entry.request_size e)) requests) /\
  Stats.total_response_size acc =
    foldr Z.add 0 (map (fun e => default 0 (Entry.response_size e)) requests).
Proof.
  cbv zeta. unfold stats_of. rewrite stats_of_fold. simpl.
  rewrite !tally_total. simpl. repeat split; lia.
Qed.

Section Sorting.

Context {A : Type} (le : A -> A -> bool).
Hypothesis le_total : forall x y, le x y = false -> le y x = true.

Lemma sorted_insert_perm (x : A) (l : list A) : Permutation (sorted_insert le x l) (x :: l).
Proof.
  induction l as [|y l IH]; simpl; [reflexivity|].
  destruct (le x y); [reflexivity|].
  rewrite IH. apply perm_swap.
Qed.

Lemma sorted_perm (l : list A) : Permutation (sorted le l) l.
Proof.
  induction l as [|x l IH]; simpl; [reflexivity|].
  unfold sorted in *. simpl. rewrite sorted_insert_perm, IH. reflexivity.
Qed.

Lemma sorted_insert_sorted (x : A) (l : list A) :
  Sorted (fun a b => le a b = true) l ->
  Sorted (fun a b => le a b = true) (sorted_insert le x l).
Proof.
  induction 1 as [|y l Hl IH Hhd]; simpl; [repeat constructor|].
  destruct (le x y) eqn:E.
  - constructor; [constructor; assumption | constructor; exact E].
  - constructor; [exact IH|].
    destruct l as [|z l]; simpl.
    + constructor. apply le_total. exact E.
    + destruct (le x z); constructor; [apply le_total; exact E | inversion Hhd; assumption].
Qed.

Lemma sorted_sorted (l : list A) : Sorted (fun a b => le a b = true) (sorted le l).
Proof.
  induction l as [|x l IH]; [constructor|].
  unfold sorted in *. simpl. apply sorted_insert_sorted. exact IH.
Qed.

End Sorting.

Section Ranking.

Lemma by_count_desc_total (x y : string * Z) :
  by_count_desc x y = false -> by_count_desc y x = true.
Proof. unfold by_count_desc. intros H. apply Z.leb_gt in H. apply Z.leb_le. lia. Qed.

Lemma by_item_total (x y : string * Z) : by_item x y = false -> by_item y x = true.
Proof.
  unfold by_item, String.ltb, String.eqb. intros H.
  apply orb_false_iff in H. destruct H as [Hlt Heq].
  rewrite (String.compare_antisym y.1 x.1).
  destruct (String.compare x.1 y.1) eqn:E; simpl in *; try discriminate; [|reflexivity].
  apply String.compare_eq_iff in E. 
  rewrite E in *. rewrite String.eqb_refl in *. simpl in *.
  apply Z.leb_gt in Heq. apply Z.leb_le. lia.
Qed.

Lemma strongly_sorted_app {B} (R : B -> B -> Prop) (l1 l2 : list B) :
  StronglySorted R (l1 ++ l2) -> forall x y, In x l1 -> In y l2 -> R x y.
Proof.
  induction l1 as [|a l1 IH]; intros H x y Hx Hy; [destruct Hx|].
  simpl in H. inversion H as [|? ? Hs Hall]; subst.
  destruct Hx as [<- | Hx]; [|exact (IH Hs x y Hx Hy)].
  rewrite List.Forall_forall in Hall. apply Hall, in_or_app. right. exact Hy.
Qed.

End Ranking.

Section StableSorting.

Context {A : Type} (le : A -> A -> bool).
Hypothesis le_refl : forall x, le x x = true.
Hypothesis le_total : forall x y, le x y = false -> le y x = true.
Hypothesis le_trans : forall x y z, le x y = true -> le y z = true -> le x z = true.

Lemma sorted_strongly (l : list A) :
  StronglySorted (fun x y => le x y = true) (sorted le l).
Proof.
  apply Sorted_StronglySorted; [intros x y z; apply le_trans|].
  apply sorted_sorted. exact le_total.
Qed.

(** Insertion puts an element in front of those the order does not tell
    apart from it. *)
Lemma sorted_insert_class (z x : A) (l : list A) :
  List.filter (fun y => le z y && le y z) (sorted_insert le x l) =
  List.filter (fun y => le z y && le y z) (x :: l).
Proof.
  induction l as [|y l IH]; [reflexivity|].
  simpl. destruct (le x y) eqn:Exy; [reflexivity|].
  simpl. rewrite IH. simpl.
  destruct (le z y && le y z) eqn:Ey; destruct (le z x && le x z) eqn:Ex; try reflexivity.
  apply andb_true_iff in Ey. apply andb_true_iff in Ex.
  rewrite (le_trans x z y) in Exy by tauto. discriminate.
Qed.

Lemma sorted_class (z : A) (d : list A) :
  List.filter (fun y => le z y && le y z) (sorted le d) =
  List.filter (fun y => le z y && le y z) d.
Proof.
  induction d as [|x d IH]; [reflexivity|].
  change (sorted le (x :: d)) with (sorted_insert le x (sorted le d)).
  rewrite sorted_insert_class. simpl. rewrite IH. reflexivity.
Qed.

(** The model of [sorted] meets the contract. *)
Lemma sorted_stably (d : list A) : stably_sorted le d (sorted le d).
Proof. split; [apply sorted_strongly | intros z; apply sorted_class]. Qed.

Lemma filter_class_head (x : A) (l : list A) :
  List.filter (fun y => le x y && le y x) (x :: l) =
  x :: List.filter (fun y => le x y && le y x) l.
Proof. simpl. rewrite le_refl. reflexivity. Qed.

(** Two lists in order with the same elements in each class are equal. *)
Lemma class_sorted_unique (l1 l2 : list A) :
  StronglySorted (fun x y => le x y = true) l1 ->
  StronglySorted (fun x y => le x y = true) l2 ->
  (forall z, List.filter (fun y => le z y && le y z) l1 =
             List.filter (fun y => le z y && le y z) l2) ->
  l1 = l2.
Proof.
  revert l2. induction l1 as [|x l1 IH]; intros l2 H1 H2 H.
  - destruct l2 as [|y l2]; [reflexivity|].
    specialize (H y). rewrite filter_class_head in H. discriminate.
  - destruct l2 as [|y l2].
    { specialize (H x). rewrite filter_class_head in H. discriminate. }
    inversion H1 as [|? ? Hs1 Hall1]; subst. inversion H2 as [|? ? Hs2 Hall2]; subst.
    rewrite List.Forall_forall in Hall1, Hall2.
    assert (x = y) as <-.
    { pose proof (H x) as Hx. rewrite filter_class_head in Hx. simpl in Hx.
      destruct (le x y && le y x) eqn:Exy; [injection Hx as Hx _; exact Hx|].
      assert (In x l2) as Hin2.
      { eapply (proj1 (filter_In _ x l2)). rewrite <- Hx. left. reflexivity. }
      pose proof (Hall2 x Hin2) as Hyx.
      pose proof (H y) as Hy. rewrite filter_class_head in Hy. simpl in Hy.
      rewrite andb_comm, Exy in Hy.
      assert (In y l1) as Hin1.
      { eapply (proj1 (filter_In _ y l1)). rewrite Hy. left. reflexivity. }
      pose proof (Hall1 y Hin1) as Hxy. rewrite Hxy, Hyx in Exy. discriminate. }
    f_equal. apply IH; [exact Hs1 | exact Hs2|].
    intros z. specialize (H z). simpl in H.
    destruct (le z x && le x z); [injection H as H|]; exact H.
Qed.

(** What meets the contract of [sorted] is what the model of [sorted] gives. *)
Lemma stably_sorted_unique (d l : list A) : stably_sorted le d l -> l = sorted le d.
Proof.
  intros [Hs Hc]. apply class_sorted_unique; [exact Hs | apply sorted_strongly|].
  intros z. rewrite Hc, sorted_class. reflexivity.
Qed.

End StableSorting.

Section Orders.

Lemma by_count_desc_refl (x : string * Z) : by_count_desc x x = true.
Proof. unfold by_count_desc. apply Z.leb_refl. Qed.

Lemma by_count_desc_trans (x y z : string * Z) :
  by_count_desc x y = true -> by_count_desc y z = true -> by_count_desc x z = true.
Proof. unfold by_count_desc. rewrite !Z.leb_le. lia. Qed.

Lemma ltb_lt (a b : string) : String.ltb a b = true <-> String_as_OT.lt a b.
Proof.
  rewrite <- String_as_OT.cmp_lt. unfold String.ltb, String_as_OT.cmp.
  destruct (String.compare a b); split; congruence.
Qed.

Lemma ltb_trans (a b c : string) :
  String.ltb a b = true -> String.ltb b c = true -> String.ltb a c = true.
Proof. rewrite !ltb_lt. apply String_as_OT.lt_trans. Qed.

Lemma by_item_refl (x : string * Z) : by_item x x = true.
Proof.
  unfold by_item. rewrite String.eqb_refl, Z.leb_refl. apply orb_true_r.
Qed.

Lemma by_item_trans (x y z : string * Z) :
  by_item x y = true -> by_item y z = true -> by_item x z = true.
Proof.
  unfold by_item. rewrite !orb_true_iff, !andb_true_iff, !String.eqb_eq, !Z.leb_le.
  intros [Hxy | [Exy Hxy]] [Hyz | [Eyz Hyz]].
  - left. exact (ltb_trans _ _ _ Hxy Hyz).
  - left. rewrite <- Eyz. exact Hxy.
  - left. rewrite Exy. exact Hyz.
  - right. split; [congruence | lia].
Qed.

End Orders.

Section CounterOrder.

Lemma filter_implied {B} (f g : B -> bool) (l : list B) :
  (forall x, f x = true -> g x = true) -> List.filter f (List.filter g l) = List.filter f l.
Proof.
  intros H. induction l as [|x l IH]; [reflexivity|]. simpl.
  destruct (g x) eqn:Eg; simpl.
  - rewrite IH. reflexivity.
  - destruct (f x) eqn:Ef; [rewrite (H x Ef) in Eg; discriminate | exact IH].
Qed.

Lemma filter_both {B} (f g h : B -> bool) (l : list B) :
  (forall x, h x = g x && f x) -> List.filter f (List.filter g l) = List.filter h l.
Proof.
  intros H. induction l as [|x l IH]; [reflexivity|]. simpl. rewrite (H x).
  destruct (g x); simpl; [|exact IH].
  destruct (f x); rewrite IH; reflexivity.
Qed.

Lemma filter_all {B} (f : B -> bool) (l : list B) :
  (forall x, f x = true) -> List.filter f l = l.
Proof.
  intros H. induction l as [|x l IH]; [reflexivity|]. simpl. rewrite (H x), IH. reflexivity.
Qed.

Variable key : Entry.t -> string.

(** The keys of a counter stand in the order in which the loop met them. *)
Lemma tally_order (l : list Entry.t) (d : list (string * Z)) :
  map fst (tally key l d) =
  map fst d ++
  List.filter (fun k => negb (existsb (String.eqb k) (map fst d))) (distinct (map key l)).
Proof.
  revert d. induction l as [|e l IH]; intros d.
  - simpl. rewrite app_nil_r. reflexivity.
  - change (tally key (e :: l) d)
      with (tally key l (dict_set (key e) (dict_get (key e) d 0 + 1) d)).
    rewrite IH, dict_set_keys. simpl.
    destruct (existsb (String.eqb (key e)) (map fst d)) eqn:E; simpl.
    + f_equal. symmetry. apply filter_implied. intros k Hk.
      apply negb_true_iff in Hk. apply negb_true_iff. apply String.eqb_neq. intros ->.
      congruence.
    + rewrite <- app_assoc. simpl. f_equal. f_equal. symmetry. apply filter_both.
      intros k. rewrite existsb_app. simpl. rewrite orb_false_r, negb_orb.
      apply andb_comm.
  Qed.

Lemma dict_as_map (d : list (string * Z)) :
  List.NoDup (map fst d) -> d = map (fun k => (k, dict_get k d 0)) (map fst d).
Proof.
  induction d as [|[k v] d IH]; intros Hnd; [reflexivity|].
  simpl in Hnd. inversion Hnd as [|? ? Hk Hnd']; subst.
  simpl. rewrite String.eqb_refl. f_equal.
  rewrite (IH Hnd') at 1. apply map_ext_in. intros k' Hk'.
  destruct (String.eqb k' k) eqn:E; [|reflexivity].
  apply String.eqb_eq in E. subst k'. contradiction.
Qed.

(** The counter of the loop is the counter of the first occurrences. *)
Lemma tally_counter (l : list Entry.t) : tally key l [] = counter key l.
Proof.
  rewrite (dict_as_map (tally key l [])) by (apply tally_NoDup; constructor).
  rewrite tally_order. simpl. rewrite filter_all by reflexivity.
  unfold counter. apply map_ext. intros k. rewrite tally_get. reflexivity.
Qed.

End CounterOrder.

Section StatsText.

Lemma stats_of_counters (l : list Entry.t) :
  Stats.by_host (stats_of l) = counter host_key l /\
  Stats.by_method (stats_of l) = counter method_key l /\
  Stats.by_status (stats_of l) = counter status_key l.
Proof.
  unfold stats_of. rewrite stats_of_fold. simpl. rewrite !tally_counter. auto.
Qed.

(** The statistics text, laid out. *)
Lemma stats_render_layout (requests : list Entry.t) :
  requests <> [] ->
  stats_render requests =
  stats_layout (Z.of_nat (length requests))
    (Stats.total_request_size (stats_of requests))
    (Stats.total_response_size (stats_of requests))
    (take 10 (sorted by_count_desc (Stats.by_host (stats_of requests))))
    (sorted by_count_desc (Stats.by_method (stats_of requests)))
    (sorted by_item (Stats.by_status (stats_of requests))).
Proof. destruct requests as [|e l]; [contradiction | reflexivity]. Qed.

Lemma stats_text_run (p : Params.t) (s : store) :
  index_ok s = true -> index_of s <> [] ->
  fst (tool_get_request_stats p s) =
  Ok (stats_layout (Z.of_nat (length (index_of s)))
        (Stats.total_request_size (stats_of (index_of s)))
        (Stats.total_response_size (stats_of (index_of s)))
        (take 10 (sorted by_count_desc (Stats.by_host (stats_of (index_of s)))))
        (sorted by_count_desc (Stats.by_method (stats_of (index_of s))))
        (sorted by_item (Stats.by_status (stats_of (index_of s))))).
Proof.
  intros Hok Hne. rewrite tool_get_request_stats_run, (index_view_ok s Hok).
  cbn [fst mbind result_bind]. rewrite stats_render_layout by exact Hne. reflexivity.
Qed.

Lemma count_desc_strongly (l : list (string * Z)) :
  StronglySorted (fun x y => by_count_desc x y = true) l ->
  StronglySorted (fun x y : string * Z => y.2 <= x.2) l.
Proof.
  induction 1 as [|x l Hs IH Hall]; constructor; [exact IH|].
  eapply Forall_impl; [exact Hall|]. intros y Hy. unfold by_count_desc in Hy.
  apply Z.leb_le in Hy. lia.
Qed.

End StatsText.

(** C10: every read-side tool is a function of its parameters, of the
    index file and of the record files.  Each one leaves the store as it
    is, so a second call sees the same store, and on two stores that hold
    the same index file and the same record files it returns the same
    result.  The order of the groupings in the statistics text is fixed
    by the index as well: the counters hold each key once, in the order of
    first appearance in the index, and whatever lists a stable sort of the
    counters by decreasing count (and of the status classes by label)
    yields, the text is the layout of these lists. *)
Theorem read_side_deterministic (p : Params.t) (s1 s2 : store) :
  same_json_files s1 s2 ->
  (snd (tool_list_requests p s1) = s1 /\
   fst (tool_list_requests p s1) = fst (tool_list_requests p s2)) /\
  (snd (tool_read_request p s1) = s1 /\
   fst (tool_read_request p s1) = fst (tool_read_request p s2)) /\
  (snd (tool_search_requests p s1) = s1 /\
   fst (tool_search_requests p s1) = fst (tool_search_requests p s2)) /\
  (snd (tool_get_request_stats p s1) = s1 /\
   fst (tool_get_request_stats p s1) = fst (tool_get_request_stats p s2)) /\
  (snd (tool_export_har p s1) = s1 /\
   fst (tool_export_har p s1) = fst (tool_export_har p s2)) /\
  (forall hosts methods statuses,
     index_ok s1 = true -> index_of s1 <> [] ->
     stably_sorted by_count_desc (counter host_key (index_of s1)) hosts ->
     stably_sorted by_count_desc (counter method_key (index_of s1)) methods ->
     stably_sorted by_item (counter status_key (index_of s1)) statuses ->
     fst (tool_get_request_stats p s2) =
       Ok (stats_layout (Z.of_nat (length (index_of s1)))
             (foldr Z.add 0 (map (fun e => default 0 (Entry.request_size e)) (index_of s1)))
             (foldr Z.add 0 (map (fun e => default 0 (Entry.response_size e)) (index_of s1)))
             (take 10 hosts) methods statuses)).
Proof.
  intros Hsame.
  assert (fst (tool_get_request_stats p s1) = fst (tool_get_request_stats p s2)) as Hstats
    by (rewrite !tool_get_request_stats_run, (same_index s1 s2 Hsame); reflexivity).
  split; [split|].
  { rewrite tool_list_requests_run. reflexivity. }
  { rewrite !tool_list_requests_run, (same_index s1 s2 Hsame). reflexivity. }
  split; [apply (same_read_request s1 s2 Hsame)|].
  split; [split|].
  { rewrite tool_search_requests_run. reflexivity. }
  { rewrite !tool_search_requests_run, (same_index s1 s2 Hsame). simpl.
    destruct (negb (truthy (lower (default "" (Params.query p))))); [reflexivity|].
    destruct (index_view s2); [|reflexivity]. cbn [mbind result_bind].
    rewrite (same_search_scan s1 s2 Hsame). reflexivity. }
  split; [split; [rewrite tool_get_request_stats_run; reflexivity | exact Hstats]|].
  split; [split; [rewrite tool_export_har_run; reflexivity
                 | apply (same_export s1 s2 Hsame)]|].
  intros hosts methods statuses Hok Hne Hh Hm Hst.
  rewrite <- Hstats, (stats_text_run p s1 Hok Hne).
  destruct (stats_of_counters (index_of s1)) as [-> [-> ->]].
  rewrite (stably_sorted_unique by_count_desc by_count_desc_refl by_count_desc_total
             by_count_desc_trans _ _ Hh).
  rewrite (stably_sorted_unique by_count_desc by_count_desc_refl by_count_desc_total
             by_count_desc_trans _ _ Hm).
  rewrite (stably_sorted_unique by_item by_item_refl by_item_total by_item_trans _ _ Hst).
  unfold stats_of. rewrite stats_of_fold. reflexivity.
Qed.

Lemma read_side_deterministic_witness :
  fst (tool_get_request_stats Params.empty Sample.traffic_with_notes) =
  Ok (join nl
        ["=== Traffic Statistics ==="; "Total Requests: 2";
         "Total Request Data: 0 bytes"; "Total Response Data: 10 bytes"; "";
         "By Host (top 10):"; "  example.com: 1"; "  example.org: 1"; "";
         "By Method:"; "  GET: 1"; "  POST: 1"; "";
         "By Status Code:"; "  2xx: 1"; "  4xx: 1"]) /\
  fst (tool_export_har Params.empty Sample.traffic) =
  fst (tool_export_har Params.empty Sample.traffic_with_notes).
Proof.
  destruct (read_side_deterministic Params.empty Sample.traffic Sample.traffic_with_notes)
    as [_ [_ [_ [_ [[_ Hexport] Hstats]]]]].
  - intros name Hname. unfold Sample.traffic_with_notes.
    rewrite lookup_insert_ne; [reflexivity|]. intros <-. discriminate Hname.
  - split; [|exact Hexport].
    apply (Hstats [("example.com", 1); ("example.org", 1)] [("GET", 1); ("POST", 1)]
                  [("2xx", 1); ("4xx", 1)]); try reflexivity; try discriminate;
      (split; [repeat constructor | intros z; reflexivity]).
Defined.

(** X9: in the text of [get_request_stats] the lines under "By Host
    (top 10)" are the first ten of a rearrangement of the host counter in
    non-increasing order of count, so that at most ten hosts are shown
    and no host left out has a higher count than a host shown; the lines
    under "By Method" are such a rearrangement of the method counter. *)
Theorem stats_ranking (p : Params.t) (s : store) :
  index_ok s = true -> index_of s <> [] ->
  exists hosts methods statuses,
    fst (tool_get_request_stats p s) =
      Ok (stats_layout (Z.of_nat (length (index_of s)))
            (Stats.total_request_size (stats_of (index_of s)))
            (Stats.total_response_size (stats_of (index_of s)))
            (take 10 hosts) methods statuses) /\
    Permutation hosts (Stats.by_host (stats_of (index_of s))) /\
    StronglySorted (fun x y => y.2 <= x.2) hosts /\
    (length (take 10 hosts) <= 10)%nat /\
    (forall shown hidden,
       In shown (take 10 hosts) -> In hidden (drop 10 hosts) -> hidden.2 <= shown.2) /\
    Permutation methods (Stats.by_method (stats_of (index_of s))) /\
    StronglySorted (fun x y => y.2 <= x.2) methods.
Proof.
  intros Hok Hne.
  exists (sorted by_count_desc (Stats.by_host (stats_of (index_of s)))),
         (sorted by_count_desc (Stats.by_method (stats_of (index_of s)))),
         (sorted by_item (Stats.by_status (stats_of (index_of s)))).
  assert (forall d, StronglySorted (fun x y : string * Z => y.2 <= x.2)
                      (sorted by_count_desc d)) as Hs.
  { intros d. apply count_desc_strongly.
    apply sorted_strongly; [apply by_count_desc_total | apply by_count_desc_trans]. }
  split; [apply stats_text_run; assumption|].
  split; [apply sorted_perm|]. split; [apply Hs|]. split; [rewrite length_take; lia|].
  split; [|split; [apply sorted_perm | apply Hs]].
  intros shown hidden Hshown Hhidden.
  pose proof (Hs (Stats.by_host (stats_of (index_of s)))) as Hsorted.
  rewrite <- (take_drop 10 (sorted by_count_desc _)) in Hsorted.
  exact (strongly_sorted_app _ _ _ Hsorted shown hidden Hshown Hhidden).
Qed.

Lemma stats_ranking_witness :
  exists hosts methods statuses,
    fst (tool_get_request_stats Params.empty Sample.traffic) =
      Ok (stats_layout 2 0 10 (take 10 hosts) methods statuses) /\
    Permutation hosts [("example.com", 1); ("example.org", 1)].
Proof.
  destruct (stats_ranking Params.empty Sample.traffic)
    as [hosts [methods [statuses [Htext [Hperm _]]]]]; [reflexivity | discriminate |].
  exists hosts, methods, statuses. split; [exact Htext | exact Hperm].
Defined.

(** X10: in the text of [get_request_stats] the lines under "By Status
    Code" list every status class exactly once, in strictly ascending
    order of the class label. *)
Theorem stats_status_order (p : Params.t) (s : store) :
  index_ok s = true -> index_of s <> [] ->
  exists hosts methods statuses,
    fst (tool_get_request_stats p s) =
      Ok (stats_layout (Z.of_nat (length (index_of s)))
            (Stats.total_request_size (stats_of (index_of s)))
            (Stats.total_response_size (stats_of (index_of s)))
            hosts methods statuses) /\
    Permutation statuses (Stats.by_status (stats_of (index_of s))) /\
    List.NoDup (map fst statuses) /\
    Sorted (fun x y => String.ltb x.1 y.1 = true) statuses.
Proof.
  intros Hok Hne.
  exists (take 10 (sorted by_count_desc (Stats.by_host (stats_of (index_of s))))),
         (sorted by_count_desc (Stats.by_method (stats_of (index_of s)))),
         (sorted by_item (Stats.by_status (stats_of (index_of s)))).
  split; [apply stats_text_run; assumption|].
  set (d := Stats.by_status (stats_of (index_of s))).
  assert (List.NoDup (map fst d)) as Hd.
  { unfold d, stats_of. rewrite stats_of_fold. simpl. apply tally_NoDup. constructor. }
  pose proof (sorted_perm by_item d) as Hperm.
  assert (List.NoDup (map fst (sorted by_item d))) as Hnd.
  { eapply Permutation_NoDup; [|exact Hd]. apply Permutation_map, Permutation_sym, Hperm. }
  split; [exact Hperm|]. split; [exact Hnd|].
  pose proof (sorted_sorted by_item by_item_total d) as Hs.
  clear Hperm. revert Hnd Hs. generalize (sorted by_item d). intros ranked Hnd Hs.
  induction Hs as [|x l Hl IH Hhd]; [constructor|].
  simpl in Hnd. inversion Hnd as [|? ? Hx Hnd']; subst.
  constructor; [apply IH; exact Hnd'|].
  destruct Hhd as [|y l Hxy]; constructor.
  unfold by_item in Hxy. apply orb_true_iff in Hxy. destruct Hxy as [Hlt | Heq]; [exact Hlt|].
  apply andb_true_iff in Heq. destruct Heq as [Heq _]. apply String.eqb_eq in Heq.
  exfalso. apply Hx. simpl. left. symmetry. exact Heq.
Qed.

Lemma stats_status_order_witness :
  exists hosts methods statuses,
    fst (tool_get_request_stats Params.empty Sample.traffic) =
      Ok (stats_layout 2 0 10 hosts methods statuses) /\
    Permutation statuses [("2xx", 1); ("4xx", 1)].
Proof.
  destruct (stats_status_order Params.empty Sample.traffic)
    as [hosts [methods [statuses [Htext [Hperm _]]]]]; [reflexivity | discriminate |].
  exists hosts, methods, statuses. split; [exact Htext | exact Hperm].
Defined.

(** ** The capture side *)

Section Ingestion.

Variable decode_utf8 : bytes -> option string.

Lemma request_file_inj (a b : string) : a +:+ ".json" = b +:+ ".json" -> a = b.
Proof. apply append_inv_tail. Qed.

Lemma ingest_cons (c : Capture.t) (cs : list Capture.t) (idx : list Entry.t) (s : store) :
  ingest decode_utf8 (c :: cs) idx s =
  ingest decode_utf8 cs
    (idx ++ [index_entry (Capture.request_id c) (Capture.timestamp c) (Capture.flow c)])
    (snd (response decode_utf8 (Capture.request_id c) (Capture.timestamp c)
            (Capture.flow c) idx s)).
Proof. reflexivity. Qed.

Lemma response_index (id ts : string) (flow : Flow.t) (idx : list Entry.t) (s : store) :
  index_of (snd (response decode_utf8 id ts flow idx s)) = idx ++ [index_entry id ts flow].
Proof. unfold response, index_of. simpl. rewrite lookup_insert_eq. reflexivity. Qed.

Lemma response_other (id ts : string) (flow : Flow.t) (idx : list Entry.t) (s : store)
    (id' : string) :
  id' <> id -> id' <> "index" ->
  record_of (snd (response decode_utf8 id ts flow idx s)) id' = record_of s id'.
Proof.
  intros Hne Hni. unfold response, record_of. simpl.
  rewrite lookup_insert_ne
    by (intros H; symmetry in H; revert H; apply request_file_not_index; exact Hni).
  rewrite lookup_insert_ne; [reflexivity|].
  intros H. apply Hne. symmetry. apply request_file_inj. exact H.
Qed.

Lemma response_indexed (id ts : string) (flow : Flow.t) (idx : list Entry.t) (s : store) :
  id <> "index" -> indexed idx s ->
  indexed (idx ++ [index_entry id ts flow]) (snd (response decode_utf8 id ts flow idx s)).
Proof.
  intros Hni Hidx. unfold indexed in *. apply Forall_app. split.
  - eapply Forall_impl; [exact Hidx|]. intros e [Hc [id' [d [He [Hni' [Hr Hd]]]]]].
    split; [exact Hc|]. destruct (decide (id' = id)) as [-> | Hne].
    + exists id, (request_data decode_utf8 id ts flow).
      rewrite (response_record decode_utf8 id ts flow idx s Hni). auto.
    + exists id', d. rewrite (response_other id ts flow idx s id' Hne Hni'). auto.
  - constructor; [|constructor]. split; [reflexivity|].
    exists id, (request_data decode_utf8 id ts flow).
    rewrite (response_record decode_utf8 id ts flow idx s Hni). auto.
Qed.

Lemma ingest_run (cs : list Capture.t) (idx : list Entry.t) (s : store) :
  Forall (fun c => Capture.request_id c <> "index") cs -> indexed idx s ->
  fst (ingest decode_utf8 cs idx s) = idx ++ map entry_of cs /\
  indexed (fst (ingest decode_utf8 cs idx s)) (snd (ingest decode_utf8 cs idx s)) /\
  (cs <> [] ->
   index_of (snd (ingest decode_utf8 cs idx s)) = fst (ingest decode_utf8 cs idx s)).
Proof.
  revert idx s. induction cs as [|c cs IH]; intros idx s Hcs Hidx.
  - simpl. rewrite app_nil_r. split; [reflexivity|]. split; [exact Hidx | contradiction].
  - inversion Hcs as [|? ? Hc Hcs']; subst. rewrite ingest_cons.
    pose proof (response_indexed _ (Capture.timestamp c) (Capture.flow c) idx s Hc Hidx) as Hstep.
    pose proof (response_index (Capture.request_id c) (Capture.timestamp c) (Capture.flow c)
                  idx s) as Hindex.
    destruct (IH _ _ Hcs' Hstep) as [Hfst [Hinv Hidx']].
    split; [rewrite Hfst, <- app_assoc; reflexivity|]. split; [exact Hinv|].
    intros _. destruct cs as [|c' cs]; [simpl; exact Hindex | apply Hidx'; discriminate].
Qed.

Lemma record_of_ok (s : store) (id : string) (d : Doc.t) :
  record_of s id = Some d -> record_ok s id = record_complete d.
Proof.
  unfold record_of, record_ok.
  destruct (s !! (id +:+ ".json")) as [[| |d'|m| |t]|]; simpl; congruence.
Qed.

Lemma indexed_complete (s : store) :
  index_ok s = true -> indexed (index_of s) s -> store_complete s = true.
Proof.
  unfold indexed, store_complete. intros Hok H. rewrite Hok. apply forallb_forall.
  intros e He.
  rewrite List.Forall_forall in H. destruct (H e He) as [Hc [id [d [Hid [_ [Hr Hd]]]]]].
  rewrite Hc, Hid. simpl. rewrite (record_of_ok s id d Hr). exact Hd.
Qed.

Lemma response_index_ok (id ts : string) (flow : Flow.t) (idx : list Entry.t) (s : store) :
  index_ok (snd (response decode_utf8 id ts flow idx s)) = true.
Proof. unfold response, index_ok. simpl. rewrite lookup_insert_eq. reflexivity. Qed.

Lemma ingest_index_ok (cs : list Capture.t) (idx : list Entry.t) (s : store) :
  index_ok s = true -> index_ok (snd (ingest decode_utf8 cs idx s)) = true.
Proof.
  revert idx s. induction cs as [|c cs IH]; intros idx s Hok; [exact Hok|].
  rewrite ingest_cons. apply IH, response_index_ok.
Qed.

(** What the constructor of the addon has loaded, and what the index file
    lists. *)
Lemma load_index_run (s : store) :
  _load_index s = (loaded (PyDict (index_doc [])) (s !! "index.json"), s).
Proof.
  unfold _load_index, mbind, M_bind, path_exists, try_except, json_load.
  destruct (s !! "index.json") as [[| |d|m| |t]|] eqn:E; simpl; rewrite ?E; try reflexivity;
    (rewrite bool_decide_true by eauto); simpl; rewrite E; reflexivity.
Qed.

Lemma loaded_index (s : store) (requests : list Entry.t) :
  fst (_load_index s) = Ok (PyDict (index_doc requests)) ->
  index_of s = requests /\ index_ok s = true.
Proof.
  rewrite load_index_run. unfold index_of, index_ok. simpl.
  destruct (s !! "index.json") as [[| |d|m| |t]|]; simpl; intros H;
    try discriminate; injection H as H; subst; auto.
Qed.

Lemma ingest_records (cs : list Capture.t) (idx : list Entry.t) (s : store) (id : string) :
  Forall (fun c => Capture.request_id c <> "index") cs -> id <> "index" ->
  record_of (snd (ingest decode_utf8 cs idx s)) id =
  match last_with id cs with
  | Some c => Some (record_for decode_utf8 c)
  | None => record_of s id
  end.
Proof.
  intros Hcs Hni. revert idx s. induction cs as [|c cs IH]; intros idx s; [reflexivity|].
  inversion Hcs as [|? ? Hc Hcs']; subst. rewrite ingest_cons, (IH Hcs'). simpl.
  destruct (last_with id cs); [reflexivity|].
  destruct (String.eqb (Capture.request_id c) id) eqn:E.
  - apply String.eqb_eq in E. subst id. apply response_record. exact Hc.
  - apply String.eqb_neq in E. apply response_other; [congruence | exact Hni].
Qed.

End Ingestion.

(** X11: the capture side keeps index and records consistent.  When the
    addon starts on a directory whose index it loads as [{"requests": l}]
    (the file holds this document, or it is missing or does not parse and
    [l] is empty) with complete entries and records, then after any run of
    captures, none under the id "index", the index file lists the old
    entries followed by one entry per capture in capture order, every
    entry and every record it points to has all the keys the query side
    reads, and [read_request] finds a complete record for every captured
    id. *)
Theorem ingest_consistent (decode_utf8 : bytes -> option string)
    (cs : list Capture.t) (s : store) (loaded_requests : list Entry.t) :
  fst (_load_index s) = Ok (PyDict (index_doc loaded_requests)) ->
  indexed loaded_requests s ->
  Forall (fun c => Capture.request_id c <> "index") cs ->
  index_of (snd (ingest decode_utf8 cs loaded_requests s))
    = loaded_requests ++ map entry_of cs /\
  store_complete (snd (ingest decode_utf8 cs loaded_requests s)) = true /\
  Forall (fun c => exists d,
            read_request (Capture.request_id c)
                         (snd (ingest decode_utf8 cs loaded_requests s))
              = (Ok (PyDict d), snd (ingest decode_utf8 cs loaded_requests s)) /\
            record_complete d = true) cs.
Proof.
  intros Hload Hidx0 Hcs. destruct (loaded_index s loaded_requests Hload) as [Hof Hok].
  destruct (ingest_run decode_utf8 cs loaded_requests s Hcs Hidx0) as [Hfst [Hinv Hidx]].
  assert (index_of (snd (ingest decode_utf8 cs loaded_requests s))
          = loaded_requests ++ map entry_of cs) as Hindex.
  { destruct cs as [|c cs]; [simpl; rewrite app_nil_r; exact Hof|].
    rewrite Hidx by discriminate. exact Hfst. }
  split; [exact Hindex|]. rewrite Hfst in Hinv.
  split; [apply indexed_complete; [apply ingest_index_ok; exact Hok
                                  | rewrite Hindex; exact Hinv]|].
  unfold indexed in Hinv. apply Forall_app in Hinv. destruct Hinv as [_ Hinv].
  rewrite Forall_map in Hinv.
  eapply Forall_impl; [exact Hinv|]. intros c [_ [id [d [Hid [_ [Hr Hd]]]]]].
  simpl in Hid. injection Hid as <-. exists d. split; [|exact Hd].
  rewrite read_request_run. unfold record_of in Hr.
  destruct (_ !! (Capture.request_id c +:+ ".json")) as [[| |d'|m| |t]|];
    try discriminate. injection Hr as ->. reflexivity.
Qed.

Lemma ingest_consistent_witness :
  index_of (snd (ingest Sample.ascii_decode Session.captures [Sample.e1] Sample.one_record))
    = Sample.e1 :: map entry_of Session.captures /\
  store_complete
    (snd (ingest Sample.ascii_decode Session.captures [Sample.e1] Sample.one_record)) = true.
Proof.
  destruct (ingest_consistent Sample.ascii_decode Session.captures Sample.one_record
              [Sample.e1]) as [Hi [Hc _]].
  - reflexivity.
  - constructor; [|constructor]. split; [reflexivity|].
    exists "a1", Sample.r1. repeat split. discriminate.
  - repeat constructor; discriminate.
  - split; [exact Hi | exact Hc].
Defined.

(** X12: an id collision loses a record but not an index entry: after a
    run of captures the record file of an id holds the record of the last
    capture made under that id, while the index has grown by one entry per
    capture. *)
Theorem ingest_collision (decode_utf8 : bytes -> option string)
    (cs : list Capture.t) (self_index : list Entry.t) (s : store) (request_id : string) :
  Forall (fun c => Capture.request_id c <> "index") cs -> request_id <> "index" ->
  fst (ingest decode_utf8 cs self_index s) = self_index ++ map entry_of cs /\
  record_of (snd (ingest decode_utf8 cs self_index s)) request_id =
    match last_with request_id cs with
    | Some c => Some (record_for decode_utf8 c)
    | None => record_of s request_id
    end.
Proof.
  intros Hcs Hni. split; [|apply ingest_records; assumption].
  clear Hcs. revert self_index s. induction cs as [|c cs IH]; intros idx s.
  - simpl. rewrite app_nil_r. reflexivity.
  - rewrite ingest_cons, IH, <- app_assoc. reflexivity.
Qed.

Lemma ingest_collision_witness :
  record_of
    (snd (ingest Sample.ascii_decode
            [Capture.mk "a1" "t1" Sample.long_flow; Capture.mk "a1" "t2" Sample.short_flow]
            [] Sample.empty)) "a1"
  = Some (record_for Sample.ascii_decode (Capture.mk "a1" "t2" Sample.short_flow)).
Proof.
  destruct (ingest_collision Sample.ascii_decode
              [Capture.mk "a1" "t1" Sample.long_flow; Capture.mk "a1" "t2" Sample.short_flow]
              [] Sample.empty "a1") as [_ H];
    [repeat constructor; discriminate | discriminate | exact H].
Defined.

(** X13: the addon's in-memory index survives a [clear_requests] of the
    server: the first capture after the clear writes the whole old index
    back, so the cleared entries are listed again, while, when the clear
    could delete every record file, these files stay deleted. *)
Theorem capture_after_clear {P : Permissions} (decode_utf8 : bytes -> option string)
    (request_id timestamp : string) (flow : Flow.t) (self_index : list Entry.t) (s : store) :
  clearable s = true ->
  index_of (snd (response decode_utf8 request_id timestamp flow self_index
                   (snd (clear_traffic s))))
    = self_index ++ [index_entry request_id timestamp flow] /\
  (forall id, id <> request_id -> id <> "index" -> no_slash id = true ->
     record_of (snd (response decode_utf8 request_id timestamp flow self_index
                       (snd (clear_traffic s)))) id = None).
Proof.
  intros Hc. split; [apply response_index|].
  intros id Hne Hni Hs. rewrite response_other by assumption.
  rewrite (clear_traffic_run s Hc). simpl. unfold record_of.
  rewrite cleared_gone; [reflexivity | apply request_file_not_index; exact Hni
                        | apply endswith_append |].
  rewrite no_slash_append, Hs. reflexivity.
Qed.

Lemma capture_after_clear_witness :
  index_of (snd (response Sample.ascii_decode "a3" "2024-05-01T10:00:02" Sample.short_flow
                   [Sample.e1; Sample.e2]
                   (snd (clear_traffic (P := Sample.permissive) Sample.traffic))))
    = [Sample.e1; Sample.e2;
       index_entry "a3" "2024-05-01T10:00:02" Sample.short_flow] /\
  record_of (snd (response Sample.ascii_decode "a3" "2024-05-01T10:00:02" Sample.short_flow
                    [Sample.e1; Sample.e2]
                    (snd (clear_traffic (P := Sample.permissive) Sample.traffic)))) "a1"
    = None.
Proof.
  destruct (capture_after_clear (P := Sample.permissive) Sample.ascii_decode "a3"
              "2024-05-01T10:00:02" Sample.short_flow [Sample.e1; Sample.e2] Sample.traffic)
    as [Hi Hr]; [vm_compute; reflexivity|].
  split; [exact Hi | apply Hr; [discriminate | discriminate | reflexivity]].
Defined.

(** X14: [TrafficCapture.response] writes the record file before it touches
    the index.  On an in-memory index with a ["requests"] list the entry is
    appended and the index file rewritten; on a loaded index without that
    key the append raises [KeyError], and the record file stays behind
    without an index entry, the index file being left as it was. *)
Theorem addon_response_cases (decode_utf8 : bytes -> option string) (c : Capture.t)
    (self_index : Doc.t) (s : store) :
  Capture.request_id c <> "index" ->
  record_of (snd (addon_response decode_utf8 c self_index s)) (Capture.request_id c)
    = Some (record_for decode_utf8 c) /\
  (forall requests, Doc.requests self_index = Some requests ->
     fst (addon_response decode_utf8 c self_index s)
       = Ok (with_requests (requests ++ [entry_of c]) self_index) /\
     index_of (snd (addon_response decode_utf8 c self_index s)) = requests ++ [entry_of c]) /\
  (Doc.requests self_index = None ->
     fst (addon_response decode_utf8 c self_index s) = Raise (KeyError "requests") /\
     snd (addon_response decode_utf8 c self_index s) !! "index.json" = s !! "index.json").
Proof.
  intros Hni. unfold addon_response, record_of, index_of, _save_index, json_dump.
  destruct (Doc.requests self_index) as [requests|]; simpl.
  - split; [|split; [|discriminate]].
    + rewrite lookup_insert_ne
        by (intros H; symmetry in H; revert H; apply request_file_not_index; exact Hni).
      rewrite lookup_insert_eq. reflexivity.
    + intros l Hl. injection Hl as <-. rewrite lookup_insert_eq. split; reflexivity.
  - split; [rewrite lookup_insert_eq; reflexivity|]. split; [discriminate|].
    intros _. split; [reflexivity|].
    apply lookup_insert_ne. apply request_file_not_index. exact Hni.
Qed.

Lemma addon_response_cases_witness :
  fst (addon_response Sample.ascii_decode (Capture.mk "a1" "t1" Sample.short_flow)
         (Doc.mk None None None None None) Sample.empty) = Raise (KeyError "requests") /\
  record_of (snd (addon_response Sample.ascii_decode (Capture.mk "a1" "t1" Sample.short_flow)
                    (Doc.mk None None None None None) Sample.empty)) "a1"
    = Some (record_for Sample.ascii_decode (Capture.mk "a1" "t1" Sample.short_flow)).
Proof.
  destruct (addon_response_cases Sample.ascii_decode (Capture.mk "a1" "t1" Sample.short_flow)
              (Doc.mk None None None None None) Sample.empty) as [Hr [_ Hn]];
    [discriminate|].
  split; [apply Hn; reflexivity | exact Hr].
Defined.

(** X15: the addon and the server read the index alike: on every
    directory [_load_index] returns what [read_index] returns, or raises
    what it raises; this is the empty index when the file is missing, is
    no JSON text or cannot be opened; and after [_save_index d] both
    return [d], so a restarted addon resumes with the index the last
    capture wrote. *)
Theorem load_index_round_trip (decode_utf8 : bytes -> option string) (d : Doc.t) (s : store) :
  _load_index s = read_index s /\
  (unavailable s "index.json" -> _load_index s = (Ok (PyDict (index_doc [])), s)) /\
  _load_index (snd (_save_index d s)) = (Ok (PyDict d), snd (_save_index d s)) /\
  (forall request_id timestamp flow self_index,
     fst (_load_index (snd (response decode_utf8 request_id timestamp flow self_index s)))
       = Ok (PyDict (index_doc (self_index ++ [index_entry request_id timestamp flow])))).
Proof.
  split; [rewrite load_index_run, read_index_run; reflexivity|]. split; [|split].
  - intros [H | [H | H]]; rewrite load_index_run, H; reflexivity.
  - rewrite load_index_run. unfold _save_index, json_dump. simpl.
    rewrite lookup_insert_eq. reflexivity.
  - intros request_id timestamp flow self_index. rewrite load_index_run.
    unfold response. simpl. rewrite lookup_insert_eq. reflexivity.
Qed.

(** ** The codec: fallback and binary test *)

Section CodecMore.

Lemma length_string_of_list (l : list ascii) :
  String.length (string_of_list_ascii l) = length l.
Proof. induction l as [|c l IH]; simpl; [reflexivity | rewrite IH; reflexivity]. Qed.

Lemma encode_decode_latin1 (body : bytes) : encode_latin1 (decode_latin1 body) = body.
Proof.
  unfold encode_latin1, decode_latin1. rewrite list_ascii_of_string_of_list_ascii.
  induction body as [|b body IH]; simpl; [reflexivity|].
  rewrite <- ascii_of_byte_via_N, byte_of_ascii_of_byte. f_equal. exact IH.
Qed.

Lemma is_binary_type_exists (types : list string) (content_type : string) :
  is_binary_type types content_type = true <->
  exists bt, In bt types /\ str_in bt (lower content_type) = true.
Proof.
  induction types as [|bt types IH]; simpl.
  - split; [discriminate | intros [bt [[] _]]].
  - destruct (str_in bt (lower content_type)) eqn:E.
    + split; [intros _; exists bt; auto | reflexivity].
    + rewrite IH. split.
      * intros [bt' [Hin Hbt]]. exists bt'. auto.
      * intros [bt' [[<- | Hin] Hbt]]; [congruence | exists bt'; auto].
Qed.

End CodecMore.

(** X16: a body that is not valid UTF-8 and whose type is not binary is
    stored through the Latin-1 fallback, never as a placeholder: the
    stored text has one character per byte, and the bytes can be read
    back from it. *)
Theorem safe_decode_fallback (decode_utf8 : bytes -> option string) (body : bytes)
    (content_type : string) :
  is_binary_type binary_types content_type = false -> decode_utf8 body = None ->
  _safe_decode decode_utf8 (Some body) content_type = decode_latin1 body /\
  String.length (_safe_decode decode_utf8 (Some body) content_type) = length body /\
  encode_latin1 (_safe_decode decode_utf8 (Some body) content_type) = body.
Proof.
  intros Hb Hd. assert (_safe_decode decode_utf8 (Some body) content_type = decode_latin1 body)
    as -> by (unfold _safe_decode; rewrite Hb, Hd; reflexivity).
  split; [reflexivity|]. split; [|apply encode_decode_latin1].
  unfold decode_latin1. rewrite length_string_of_list, length_map. reflexivity.
Qed.

Lemma safe_decode_fallback_witness :
  encode_latin1 (_safe_decode Sample.ascii_decode (Some [Byte.xff; Byte.x41]) "text/plain")
    = [Byte.xff; Byte.x41].
Proof.
  destruct (safe_decode_fallback Sample.ascii_decode [Byte.xff; Byte.x41] "text/plain")
    as [_ [_ H]]; [reflexivity | reflexivity | exact H].
Defined.

(** X17: [_safe_decode] treats a body as binary exactly when one of the
    seven media-type strings occurs in the declared content type, in any
    letter case and at any position, not only as its prefix. *)
Theorem is_binary_type_spec (content_type : string) :
  is_binary_type binary_types content_type = true <->
  exists bt, In bt binary_types /\ Spec.ci_substring bt content_type.
Proof.
  rewrite is_binary_type_exists. split; intros [bt [Hin H]]; exists bt; (split; [exact Hin|]);
    assert (lower bt = bt) as Hl
      by (simpl in Hin; destruct Hin as [<- | [<- | [<- | [<- | [<- | [<- | [<- | []]]]]]]];
          reflexivity).
  - apply str_in_lower. rewrite Hl. exact H.
  - apply str_in_lower in H. rewrite Hl in H. exact H.
Qed.

(** ** Searching: bounds and the header switch *)

Section SearchMore.

Variable records : string -> result (option Doc.t).

Lemma search_found_in_names (q : string) (sh : bool) (data : Doc.t) (found : list string) :
  search_found_in q sh data = Ok found -> found `sublist_of` category_names.
Proof.
  unfold search_found_in, mbind, result_bind.
  destruct (getitem "request" (Doc.request data)) as [req|]; [|discriminate].
  destruct (getitem "response" (Doc.response data)) as [resp|]; [|discriminate].
  unfold category_names.
  destruct (str_in q (lower (default "" (Request.content req))));
  destruct (str_in q (lower (default "" (Response.content resp))));
  destruct (str_in q (lower (default "" (Request.url req))));
  destruct sh;
  try destruct (headers_hit q (default [] (Request.headers req)));
  try destruct (headers_hit q (default [] (Response.headers resp)));
  simpl; intros H; injection H as <-;
  repeat first [apply sublist_nil | apply sublist_skip | apply sublist_cons].
Qed.

Lemma search_step_cases (q : string) (sh : bool) (acc acc' : list Match.t) (e : Entry.t) :
  search_step records q sh acc e = Ok acc' ->
  exists id, Entry.id e = Some id /\
    (acc' = acc \/
     exists m, acc' = acc ++ [m] /\ Match.id m = id /\ Match.found_in m <> [] /\
               Match.found_in m `sublist_of` category_names).
Proof.
  unfold search_step, mbind, result_bind.
  destruct (Entry.id e) as [id|]; [|discriminate]. simpl. intros H. exists id.
  split; [reflexivity|].
  destruct (records id) as [[data|]|]; [|injection H as <-; auto|discriminate].
  destruct (search_found_in q sh data) as [[|c found]|] eqn:Ef;
    [injection H as <-; auto | | discriminate].
  destruct (getitem "method" (Entry.method e)); [|discriminate].
  destruct (getitem "url" (Entry.url e)); [|discriminate].
  injection H as <-. right. eexists. split; [reflexivity|]. simpl.
  split; [reflexivity|]. split; [discriminate|].
  apply (search_found_in_names q sh data). exact Ef.
Qed.

Lemma search_scan_found (q : string) (sh : bool) (es : list Entry.t) (acc ms : list Match.t) :
  search_scan records q sh acc es = Ok ms ->
  exists found,
    ms = acc ++ found /\
    map Match.id found `sublist_of` pick Entry.id es /\
    Forall (fun m => Match.found_in m <> [] /\
                     Match.found_in m `sublist_of` category_names) found.
Proof.
  revert acc. induction es as [|e es IH]; intros acc H; simpl in H.
  - injection H as <-. exists []. rewrite app_nil_r. repeat split; constructor.
  - unfold mbind, result_bind in H.
    destruct (search_step records q sh acc e) as [acc'|] eqn:Es; [|discriminate].
    destruct (search_step_cases q sh acc acc' e Es) as [id [Hid Hcase]].
    destruct (IH acc' H) as [found [-> [Hsub Hall]]]. simpl. rewrite Hid.
    destruct Hcase as [-> | [m [-> [Hm Hfound]]]].
    + exists found. split; [reflexivity|]. split; [apply sublist_cons; exact Hsub | exact Hall].
    + exists (m :: found). rewrite <- app_assoc. split; [reflexivity|]. simpl. rewrite Hm.
      split; [apply sublist_skip; exact Hsub | constructor; assumption].
Qed.

Lemma search_found_in_headers (q : string) (data : Doc.t) (found : list string) :
  search_found_in q false data = Ok found ->
  exists extra, search_found_in q true data = Ok (found ++ extra).
Proof.
  unfold search_found_in, mbind, result_bind.
  destruct (getitem "request" (Doc.request data)) as [req|]; [|discriminate].
  destruct (getitem "response" (Doc.response data)) as [resp|]; [|discriminate].
  simpl. intros H. injection H as <-.
  destruct (headers_hit q (default [] (Request.headers req)));
  destruct (headers_hit q (default [] (Response.headers resp)));
  eexists; rewrite <- ?app_assoc; try reflexivity.
  rewrite app_nil_r. reflexivity.
Qed.

Lemma search_scan_headers (q : string) (es : list Entry.t) (acc acc' ms : list Match.t) :
  Forall (fun e => entry_complete e = true) es ->
  map Match.id acc `sublist_of` map Match.id acc' ->
  search_scan records q false acc es = Ok ms ->
  exists ms', search_scan records q true acc' es = Ok ms' /\
              map Match.id ms `sublist_of` map Match.id ms'.
Proof.
  intros Hes. revert acc acc'. induction Hes as [|e es He _ IH]; intros acc acc' Hacc H.
  - simpl in *. injection H as <-. exists acc'. auto.
  - simpl in *. unfold mbind, result_bind in *.
    unfold search_step in *. unfold mbind, result_bind in *.
    unfold entry_complete in He.
    destruct (Entry.id e) as [id|]; [|discriminate]. simpl in *.
    destruct (Entry.method e) as [method|];
      [|rewrite !andb_false_r in He; simpl in He; discriminate].
    destruct (Entry.url e) as [url|];
      [|rewrite !andb_false_r in He; simpl in He; discriminate].
    simpl in *.
    destruct (records id) as [[data|]|]; [|exact (IH acc acc' Hacc H)|discriminate].
    destruct (search_found_in q false data) as [found|] eqn:Ef; [|discriminate].
    destruct (search_found_in_headers q data found Ef) as [extra ->].
    destruct found as [|c found]; simpl in *.
    + destruct extra as [|x extra].
      * exact (IH acc acc' Hacc H).
      * apply (IH acc (acc' ++ [Match.mk id method url (x :: extra)])) in H; [exact H|].
        rewrite map_app. apply sublist_inserts_r. exact Hacc.
    + apply (IH _ (acc' ++ [Match.mk id method url (c :: found ++ extra)])) in H; [exact H|].
      rewrite !map_app. apply sublist_app; [exact Hacc | reflexivity].
Qed.

End SearchMore.

(** X18: a search never reports more matches than the index has entries:
    when the scan of [search_requests] ends without an exception, the ids
    it reports are a subsequence of the ids of the index, and every match
    names at least one category, each at most once and in the fixed order
    request body, response body, URL, request headers, response headers. *)
Theorem search_scan_bounds (s : store) (q : string) (sh : bool)
    (es : list Entry.t) (ms : list Match.t) :
  fst (foldM (search_loop_body q sh) [] es s) = Ok ms ->
  map Match.id ms `sublist_of` pick Entry.id es /\
  (length ms <= length es)%nat /\
  Forall (fun m => Match.found_in m <> [] /\
                   Match.found_in m `sublist_of` category_names) ms.
Proof.
  rewrite search_loop_run. simpl. intros H.
  destruct (search_scan_found (record_view s) q sh es [] ms H) as [found [-> [Hsub Hall]]].
  simpl. split; [exact Hsub|]. split; [|exact Hall].
  apply sublist_length in Hsub. rewrite length_map in Hsub.
  assert (forall l : list Entry.t, (length (pick Entry.id l) <= length l)%nat) as Hpick.
  { induction l as [|e l IH]; simpl; [lia|]. destruct (Entry.id e); simpl; lia. }
  specialize (Hpick es). lia.
Qed.

Lemma search_scan_bounds_witness :
  exists ms,
    fst (foldM (search_loop_body "foo" false) [] (index_of Sample.traffic) Sample.traffic)
      = Ok ms /\
    (length ms <= length (index_of Sample.traffic))%nat.
Proof.
  eexists. split; [reflexivity|].
  apply (search_scan_bounds Sample.traffic "foo" false (index_of Sample.traffic)).
  reflexivity.
Defined.

(** X19: switching [search_headers] on never loses a match: over complete
    index entries, every id that the scan reports without the header
    tests is reported with them, in the same order. *)
Theorem search_headers_monotone (s : store) (q : string)
    (es : list Entry.t) (ms : list Match.t) :
  Forall (fun e => entry_complete e = true) es ->
  fst (foldM (search_loop_body q false) [] es s) = Ok ms ->
  exists ms', fst (foldM (search_loop_body q true) [] es s) = Ok ms' /\
              map Match.id ms `sublist_of` map Match.id ms'.
Proof.
  rewrite !search_loop_run. simpl. intros Hes H.
  apply (search_scan_headers (record_view s) q es [] [] ms Hes); [reflexivity | exact H].
Qed.

Lemma search_headers_monotone_witness :
  exists ms ms',
    fst (foldM (search_loop_body "foo" false) [] (index_of Sample.traffic) Sample.traffic)
      = Ok ms /\
    fst (foldM (search_loop_body "foo" true) [] (index_of Sample.traffic) Sample.traffic)
      = Ok ms' /\
    map Match.id ms `sublist_of` map Match.id ms' /\ ms <> [].
Proof.
  destruct (search_headers_monotone Sample.traffic "foo" (index_of Sample.traffic)
              [Match.mk "a1" "GET" "http://example.com/" ["response body"]])
    as [ms' [Hrun Hsub]];
    [repeat constructor | reflexivity |].
  exists [Match.mk "a1" "GET" "http://example.com/" ["response body"]], ms'.
  split; [reflexivity|]. split; [exact Hrun|]. split; [exact Hsub | discriminate].
Defined.

(** ** Edges of reading, clearing and exporting *)

(** X20: the id "index" names the index file: on a directory whose index
    file parses and has no ["request"] key, [read_request] of that id is
    answered neither with a record nor with not-found but with the
    internal error -32603 and the message ['request']. *)
Theorem read_request_reserved_id {P : Permissions} {I : Type} (request_id : I)
    (s : store) (d : Doc.t)
    (arguments : Params.t) :
  s !! "index.json" = Some (Json d) -> Doc.request d = None ->
  Params.request_id arguments = Some "index" ->
  handle_tool_call request_id (Some "read_request") (Some arguments) s =
    ((request_id, Error (-32603) "'request'"), s).
Proof.
  intros Hs Hd Hid. unfold handle_tool_call. simpl. unfold plain, mbind, M_bind.
  rewrite (tool_read_request_run arguments s "index" Hid) by discriminate.
  rewrite (record_view_json s "index" d Hs). cbn [mbind result_bind].
  unfold format_record. rewrite Hd. reflexivity.
Qed.

Lemma read_request_reserved_id_witness :
  handle_tool_call (P := Sample.permissive) 9 (Some "read_request")
    (Some Session.read_index_id) Sample.traffic =
    ((9, Error (-32603) "'request'"), Sample.traffic).
Proof.
  apply (read_request_reserved_id (P := Sample.permissive) 9 Sample.traffic
           (index_doc [Sample.e1; Sample.e2]));
    reflexivity.
Defined.

(** X21: [clear_traffic] returns normally on every directory and touches
    only [*.json] names: every file whose name does not end in ".json" is
    still there with its content; and where it could delete every record
    file it is idempotent: a second clear changes nothing more. *)
Theorem clear_traffic_idempotent {P : Permissions} (s : store) :
  fst (clear_traffic s) = Ok tt /\
  (forall name, endswith name ".json" = false ->
     snd (clear_traffic s) !! name = s !! name) /\
  (clearable s = true ->
   snd (clear_traffic (snd (clear_traffic s))) = snd (clear_traffic s)).
Proof.
  destruct (clear_traffic_frame s) as [s1 [Hrun Hframe]].
  split; [rewrite Hrun; reflexivity|]. split.
  - intros name Hname. rewrite Hrun. apply Hframe.
    + intros ->. discriminate Hname.
    + intros Hin. apply json_entries_elem in Hin. destruct Hin as [He _]. congruence.
  - intros Hc. rewrite (clear_traffic_run s Hc). simpl. apply clear_traffic_cleared.
Qed.

Section ViewBound.

Lemma length_append (a b : string) :
  String.length (a +:+ b) = (String.length a + String.length b)%nat.
Proof.
  induction a as [|c a IH]; [reflexivity|]. rewrite append_cons. simpl. rewrite IH. reflexivity.
Qed.

Lemma Ok_inj {A} (a b : A) : Ok a = Ok b -> a = b.
Proof. intros H. injection H as H. exact H. Qed.

Lemma str_take_length (n : nat) (s : string) : (String.length (str_take n s) <= n)%nat.
Proof.
  revert s. induction n as [|n IH]; intros s; [destruct s; simpl; lia|].
  destruct s as [|c s]; simpl; [lia|]. specialize (IH s). lia.
Qed.

End ViewBound.

(** X22: the response body that [read_request] prints is bounded: whatever
    the stored body, the printed body line has at most 50,000 characters
    plus the length of the truncation marker. *)
Theorem response_view_bounded (resp : Response.t) (block : list string) :
  response_body_lines resp = Ok block ->
  exists body,
    Response.content resp = Some body /\
    (block = ["Response Body: (empty)"] \/
     exists label shown,
       block = [label; shown] /\
       str_len shown <= TRUNCATE_AT + str_len (Spec.truncation_marker (str_len body))).
Proof.
  unfold response_body_lines, mbind, result_bind.
  destruct (Response.content resp) as [body|]; [|discriminate]. cbn [getitem].
  intros H. exists body. split; [reflexivity|].
  destruct body as [|c body].
  { left. change (truthy "") with false in H. cbv iota in H.
    apply Ok_inj in H. symmetry. exact H. }
  right.
  change (truthy (String c body)) with true in H. cbv iota in H.
  destruct (getitem "content_length" (Response.content_length resp)) as [n|];
    [|exfalso; revert H; clear; intros H; inversion H].
  apply Ok_inj in H. subst block. eexists _, _. split; [reflexivity|].
  destruct (Z.gtb_spec (str_len (String c body)) TRUNCATE_AT) as [Hgt | Hle].
  - change (nl +:+ "... [truncated, " +:+ str_int (str_len (String c body)) +:+ " total bytes]")
      with (Spec.truncation_marker (str_len (String c body))).
    unfold str_len at 1. rewrite length_append, Nat2Z.inj_add.
    pose proof (str_take_length (Z.to_nat TRUNCATE_AT) (String c body)) as Hl.
    apply Nat2Z.inj_le in Hl. rewrite Z2Nat.id in Hl by discriminate.
    unfold str_len at 2. lia.
  - unfold str_len at 2. lia.
Qed.

Lemma response_view_bounded_witness :
  response_body_lines (Response.mk (Some 200) (Some "OK") (Some []) (Some "say FOO") (Some 7))
    = Ok ["Response Body (7 bytes):"; "say FOO"] /\
  str_len "say FOO" <= TRUNCATE_AT + str_len (Spec.truncation_marker (str_len "say FOO")).
Proof.
  split; [reflexivity|].
  destruct (response_view_bounded
              (Response.mk (Some 200) (Some "OK") (Some []) (Some "say FOO") (Some 7))
              ["Response Body (7 bytes):"; "say FOO"] eq_refl)
    as [body [Hb [Hempty | [label [shown [Hblock Hle]]]]]].
  - discriminate Hempty.
  - assert (Hbody : body = "say FOO") by (cbn [Response.content] in Hb; congruence).
    assert (Hshown : shown = "say FOO") by congruence.
    rewrite Hbody, Hshown in Hle. exact Hle.
Defined.

Section ExportMore.


End ExportMore.



(** ** The query side on what the capture side writes *)

Section NeverFails.

Lemma list_line_complete (e : Entry.t) :
  entry_complete e = true -> is_ok (list_line e) = true.
Proof.
  unfold entry_complete, list_line, mbind, result_bind. intros H.
  destruct (Entry.id e); [|discriminate]. simpl.
  destruct (Entry.timestamp e); [|discriminate]. simpl.
  destruct (Entry.method e); [|discriminate]. simpl.
  destruct (Entry.url e); [|discriminate]. simpl.
  destruct (Entry.status_code e); [|discriminate]. reflexivity.
Qed.

Lemma list_render_complete (l : list Entry.t) :
  Forall (fun e => entry_complete e = true) l -> is_ok (list_render l) = true.
Proof.
  intros H. unfold list_render. destruct l as [|e0 l0]; [reflexivity|].
  assert (exists lines, mapR list_line (e0 :: l0) = Ok lines) as [lines ->]; [|reflexivity].
  induction H as [|e l He _ [lines IH]]; [exists []; reflexivity|].
  pose proof (list_line_complete e He) as Hl. simpl. unfold mbind, result_bind.
  destruct (list_line e) as [line|]; [|discriminate]. rewrite IH. eexists. reflexivity.
Qed.

Lemma list_filtered_sub (p : Params.t) (requests : list Entry.t) :
  list_filtered p requests `sublist_of` requests.
Proof.
  unfold list_filtered. rewrite list_loop_filter. simpl.
  destruct (0 <? default 100 (Params.limit p));
    [etransitivity; [apply sublist_drop | apply filter_sublist] | apply filter_sublist].
Qed.

Lemma store_complete_entries (s : store) :
  store_complete s = true -> Forall (fun e => entry_complete e = true) (index_of s).
Proof.
  unfold store_complete. intros H. apply andb_true_iff in H. destruct H as [_ H].
  apply List.Forall_forall. intros e He.
  rewrite forallb_forall in H. specialize (H e He). apply andb_true_iff in H. apply H.
Qed.

Lemma format_record_ok (data : Doc.t) :
  record_complete data = true -> is_ok (format_record data) = true.
Proof.
  intros H. pose proof H as H0. unfold record_complete in H0.
  destruct (Doc.request data) as [req|] eqn:Ereq;
    [|rewrite !andb_false_r in H0; simpl in H0; discriminate].
  destruct (Doc.response data) as [resp|] eqn:Eresp;
    [|rewrite !andb_false_r in H0; discriminate].
  apply andb_true_iff in H0. destruct H0 as [_ Hresp]. unfold response_complete in Hresp.
  destruct (Response.content resp) as [body|] eqn:Eb;
    [|rewrite !andb_false_r in Hresp; simpl in Hresp; discriminate].
  destruct (Response.content_length resp) as [n|] eqn:En;
    [|rewrite !andb_false_r in Hresp; discriminate].
  assert (exists block, response_body_lines resp = Ok block /\ block <> []) as [block [Hl Hne]].
  { unfold response_body_lines, mbind, result_bind. rewrite Eb, En. cbn [getitem].
    destruct (truthy body); eexists; (split; [reflexivity | discriminate]). }
  rewrite (format_record_text data req resp H Ereq Eresp block Hl Hne). reflexivity.
Qed.

End NeverFails.

(** X24: on a complete store, as the capture side leaves it, the read-side
    tools do not fail: for every parameter set [list_requests],
    [search_requests] and [get_request_stats] return a text,
    [export_har] without ids returns a text, and [read_request] of every
    indexed id returns a text, so none of them is answered with the
    internal error -32603. *)
Theorem complete_store_never_fails (s : store) (p : Params.t) :
  store_complete s = true ->
  is_ok (fst (tool_list_requests p s)) = true /\
  is_ok (fst (tool_search_requests p s)) = true /\
  is_ok (fst (tool_get_request_stats p s)) = true /\
  (default [] (Params.request_ids p) = [] -> is_ok (fst (tool_export_har p s)) = true) /\
  (forall e id, In e (index_of s) -> Entry.id e = Some id -> Params.request_id p = Some id ->
     is_ok (fst (tool_read_request p s)) = true).
Proof.
  intros Hs. pose proof (store_complete_entries s Hs) as Hes.
  unfold store_complete in Hs. apply andb_true_iff in Hs. destruct Hs as [Hidx Hs].
  split; [|split; [|split; [|split]]].
  - rewrite tool_list_requests_run, (index_view_ok s Hidx). simpl.
    apply list_render_complete.
    apply List.Forall_forall. intros e He. rewrite List.Forall_forall in Hes. apply Hes.
    apply list_elem_of_In. apply list_elem_of_In in He.
    exact (elem_of_sublist _ _ _ He (list_filtered_sub p (index_of s))).
  - rewrite tool_search_requests_run, (index_view_ok s Hidx). cbv zeta. simpl.
    destruct (negb (truthy (lower (default "" (Params.query p))))); [reflexivity|].
    pose proof (search_scan_complete s (lower (default "" (Params.query p)))
                  (default false (Params.search_headers p)) (index_of s) Hs []) as Hok.
    destruct (search_scan _ _ _ _ _); [reflexivity | discriminate Hok].
  - rewrite tool_get_request_stats_run, (index_view_ok s Hidx). reflexivity.
  - intros Hids. rewrite tool_export_har_run, Hids.
    destruct (index_ok_loaded s Hidx) as [index [-> Hget]]. rewrite result_bind_ok, Hget.
    rewrite result_bind_ok.
    destruct (index_ids_complete s (index_of s) Hs) as [-> [Hrec _]].
    rewrite result_bind_ok. destruct (pick Entry.id (index_of s)) as [|i l] eqn:Ei; [reflexivity|].
    rewrite (export_scan_mapR s (i :: l) [] Hrec).
    destruct (resolved_complete s (i :: l) Hrec) as [entries He].
    unfold resolved in He. rewrite He. reflexivity.
  - intros e id He Hid Hp.
    rewrite forallb_forall in Hs. specialize (Hs e He).
    apply andb_true_iff in Hs. destruct Hs as [_ Hrec]. rewrite Hid in Hrec.
    destruct id as [|c id].
    + unfold tool_read_request. rewrite Hp. reflexivity.
    + rewrite (tool_read_request_run p s (String c id) Hp) by discriminate.
      rewrite (record_view_ok s _ Hrec). simpl.
      destruct (record_of s (String c id)) as [data|] eqn:Edata; [|reflexivity].
      apply format_record_ok. exact (record_ok_complete s _ data Hrec Edata).
Qed.

Lemma complete_store_never_fails_witness :
  is_ok (fst (tool_list_requests Params.empty
                (snd (ingest Sample.ascii_decode Session.captures [] Sample.empty)))) = true.
Proof.
  destruct (complete_store_never_fails
              (snd (ingest Sample.ascii_decode Session.captures [] Sample.empty)) Params.empty)
    as [H _]; [vm_compute; reflexivity | exact H].
Defined.

(** ** The text of one record, and unavailable files *)

(** X25: for a record file that parses and holds a complete record,
    [read_request] leaves the directory as it is and returns the record
    laid out line by line; the response body is printed in full when it has
    at most 50,000 characters, and otherwise cut to its first 50,000
    characters, followed by the marker that states its full length. *)
Theorem read_request_text (p : Params.t) (s : store) (id : string) (data : Doc.t)
    (req : Request.t) (resp : Response.t) (body : string) (size : Z) :
  Params.request_id p = Some id -> id <> "" ->
  s !! (id +:+ ".json") = Some (Json data) ->
  record_complete data = true ->
  Doc.request data = Some req -> Doc.response data = Some resp ->
  Response.content resp = Some body -> Response.content_length resp = Some size ->
  tool_read_request p s =
    (Ok (join nl
           (["=== REQUEST " +:+ default "" (Doc.id data) +:+ " ===";
             "Timestamp: " +:+ default "" (Doc.timestamp data);
             "";
             "--- REQUEST ---";
             default "" (Request.method req) +:+ " " +:+ default "" (Request.url req);
             "Host: " +:+ default "" (Request.host req) +:+ ":" +:+
               str_int (default 0 (Request.port req));
             "Scheme: " +:+ default "" (Request.scheme req);
             "";
             "Request Headers:"] ++
            map (fun kv => "  " +:+ kv.1 +:+ ": " +:+ kv.2)
                (default [] (Request.headers req)) ++
            [""] ++
            (if String.eqb (default "" (Request.content req)) ""
             then ["Request Body: (empty)"]
             else ["Request Body (" +:+
                     str_int (default 0 (Request.content_length req)) +:+ " bytes):";
                   default "" (Request.content req)]) ++
            [""; "--- RESPONSE ---";
             "Status: " +:+ str_int (default 0 (Response.status_code resp)) +:+ " " +:+
               default "" (Response.reason resp);
             "";
             "Response Headers:"] ++
            map (fun kv => "  " +:+ kv.1 +:+ ": " +:+ kv.2)
                (default [] (Response.headers resp)) ++
            [""])
         +:+ nl +:+
         (if String.eqb body "" then "Response Body: (empty)"
          else ("Response Body (" +:+ str_int size +:+ " bytes):") +:+ nl +:+
               (if Z.of_nat (String.length body) <=? 50000 then body
                else str_take (Z.to_nat 50000) body +:+ nl +:+ "... [truncated, " +:+
                     str_int (Z.of_nat (String.length body)) +:+ " total bytes]"))),
     s).
Proof.
  intros Hid Hne Hs Hc Hreq Hresp Hbody Hsize.
  rewrite (tool_read_request_run p s id Hid Hne), (record_view_json s id data Hs).
  cbn [mbind result_bind]. f_equal.
  assert (forall t : string, truthy t = negb (String.eqb t "")) as Htruthy
    by (intros [|c t]; reflexivity).
  set (block := if truthy body
                then ["Response Body (" +:+ str_int size +:+ " bytes):";
                      if str_len body >? TRUNCATE_AT
                      then str_take (Z.to_nat TRUNCATE_AT) body +:+ nl +:+ "... [truncated, "
                           +:+ str_int (str_len body) +:+ " total bytes]"
                      else body]
                else ["Response Body: (empty)"]).
  assert (response_body_lines resp = Ok block) as Hblock.
  { unfold response_body_lines, block. rewrite Hbody, Hsize. cbn [getitem mbind result_bind].
    destruct (truthy body); reflexivity. }
  rewrite (format_record_text data req resp Hc Hreq Hresp block Hblock)
    by (unfold block; destruct (truthy body); discriminate).
  rewrite (Htruthy (default "" (Request.content req))).
  destruct (String.eqb (default "" (Request.content req)) ""); cbn [negb];
    (do 2 f_equal; unfold block; rewrite Htruthy;
     destruct (String.eqb body ""); cbn [negb]; [reflexivity|];
     unfold str_len, TRUNCATE_AT; rewrite Z.gtb_ltb, Z.leb_antisym;
     destruct (50000 <? Z.of_nat (String.length body)); cbn [negb]; reflexivity).
Qed.

Lemma read_request_text_witness :
  fst (tool_read_request Sample.read_a1 Sample.traffic) =
  Ok (join nl
        ["=== REQUEST a1 ==="; "Timestamp: 2024-05-01T10:00:00"; ""; "--- REQUEST ---";
         "GET http://example.com/"; "Host: example.com:80"; "Scheme: http"; "";
         "Request Headers:"; "  Accept: */*"; ""; "Request Body: (empty)"; "";
         "--- RESPONSE ---"; "Status: 200 OK"; ""; "Response Headers:";
         "  content-type: text/plain"; ""; "Response Body (7 bytes):"; "say FOO"]).
Proof.
  rewrite (read_request_text Sample.read_a1 Sample.traffic "a1" Sample.r1 _ _ "say FOO" 7
             eq_refl ltac:(discriminate) eq_refl eq_refl eq_refl eq_refl eq_refl eq_refl).
  reflexivity.
Defined.

